(** * diskface: exclusion matching, scan, selection and removal

    A shallow embedding of the core of [src/diskface.py] (and, where the
    variants drift, of [src/diskface/_diskface.py]), together with the
    properties its specification states about it; then of the
    configuration and the commands of [src/diskface.py] and of the scan
    of [src/diskspace.py], with further properties of the code.

    Python values are modelled as follows: [str] is [string], read as
    ASCII text (a character above 127 stands for itself and is neither a
    letter, a digit nor a space); [int] is [Z], [List[...]] is [list],
    [Set[str]] is [gset string], [Dict[str,int]] is [gmap string Z]. *)

From Stdlib Require Import ZArith String Ascii List Bool Lia Sorted Permutation.
From stdpp Require Import base list strings gmap sorting.

Local Open Scope string_scope.
Local Open Scope list_scope.
Local Open Scope Z_scope.

(** ** Python builtins used by the program *)

Module Py.

(** [c.lower()] on one ASCII character. *)
Definition lower_char (c : ascii) : ascii :=
  let n := nat_of_ascii c in
  if (Nat.leb 65 n && Nat.leb n 90)%bool then ascii_of_nat (n + 32) else c.

(** [s.lower()] *)
Fixpoint lower (s : string) : string :=
  match s with
  | EmptyString => EmptyString
  | String c s' => String (lower_char c) (lower s')
  end.

(** [s.startswith(p)] *)
Fixpoint startswith (p s : string) : bool :=
  match p, s with
  | EmptyString, _ => true
  | String a p', String b s' => Ascii.eqb a b && startswith p' s'
  | String _ _, EmptyString => false
  end.

(** [c in s] for a single character [c]. *)
Fixpoint contains_char (c : ascii) (s : string) : bool :=
  match s with
  | EmptyString => false
  | String a s' => Ascii.eqb a c || contains_char c s'
  end.

(** [s.split(sep)] for a one-character separator: empty pieces are kept,
    and the result is never the empty list. *)
Fixpoint split (sep : ascii) (s : string) : list string :=
  match s with
  | EmptyString => [EmptyString]
  | String c s' =>
      if Ascii.eqb c sep then EmptyString :: split sep s'
      else match split sep s' with
           | h :: t => String c h :: t
           | [] => [String c EmptyString]
           end
  end.

(** [sep.join(parts)] *)
Fixpoint join (sep : string) (parts : list string) : string :=
  match parts with
  | [] => EmptyString
  | [p] => p
  | p :: rest => p +:+ sep +:+ join sep rest
  end.

(** [s.split(sep, 1)] when [sep in s]: the text before and after the
    first occurrence. *)
Fixpoint split_first (sep : ascii) (s : string) : string * string :=
  match s with
  | EmptyString => (EmptyString, EmptyString)
  | String c s' =>
      if Ascii.eqb c sep then (EmptyString, s')
      else let '(a, b) := split_first sep s' in (String c a, b)
  end.

(** [s.replace(a, b)] for single characters. *)
Fixpoint replace_char (a b : ascii) (s : string) : string :=
  match s with
  | EmptyString => EmptyString
  | String c s' => String (if Ascii.eqb c a then b else c) (replace_char a b s')
  end.

(** ASCII characters for which [str.isspace] holds. *)
Definition isspace (c : ascii) : bool :=
  let n := nat_of_ascii c in
  ((Nat.leb 9 n && Nat.leb n 13) || (Nat.leb 28 n && Nat.leb n 32))%bool.

(** [s.split()] with no argument: maximal runs of non-whitespace.
    [cur] is the word being read, if any. *)
Fixpoint split_ws_aux (cur : option string) (s : string) : list string :=
  match s with
  | EmptyString => match cur with Some w => [w] | None => [] end
  | String c s' =>
      if isspace c then
        match cur with
        | Some w => w :: split_ws_aux None s'
        | None => split_ws_aux None s'
        end
      else
        split_ws_aux (Some (match cur with Some w => w +:+ String c "" | None => String c "" end)) s'
  end.

Definition split_ws (s : string) : list string := split_ws_aux None s.

Definition digit_val (c : ascii) : option Z :=
  let n := nat_of_ascii c in
  if (Nat.leb 48 n && Nat.leb n 57)%bool then Some (Z.of_nat (n - 48)) else None.

(** Digits of an [int(...)] literal after the sign: decimal digits, with
    single underscores allowed between two digits.  [acc] is the value
    read so far and [prev] tells whether the previous character was a
    digit. *)
Fixpoint int_digits (acc : Z) (prev : bool) (s : string) : option Z :=
  match s with
  | EmptyString => if prev then Some acc else None
  | String c s' =>
      match digit_val c with
      | Some d => int_digits (10 * acc + d) true s'
      | None =>
          if (Ascii.eqb c "_" && prev)%bool then int_digits acc false s'
          else None
      end
  end.

(** The literal of [int(s)]: an optional sign, then the digits. *)
Definition int_literal (s : string) : option Z :=
  match s with
  | String "+" s' => int_digits 0 false s'
  | String "-" s' => Z.opp <$> int_digits 0 false s'
  | _ => int_digits 0 false s
  end.

(** The number of decimal digits in [s], leading zeros included. *)
Fixpoint count_digits (s : string) : Z :=
  match s with
  | EmptyString => 0
  | String c s' =>
      match digit_val c with
      | Some _ => 1 + count_digits s'
      | None => count_digits s'
      end
  end.

(** [sys.get_int_max_str_digits()]: the default of CPython 3.11 (and of
    the security releases of 3.7 to 3.10), which the program never
    changes. *)
Definition int_max_str_digits : Z := 4300.

(** [int(s)] for a string without surrounding whitespace; [None] stands
    for [ValueError], which is also what a literal of more than
    [int_max_str_digits] digits raises. *)
Definition int (s : string) : option Z :=
  if int_max_str_digits <? count_digits s then None else int_literal s.

(** [list(range(a, b + 1))] *)
Definition range_incl (a b : Z) : list Z :=
  map (fun i => a + Z.of_nat i) (seq 0 (Z.to_nat (b + 1 - a))).

(** [sorted(l, key=key, reverse=reverse)].  Python guarantees a stable
    sort, also when [reverse] is set; an element is inserted in front of
    the first element that must come strictly after it. *)
Section Sorted.
Context {A : Type} (key : A -> Z) (reverse : bool).

Definition comes_before (x y : A) : bool :=
  if reverse then key y <? key x else key x <? key y.

Fixpoint insert (x : A) (l : list A) : list A :=
  match l with
  | [] => [x]
  | y :: l' => if comes_before y x then y :: insert x l' else x :: l
  end.

Definition sorted (l : list A) : list A := foldr insert [] l.
End Sorted.

(** [l[:n]]: a negative [n] counts from the end. *)
Definition slice_to {A : Type} (n : Z) (l : list A) : list A :=
  if 0 <=? n then take (Z.to_nat n) l
  else take (length l - Z.to_nat (- n)) l.

(** [l[k]]: a negative [k] counts from the end; [None] stands for
    [IndexError]. *)
Definition index {A : Type} (l : list A) (k : Z) : option A :=
  if 0 <=? k then l !! Z.to_nat k
  else if 0 <=? Z.of_nat (length l) + k then l !! Z.to_nat (Z.of_nat (length l) + k)
  else None.

(** [sum(l)] *)
Definition sum (l : list Z) : Z := fold_left Z.add l 0.

(** [s.lstrip()] *)
Fixpoint lstrip (s : string) : string :=
  match s with
  | EmptyString => EmptyString
  | String c s' => if isspace c then lstrip s' else s
  end.

(** [s.rstrip()] *)
Fixpoint rstrip (s : string) : string :=
  match s with
  | EmptyString => EmptyString
  | String c s' =>
      match rstrip s' with
      | EmptyString => if isspace c then EmptyString else String c EmptyString
      | r => String c r
      end
  end.

(** [s.strip()] *)
Definition strip (s : string) : string := rstrip (lstrip s).

End Py.

(** ** [pathlib.PurePath] and [os.path] on POSIX *)

Module PurePath.

(** The root of a POSIX path: exactly two leading slashes are kept,
    one or three and more collapse to one. *)
Definition root (s : string) : string :=
  match s with
  | String "/" (String "/" (String "/" _)) => "/"
  | String "/" (String "/" _) => "//"
  | String "/" _ => "/"
  | _ => ""
  end.

(** The parts after the root: empty and [.] segments are dropped. *)
Definition tail (s : string) : list string :=
  filter (fun x => x <> "" /\ x <> ".") (Py.split "/" s).

(** [str(PurePath(s))] *)
Definition str (s : string) : string :=
  match root s +:+ Py.join "/" (tail s) with
  | EmptyString => "."
  | r => r
  end.

(** [PurePath(s).is_absolute()] *)
Definition is_absolute (s : string) : bool := Py.startswith "/" s.

(** [Path(s).parts]: the root, when there is one, then the tail. *)
Definition parts (s : string) : list string :=
  match root s with
  | EmptyString => tail s
  | r => r :: tail s
  end.

End PurePath.

Module OsPath.

(** [a.endswith("/")] *)
Fixpoint ends_with_sep (a : string) : bool :=
  match a with
  | EmptyString => false
  | String c EmptyString => Ascii.eqb c "/"
  | String _ a' => ends_with_sep a'
  end.

(** [os.path.join(a, b)] *)
Definition join (a b : string) : string :=
  if Py.startswith "/" b then b
  else match a with
       | EmptyString => b
       | _ => if ends_with_sep a then a +:+ b else a +:+ "/" +:+ b
       end.

End OsPath.

(** ** [fnmatch.fnmatch] on POSIX

    The library translates the pattern to a regular expression that has
    to match the whole name: [*] matches any run of characters (also
    [/]), [?] any one character, [[seq]] one character of [seq] and
    [[!seq]] one character outside it; a [[] without a closing bracket
    stands for itself.  [os.path.normcase] is the identity on POSIX. *)

Module Fnmatch.

Inductive item :=
| One (c : ascii)
| Range (lo hi : ascii).

Inductive tok :=
| Star
| AnyChar
| Lit (c : ascii)
| Class (negated : bool) (items : list item).

(** The members of a bracket expression, read left to right: [a-b] is a
    range, everything else stands for itself. *)
Fixpoint class_items (s : string) : list item :=
  match s with
  | EmptyString => []
  | String a (String "-" (String b rest)) => Range a b :: class_items rest
  | String a rest => One a :: class_items rest
  end.

Definition make_class (stuff : string) : tok :=
  match stuff with
  | String "!" body => Class true (class_items body)
  | _ => Class false (class_items stuff)
  end.

(** Does the text after a [[] hold the closing bracket?  A leading [!]
    and a [[]] right after it do not close the expression. *)
Definition has_close (rest : string) : bool :=
  let r1 := match rest with String "!" r => r | _ => rest end in
  let r2 := match r1 with String "]" r => r | _ => r1 end in
  Py.contains_char "]" r2.

(** Number of characters after [[] that belong to the expression
    whatever they are. *)
Definition forced (rest : string) : nat :=
  match rest with
  | String "!" (String "]" _) => 2
  | String "!" _ => 1
  | String "]" _ => 1
  | _ => 0
  end%nat.

(** [inside] is [None] outside a bracket expression, and otherwise holds
    the number of characters still forced and the text read so far. *)
Fixpoint tokens (inside : option (nat * string)) (pat : string) : list tok :=
  match pat with
  | EmptyString => []
  | String c rest =>
      match inside with
      | Some (S k, acc) => tokens (Some (k, acc +:+ String c "")) rest
      | Some (O, acc) =>
          if Ascii.eqb c "]" then make_class acc :: tokens None rest
          else tokens (Some (O, acc +:+ String c "")) rest
      | None =>
          if Ascii.eqb c "*" then Star :: tokens None rest
          else if Ascii.eqb c "?" then AnyChar :: tokens None rest
          else if (Ascii.eqb c "[" && has_close rest)%bool
               then tokens (Some (forced rest, "")) rest
          else Lit c :: tokens None rest
      end
  end.

Definition in_item (c : ascii) (i : item) : bool :=
  match i with
  | One a => Ascii.eqb a c
  | Range lo hi =>
      (Nat.leb (nat_of_ascii lo) (nat_of_ascii c) && Nat.leb (nat_of_ascii c) (nat_of_ascii hi))%bool
  end.

Definition tok_accepts (t : tok) (c : ascii) : bool :=
  match t with
  | Star | AnyChar => true
  | Lit a => Ascii.eqb a c
  | Class neg items => xorb neg (existsb (in_item c) items)
  end.

Fixpoint matches (p : list tok) (s : string) {struct p} : bool :=
  match p with
  | [] => match s with EmptyString => true | _ => false end
  | Star :: p' =>
      (fix star (s : string) : bool :=
         matches p' s || match s with
                         | EmptyString => false
                         | String _ s' => star s'
                         end) s
  | t :: p' =>
      match s with
      | EmptyString => false
      | String c s' => tok_accepts t c && matches p' s'
      end
  end.

Definition fnmatch (name pat : string) : bool := matches (tokens None pat) name.

End Fnmatch.

(** ** The filesystem as a scan observes it *)

(** What [os.walk] and the stat calls of the scan see of one entry.
    [File] is an entry that [os.walk] lists among the file names, with
    the answer of [os.path.islink] and of [os.path.getsize] ([None] when
    the call raises).  [Dir] is an entry listed among the directory names,
    with the answer of [os.path.islink] and the directory's listing
    ([None] when listing it raises). *)
#[local] Unset Elimination Schemes.
Inductive node :=
| File (link : bool) (size : option Z)
| Dir (link : bool) (entries : option (list (string * node))).
#[local] Set Elimination Schemes.

Definition is_dir (n : node) : bool :=
  match n with Dir _ _ => true | File _ _ => false end.

Definition is_link (n : node) : bool :=
  match n with Dir l _ | File l _ => l end.

(** A file name as the loop body uses it: the name, [islink] and
    [getsize] of its path. *)
Definition file_info : Type := string * bool * option Z.

(** One item yielded by [os.walk]: [(dirpath, dirnames, filenames)]. *)
Definition yielded : Type := string * list string * list file_info.

Definition dirnames_of (es : list (string * node)) : list string :=
  map fst (filter (fun e => is_dir (snd e)) es).

Definition filenames_of (es : list (string * node)) : list file_info :=
  flat_map (fun e => match snd e with
                     | File l sz => [(fst e, l, sz)]
                     | Dir _ _ => []
                     end) es.

(** [os.walk(top, topdown=True)] whose caller filters [dirnames] in place
    before the walk goes on: every loop of the program only ever assigns
    [dirnames[:] = [d for d in dirnames if ...]], so the walk takes the
    filter [keep dirpath d].  A directory that cannot be listed yields
    nothing, and a symbolic link to a directory is listed but not entered. *)
Fixpoint os_walk (keep : string -> string -> bool) (top : string) (n : node)
  {struct n} : list yielded :=
  match n with
  | File _ _ => []
  | Dir _ None => []
  | Dir _ (Some es) =>
      (top, filter (fun d => keep top d) (dirnames_of es), filenames_of es)
      :: (fix children (l : list (string * node)) : list yielded :=
            match l with
            | [] => []
            | (name, child) :: rest =>
                (if (is_dir child && keep top name && negb (is_link child))%bool
                 then os_walk keep (OsPath.join top name) child
                 else [])
                ++ children rest
            end) es
  end.

(** ** The operating system as the removal executor calls it *)

(** The exceptions the executor tells apart: [PermissionError] has a
    handler of its own; [OSError text] stands for every other [Exception]
    that a call of [os] or [shutil] raises, [text] being [str(e)];
    [MarkupError text] is what [console.print] raises on a line whose
    markup it cannot read, an [Exception] as well. *)
Inductive exn :=
| PermissionError
| OSError (text : string)
| MarkupError (text : string).

Inductive result (A : Type) :=
| Ok (a : A)
| Raise (e : exn).
Arguments Ok {A} a.
Arguments Raise {A} e.

(** The calls of [os], [os.path] and [shutil] made by [safe_remove_items].
    The tests of [os.path] never raise; [os.walk] swallows listing errors;
    a call that deletes returns the filesystem it leaves behind, also when
    it raises. *)
Class OS (world : Type) := {
  path_exists : world -> string -> bool;
  path_isfile : world -> string -> bool;
  path_isdir : world -> string -> bool;
  path_islink : world -> string -> bool;
  path_getsize : world -> string -> result Z;
  walk : world -> string -> list (string * list string * list string);
  remove : world -> string -> world * option exn;
  rmtree : world -> string -> world * option exn
}.

(** The lines the executor prints; each holds the path of its item, and
    the last one the text of the exception caught. *)
Inductive message :=
| Skipping (path : string)
| Removed (path : string) (actual_size : Z)
| PermissionDenied (path : string)
| ErrorRemoving (path : string) (text : string).

Definition message_path (m : message) : string :=
  match m with
  | Skipping p | Removed p _ | PermissionDenied p | ErrorRemoving p _ => p
  end.

Definition is_failure (m : message) : bool :=
  match m with
  | PermissionDenied _ | ErrorRemoving _ _ => true
  | _ => false
  end.

(** [console.print(line)] of rich.  The line of a message is written in
    rich's markup with the path, and the text of the exception, put into
    it as they are, so that rich may fail to read it (it raises on a
    closing tag that matches no open tag, as a path that holds [[/x]]
    brings one in).  [markup_error m] is [None] when the line of [m] is
    rendered and [Some text] when [console.print] raises [MarkupError]
    with [str(e) = text].  ([progress.update] and [progress.advance] only
    store the description and the count of the bar: they print no line
    and raise nothing.) *)
Class Console := {
  markup_error : message -> option string
}.

(** ** [src/diskface.py] *)

Module Diskface.

(** [path_matches_pattern(path, pattern)] *)
Definition path_matches_pattern (path pattern : string) : bool :=
  if PurePath.is_absolute pattern then
    Fnmatch.fnmatch (Py.lower (PurePath.str path)) (Py.lower (PurePath.str pattern))
  else
    let parts := Py.split "/" pattern in
    if existsb (String.eqb "**") parts then
      Fnmatch.fnmatch (Py.lower (PurePath.str path)) (Py.lower ("*" +:+ List.last parts ""))
    else
      let path_parts := Py.split "/" (PurePath.str path) in
      let plen := length parts in
      existsb
        (fun i => Fnmatch.fnmatch
                    (Py.lower (Py.join "/" (take plen (drop i path_parts))))
                    (Py.lower pattern))
        (seq 0 (S (length path_parts) - plen)).

(** [should_exclude(path, exclusions)] *)
Definition should_exclude (path : string) (exclusions : gset string) : bool :=
  existsb (path_matches_pattern path) (elements exclusions).

(** *** Selection *)

(** One turn of the loop of [parse_selection]: the indices the token
    adds, or [None] when the function returns [[]] at this token. *)
Definition parse_part (max_items : Z) (part : string) : option (list Z) :=
  if Py.contains_char "-" part then
    let '(a, b) := Py.split_first "-" part in
    match Py.int a, Py.int b with
    | Some start, Some end_ =>
        if ((1 <=? start) && (start <=? max_items) && (1 <=? end_) && (end_ <=? max_items)
            && (start <=? end_))%bool
        then Some (Py.range_incl start end_)
        else None
    | _, _ => None
    end
  else
    match Py.int part with
    | Some num => if ((1 <=? num) && (num <=? max_items))%bool then Some [num] else None
    | None => None
    end.

Fixpoint parse_parts (max_items : Z) (indices : list Z) (parts : list string)
  : option (list Z) :=
  match parts with
  | [] => Some indices
  | part :: rest =>
      match parse_part max_items part with
      | Some more => parse_parts max_items (indices ++ more) rest
      | None => None
      end
  end.

(** [parse_selection(selection, max_items)] *)
Definition parse_selection (selection : string) (max_items : Z) : list Z :=
  if String.eqb (Py.lower selection) "all" then Py.range_incl 1 max_items
  else
    match parse_parts max_items [] (Py.split_ws (Py.replace_char "," " " selection)) with
    | Some indices => Py.sorted id false (elements (list_to_set indices : gset Z))
    | None => []
    end.

(** *** Scan *)

(** The settings read with [config.get_setting]. *)
Record settings := {
  scan_files : bool;
  scan_directories : bool;
  ignore_dotfolders : bool
}.

Section Scan.
Variable cfg : settings.
Variable exclusions : gset string.
(** [min_bytes] is [min_size_mb * 1024 * 1024], a float; Python compares
    an [int] with a float exactly, so the threshold acts as the least
    integer not below it. *)
Variable min_bytes : Z.

(** [any(part.startswith('.') for part in Path(dirpath).parts)] *)
Definition in_dot_dir (dirpath : string) : bool :=
  existsb (Py.startswith ".") (PurePath.parts dirpath).

(** The directory names left in [dirnames] before the walk goes on. *)
Definition keep_dir (dirpath d : string) : bool :=
  (negb (ignore_dotfolders cfg && in_dot_dir dirpath)
   && negb (ignore_dotfolders cfg && Py.startswith "." d)
   && negb (should_exclude (OsPath.join dirpath d) exclusions))%bool.

(** The guards in front of [os.path.getsize(fp)]. *)
Definition counted (dirpath : string) (f : file_info) : bool :=
  let '(name, link, _) := f in
  (negb (ignore_dotfolders cfg && Py.startswith "." name)
   && negb link
   && negb (should_exclude (OsPath.join dirpath name) exclusions))%bool.

(** The loop that accumulates [dir_size]. *)
Definition dir_size (dirpath : string) (filenames : list file_info) : Z :=
  fold_left
    (fun acc f =>
       if counted dirpath f then
         match snd f with
         | Some sz => acc + sz
         | None => acc
         end
       else acc)
    filenames 0.

Definition directory_entries (dirpath : string) (filenames : list file_info)
  : list (string * Z) :=
  if scan_directories cfg then
    let size := dir_size dirpath filenames in
    if min_bytes <=? size then [(dirpath, size)] else []
  else [].

Definition file_entries (dirpath : string) (filenames : list file_info)
  : list (string * Z) :=
  if scan_files cfg then
    flat_map
      (fun f =>
         if counted dirpath f then
           match snd f with
           | Some file_size =>
               if min_bytes <=? file_size
               then [(OsPath.join dirpath (fst (fst f)), file_size)]
               else []
           | None => []
           end
         else [])
      filenames
  else [].

(** What one turn of the loop over [os.walk] appends to [results]. *)
Definition visit (y : yielded) : list (string * Z) :=
  let '(dirpath, _, filenames) := y in
  if (ignore_dotfolders cfg && in_dot_dir dirpath)%bool then []
  else directory_entries dirpath filenames ++ file_entries dirpath filenames.

(** [results] when the walk is over, in discovery order. *)
Definition results (root : string) (fs : node) : list (string * Z) :=
  flat_map visit (os_walk keep_dir root fs).

(** [analyze_disk_usage(root, exclusions, min_size_mb)] *)
Definition analyze_disk_usage (root : string) (fs : node) : list (string * Z) :=
  Py.sorted snd true (results root fs).
End Scan.

(** *** Removal *)

Section Executor.
Context {world : Type} {os : OS world} {rich : Console}.

(** The state the executor works on: the filesystem, the dictionary
    [removed], the console, and (not in the program, kept to state its
    properties) the paths for which [os.remove] or [shutil.rmtree]
    returned normally. *)
Record state := {
  fs : world;
  removed : gmap string Z;
  console : list message;
  deleted : list string
}.

(** Computations that read and change the state and may raise. *)
Definition M (A : Type) : Type := state -> state * result A.

Definition ret {A} (a : A) : M A := fun st => (st, Ok a).

Definition bind {A B} (c : M A) (k : A -> M B) : M B :=
  fun st => match c st with
            | (st', Ok a) => k a st'
            | (st', Raise e) => (st', Raise e)
            end.

(** [try: c except ... as e: h e] *)
Definition catch {A} (c : M A) (h : exn -> M A) : M A :=
  fun st => match c st with
            | (st', Ok a) => (st', Ok a)
            | (st', Raise e) => h e st'
            end.

Local Notation "x <- c ;; k" := (bind c (fun x => k))
  (at level 100, c at next level, right associativity).
Local Notation "c ;; k" := (bind c (fun _ => k))
  (at level 100, right associativity).

Definition query {A} (f : world -> A) : M A := fun st => (st, Ok (f (fs st))).

Definition getsize (path : string) : M Z :=
  fun st => (st, path_getsize (fs st) path).

(** [console.print(...)]: the line is added to the console, or
    [MarkupError] is raised and nothing is printed. *)
Definition print (m : message) : M unit :=
  fun st => match markup_error m with
            | None =>
                ({| fs := fs st; removed := removed st;
                    console := console st ++ [m]; deleted := deleted st |}, Ok tt)
            | Some text => (st, Raise (MarkupError text))
            end.

(** A deleting call: the filesystem changes as the call leaves it, and
    the path is noted when the call returns normally. *)
Definition delete_with (call : world -> string -> world * option exn)
  (path : string) : M unit :=
  fun st => match call (fs st) path with
            | (w, None) =>
                ({| fs := w; removed := removed st; console := console st;
                    deleted := deleted st ++ [path] |}, Ok tt)
            | (w, Some e) =>
                ({| fs := w; removed := removed st; console := console st;
                    deleted := deleted st |}, Raise e)
            end.

(** [removed[path] = actual_size] *)
Definition record (path : string) (actual_size : Z) : M unit :=
  fun st => ({| fs := fs st; removed := <[path := actual_size]> (removed st);
                console := console st; deleted := deleted st |}, Ok tt).

(** The walk that sums a directory before it is removed; the inner
    [try] turns a failing [getsize] into [continue]. *)
Definition walked_size (w : world) (path : string) : Z :=
  fold_left
    (fun actual_size '(dirpath, _, filenames) =>
       fold_left
         (fun actual_size filename =>
            let filepath := OsPath.join dirpath filename in
            if path_islink w filepath then actual_size
            else match path_getsize w filepath with
                 | Ok sz => actual_size + sz
                 | Raise _ => actual_size
                 end)
         filenames actual_size)
    (walk w path) 0.

(** The body of the [try] statement. *)
Definition try_remove (path : string) : M unit :=
  present <- query (fun w => path_exists w path) ;;
  if negb present then print (Skipping path)
  else
    actual_size <-
      (isfile <- query (fun w => path_isfile w path) ;;
       if isfile then
         sz <- getsize path ;;
         delete_with remove path ;;
         ret sz
       else
         isdir <- query (fun w => path_isdir w path) ;;
         if isdir then
           sz <- query (fun w => walked_size w path) ;;
           delete_with rmtree path ;;
           ret sz
         else ret 0) ;;
    record path actual_size ;;
    print (Removed path actual_size).

(** One turn of the loop over [selected_items]. *)
Definition remove_item (item : string * Z) : M unit :=
  let '(path, expected_size) := item in
  catch (try_remove path)
        (fun e => match e with
                  | PermissionError => print (PermissionDenied path)
                  | OSError text | MarkupError text => print (ErrorRemoving path text)
                  end).

Fixpoint for_each (items : list (string * Z)) : M unit :=
  match items with
  | [] => ret tt
  | item :: rest => remove_item item ;; for_each rest
  end.

Definition start (w : world) : state :=
  {| fs := w; removed := ∅; console := []; deleted := [] |}.

(** [safe_remove_items(selected_items)], started on the filesystem [w]. *)
Definition safe_remove_items (selected_items : list (string * Z)) (w : world)
  : state * result (gmap string Z) :=
  (for_each selected_items ;; (fun st => (st, Ok (removed st)))) (start w).
End Executor.

End Diskface.

(** ** [src/diskface/_diskface.py] *)

Module DiskFace3.

(** [pattern.split('**')] *)
Fixpoint split_stars (s : string) : list string :=
  match s with
  | EmptyString => [EmptyString]
  | String "*" (String "*" rest) => EmptyString :: split_stars rest
  | String c rest =>
      match split_stars rest with
      | h :: t => String c h :: t
      | [] => [String c EmptyString]
      end
  end.

(** [path_matches_pattern(path, pattern)]: the relative pattern is
    matched against the whole path. *)
Definition path_matches_pattern (path pattern : string) : bool :=
  let lower_path := Py.lower path in
  if PurePath.is_absolute pattern then
    Fnmatch.fnmatch lower_path (Py.lower (PurePath.str pattern))
  else
    match split_stars pattern with
    | _ :: _ :: _ as pieces =>
        Fnmatch.fnmatch lower_path ("*" +:+ Py.lower (List.last pieces ""))
    | _ => Fnmatch.fnmatch lower_path (Py.lower pattern)
    end.

(** The entries [prompt_deletion] asks about, for the indices read from
    the answer and in their order: an index outside [1, len(results)] is
    skipped with a message; [None] stands for [IndexError]. *)
Definition prompt_targets {A : Type} (results : list A) (indices : list Z)
  : option (list A) :=
  mapM (fun i => Py.index results (i - 1))
       (List.filter (fun i => (1 <=? i) && (i <=? Z.of_nat (length results)))%bool indices).

(** [load_patterns(patterns_file)]: [None] is a file that does not exist,
    [Some lines] one whose text has the lines [lines]
    ([read_text().splitlines()]). *)
Definition load_patterns (patterns_file : option (list string)) : list string :=
  match patterns_file with
  | None => []
  | Some lines =>
      flat_map (fun line =>
                  let stripped := Py.strip line in
                  if (String.eqb stripped "" || Py.startswith "#" stripped)%bool then []
                  else [stripped])
               lines
  end.

End DiskFace3.

(** ** A small filesystem to run the executor on *)

Module SimOS.

Inductive kind :=
| Regular (size : Z)
| Folder (listing : list (string * list string * list string))
| Special.

(** [objects] holds what exists, [links] the paths that are symbolic
    links, and [faults] the paths whose deletion raises. *)
Record sim := {
  objects : gmap string kind;
  links : gset string;
  faults : gmap string exn
}.

Definition sim_delete (subtree : bool) (w : sim) (path : string) : sim * option exn :=
  match faults w !! path with
  | Some e => (w, Some e)
  | None =>
      ({| objects :=
            filter (fun kv => kv.1 <> path
                              /\ (subtree = true -> Py.startswith (path +:+ "/") kv.1 = false))
                   (objects w);
          links := links w; faults := faults w |}, None)
  end.

(** The console of the examples refuses a line whose path or error text
    holds [[/x]]: a closing tag that rich refuses when, as in the examples,
    nothing in the line opens [x]. *)
Fixpoint holds_closing_x (s : string) : bool :=
  match s with
  | EmptyString => false
  | String c s' => Py.startswith "[/x]" s || holds_closing_x s'
  end.

#[global] Instance sim_console : Console := {
  markup_error m :=
    if (holds_closing_x (message_path m)
        || match m with ErrorRemoving _ text => holds_closing_x text | _ => false end)%bool
    then Some "closing tag '[/x]' doesn't match any open tag"
    else None
}.

#[global] Instance sim_os : OS sim := {
  path_exists w p := bool_decide (is_Some (objects w !! p));
  path_isfile w p := match objects w !! p with Some (Regular _) => true | _ => false end;
  path_isdir w p := match objects w !! p with Some (Folder _) => true | _ => false end;
  path_islink w p := bool_decide (p ∈ links w);
  path_getsize w p := match objects w !! p with
                      | Some (Regular sz) => Ok sz
                      | Some _ => Ok 0
                      | None => Raise (OSError "No such file or directory")
                      end;
  walk w p := match objects w !! p with Some (Folder l) => l | _ => [] end;
  remove := sim_delete false;
  rmtree := sim_delete true
}.

Definition disk : sim :=
  {| objects := list_to_map
       [("/d", Folder [("/d", ["s"], ["a"; "l"]); ("/d/s", [], ["b"])]);
        ("/d/a", Regular 10); ("/d/l", Regular 7); ("/d/s", Folder [("/d/s", [], ["b"])]);
        ("/d/s/b", Regular 200);
        ("/f", Regular 5); ("/locked", Regular 9); ("/busy", Regular 3);
        ("/run/app.sock", Special)];
     links := {[ "/d/l" ]};
     faults := list_to_map [("/locked", PermissionError);
                            ("/busy", OSError "Device or resource busy")] |}.


End SimOS.

(** ** [src/diskface.py]: the configuration and the commands *)

Module Config.

(** [DiskfaceConfig.add_exclusion(pattern)]: the list of exclusions it
    leaves and the value it returns. *)
Definition add_exclusion (pattern : string) (exclusions : list string)
  : list string * bool :=
  if bool_decide (pattern ∈ exclusions) then (exclusions, false)
  else (exclusions ++ [pattern], true).

(** One turn of the loop of [remove_exclusions]: [pop(i-1)] when [i] is
    within the list as it is now. *)
Definition pop_valid (st : list string * list string) (i : Z)
  : list string * list string :=
  let '(exclusions, removed) := st in
  if ((1 <=? i) && (i <=? Z.of_nat (length exclusions)))%bool then
    match exclusions !! Z.to_nat (i - 1) with
    | Some x => (delete (Z.to_nat (i - 1)) exclusions, removed ++ [x])
    | None => st
    end
  else st.

(** [DiskfaceConfig.remove_exclusions(indices)]: the list of exclusions it
    leaves and the list it returns. *)
Definition remove_exclusions (indices : list Z) (exclusions : list string)
  : list string * list string :=
  fold_left pop_valid (Py.sorted id true indices) (exclusions, []).

(** A value of the settings dictionary: a boolean, or anything else. *)
Inductive value (other : Type) :=
| VBool (b : bool)
| VOther (o : other).
Arguments VBool {other} b.
Arguments VOther {other} o.

(** [DiskfaceConfig.toggle_setting(setting)]: the settings it leaves and
    the value it returns. *)
Definition toggle_setting {other : Type} (setting : string)
  (settings : gmap string (value other)) : gmap string (value other) * bool :=
  match settings !! setting with
  | Some (VBool b) => (<[setting := VBool (negb b)]> settings, negb b)
  | _ => (settings, false)
  end.

(** [DiskfaceConfig.get_setting(setting, default)] *)
Definition get_setting {other : Type} (setting : string) (default : value other)
  (settings : gmap string (value other)) : value other :=
  match settings !! setting with
  | Some v => v
  | None => default
  end.

End Config.

Module Cli.

(** One turn of the loop of [cmd_exclude_add]. *)
Definition add_one (st : list string * list string) (pattern : string)
  : list string * list string :=
  let '(exclusions, added) := st in
  let '(exclusions', is_new) := Config.add_exclusion pattern exclusions in
  (exclusions', if is_new then added ++ [pattern] else added).

(** [cmd_exclude_add]: the list of exclusions it leaves and the list
    [added] it prints. *)
Definition cmd_exclude_add (patterns : list string) (exclusions : list string)
  : list string * list string :=
  fold_left add_one patterns (exclusions, []).

(** [cmd_exclude_remove]: the list of exclusions it leaves and the
    patterns it reports as removed. *)
Definition cmd_exclude_remove (selection : string) (exclusions : list string)
  : list string * list string :=
  match exclusions with
  | [] => (exclusions, [])
  | _ =>
      match selection with
      | EmptyString => (exclusions, [])
      | _ =>
          match Diskface.parse_selection selection (Z.of_nat (length exclusions)) with
          | [] => (exclusions, [])
          | indices => Config.remove_exclusions indices exclusions
          end
      end
  end.

(** The rows of [create_live_results_table]:
    [sorted(results, key=lambda x: x[1], reverse=True)[:max_entries]]. *)
Definition top_entries (results : list (string * Z)) (max_entries : Z)
  : list (string * Z) :=
  Py.slice_to max_entries (Py.sorted snd true results).

(** [interactive_selection], one answer: the items picked from
    [results[:max_display]] by the indices of [parse_selection];
    [None] stands for [IndexError]. *)
Definition selected_items (results : list (string * Z)) (max_display : Z)
  (selection : string) : option (list (string * Z)) :=
  let display_results := Py.slice_to max_display results in
  mapM (fun i => Py.index display_results (i - 1))
       (Diskface.parse_selection selection (Z.of_nat (length display_results))).

(** [cmd_toggle_setting(setting_name)]: the settings it leaves and the
    value it announces, [None] when it prints that the setting is not
    toggleable.  [none] is Python's [None], the default of [get_setting]. *)
Definition cmd_toggle_setting {other : Type} (none : other) (setting_name : string)
  (settings : gmap string (Config.value other))
  : gmap string (Config.value other) * option bool :=
  match Config.get_setting setting_name (Config.VOther none) settings with
  | Config.VBool _ =>
      let '(settings', new_value) := Config.toggle_setting setting_name settings in
      (settings', Some new_value)
  | Config.VOther _ => (settings, None)
  end.

End Cli.

(** ** [src/diskspace.py] *)

Module Diskspace.

(** [path_matches_pattern(path, pattern)]: the pattern is split, and
    matched, as [PurePath] prints it. *)
Definition path_matches_pattern (path pattern : string) : bool :=
  if PurePath.is_absolute pattern then
    Fnmatch.fnmatch (Py.lower (PurePath.str path)) (Py.lower (PurePath.str pattern))
  else
    let pattern_parts := Py.split "/" (PurePath.str pattern) in
    let path_parts := Py.split "/" (PurePath.str path) in
    if existsb (String.eqb "**") pattern_parts then
      Fnmatch.fnmatch (Py.lower (PurePath.str path))
                      (Py.lower ("*" +:+ List.last pattern_parts ""))
    else
      existsb
        (fun i => Fnmatch.fnmatch
                    (Py.lower (Py.join "/" (take (length pattern_parts) (drop i path_parts))))
                    (Py.lower (PurePath.str pattern)))
        (seq 0 (S (length path_parts) - length pattern_parts)).

(** [should_exclude(path, exclusions)] *)
Definition should_exclude (path : string) (exclusions : gset string) : bool :=
  existsb (path_matches_pattern path) (elements exclusions).

Section Walks.
Variable exclusions : gset string.

(** The directory names [get_dir_size] leaves in [dirnames]. *)
Definition keep_unexcluded (dirpath d : string) : bool :=
  negb (should_exclude (OsPath.join dirpath d) exclusions).

(** The files of one directory that [get_dir_size] adds up. *)
Definition files_size (dirpath : string) (filenames : list file_info) (total_size : Z) : Z :=
  fold_left
    (fun total_size (f : file_info) =>
       let '(name, link, size) := f in
       if (negb link && negb (should_exclude (OsPath.join dirpath name) exclusions))%bool
       then match size with
            | Some sz => total_size + sz
            | None => total_size
            end
       else total_size)
    filenames total_size.

(** [get_dir_size(path, exclusions, progress)].  The walk swallows the
    errors of listing, so the outer handler, which returns 0, is not
    reached. *)
Definition get_dir_size (path : string) (fs : node) : Z :=
  fold_left
    (fun total_size (y : yielded) =>
       let '(dirpath, _, filenames) := y in files_size dirpath filenames total_size)
    (os_walk keep_unexcluded path fs) 0.

Variable min_size_bytes : Z.
Variable ignore_dotfolders : bool.

Definition keep_dir (dirpath d : string) : bool :=
  (negb (ignore_dotfolders && Py.startswith "." d)
   && negb (should_exclude (OsPath.join dirpath d) exclusions))%bool.

(** The loop that accumulates [current_size]. *)
Definition current_size (dirpath : string) (filenames : list file_info) : Z :=
  fold_left
    (fun current_size (f : file_info) =>
       let '(name, link, size) := f in
       if (negb (ignore_dotfolders && Py.startswith "." name)
           && negb link
           && negb (should_exclude (OsPath.join dirpath name) exclusions))%bool
       then match size with
            | Some sz => current_size + sz
            | None => current_size
            end
       else current_size)
    filenames 0.

Definition results (root_path : string) (fs : node) : list (string * Z) :=
  flat_map
    (fun y : yielded =>
       let '(dirpath, _, filenames) := y in
       if min_size_bytes <=? current_size dirpath filenames
       then [(dirpath, current_size dirpath filenames)]
       else [])
    (os_walk keep_dir root_path fs).

(** [analyze_disk_usage(root_path, exclusions, min_size_mb, ignore_dotfolders)];
    [min_size_bytes] is the threshold as in [src/diskface.py]. *)
Definition analyze_disk_usage (root_path : string) (fs : node) : list (string * Z) :=
  Py.sorted snd true (results root_path fs).
End Walks.

(** [display_results(results, top_n)]: the rows of the table, each with
    the operands of its percentage [(size / total_size) * 100]; [None]
    stands for [ZeroDivisionError]. *)
Definition display_results (results : list (string * Z)) (top_n : Z)
  : option (list (string * Z * Z)) :=
  let total_size := Py.sum (map snd results) in
  mapM (fun row : string * Z =>
          if total_size =? 0 then None else Some (row.1, row.2, total_size))
       (Py.slice_to top_n results).

End Diskspace.

(** * Vocabulary of the properties *)

Import Diskface.

(** [x] may stand in front of [y] in the output of [sorted]. *)
Definition in_order {A : Type} (key : A -> Z) (reverse : bool) (x y : A) : Prop :=
  Py.comes_before key reverse y x = false.

(** The tokens [parse_selection] loops over. *)
Definition tokens (selection : string) : list string :=
  Py.split_ws (Py.replace_char "," " " selection).

(** A token the grammar of the selection admits for [max_items] entries:
    an integer within bounds, a range [A-B] with [1 <= A <= B <= max_items],
    or the word [all] in any letter case.  An integer is what [int] reads
    as one. *)
Definition acceptable (max_items : Z) (part : string) : Prop :=
  (exists n, Py.int part = Some n /\ 1 <= n <= max_items)
  \/ (exists sa sb a b, part = sa +:+ "-" +:+ sb
        /\ Py.int sa = Some a /\ Py.int sb = Some b
        /\ 1 <= a /\ a <= b /\ b <= max_items)
  \/ Py.lower part = "all".

(** The indices a token names among [max_items] entries: an integer
    within bounds names itself, a range [A-B] with
    [1 <= A <= B <= max_items] names the integers from [A] to [B]. *)
Definition names (max_items : Z) (part : string) (i : Z) : Prop :=
  (Py.int part = Some i /\ 1 <= i <= max_items)
  \/ (exists sa sb a b, part = sa +:+ "-" +:+ sb
        /\ Py.int sa = Some a /\ Py.int sb = Some b
        /\ 1 <= a /\ a <= b /\ b <= max_items /\ a <= i <= b).

(** What C7 states of the word [all]: an input whose one token is the
    word [all], in any letter case, selects every index. *)
Definition all_token_selects_everything (selection : string) (max_items : Z) : Prop :=
  (exists part, tokens selection = [part] /\ Py.lower part = "all") ->
  parse_selection selection max_items = Py.range_incl 1 max_items.

Fixpoint whitespace_only (s : string) : bool :=
  match s with
  | EmptyString => true
  | String c s' => Py.isspace c && whitespace_only s'
  end.

(** A path as the scan builds it: segments that are not empty, not [.]
    and hold no [/], joined by [/], after an optional leading [/]. *)
Definition plain_segment (s : string) : Prop :=
  s <> "" /\ s <> "." /\ Py.contains_char "/" s = false.

Definition normal_path (path : string) : Prop :=
  exists segs, Forall plain_segment segs
               /\ (path = String "/" (Py.join "/" segs)
                   \/ (segs <> [] /\ path = Py.join "/" segs)).

(** Some contiguous window of [segments], as long as the pattern's list
    of segments, matches the pattern once rejoined and lower-cased. *)
Definition some_window_matches (segments : list string) (pattern : string) : Prop :=
  exists before window after,
    segments = before ++ window ++ after
    /\ length window = length (Py.split "/" pattern)
    /\ Fnmatch.fnmatch (Py.lower (Py.join "/" window)) (Py.lower pattern) = true.

(** The walk below the entries of a directory. *)
Definition walk_children (keep : string -> string -> bool) (top : string)
  (es : list (string * node)) : list yielded :=
  flat_map (fun e => if (is_dir e.2 && keep top e.1 && negb (is_link e.2))%bool
                     then os_walk keep (OsPath.join top e.1) e.2
                     else []) es.

(** The path reached from [root] through the directories [names]. *)
Definition descend (root : string) (names : list string) : string :=
  fold_left OsPath.join names root.

(** The directory found at a path below the root of the scan. *)
Inductive found_at : string -> node -> string -> node -> Prop :=
| found_here top n : found_at top n top n
| found_below top link es name child path n :
    (name, child) ∈ es ->
    found_at (OsPath.join top name) child path n ->
    found_at top (Dir link (Some es)) path n.

(** The sum the directory loop computes, as a sum over the files it
    counts: the directory's own files that are no symbolic links and
    match no exclusion; a file whose size cannot be read counts for 0. *)
Definition own_files_size (cfg : settings) (exclusions : gset string)
  (dirpath : string) (filenames : list file_info) : Z :=
  foldr Z.add 0
    (map (fun f : file_info => default 0 f.2)
         (filter (fun f => counted cfg exclusions dirpath f = true) filenames)).

(** What the specification states for directory mode: the size of a
    directory is the sum over all its direct and indirect files that match
    no exclusion and are no symbolic links. *)
Fixpoint spec_descendant_size (exclusions : gset string) (path : string) (n : node)
  {struct n} : Z :=
  match n with
  | File link size =>
      if (link || should_exclude path exclusions)%bool then 0 else default 0 size
  | Dir _ None => 0
  | Dir link (Some es) =>
      if link then 0
      else (fix total (l : list (string * node)) : Z :=
              match l with
              | [] => 0
              | (name, child) :: rest =>
                  spec_descendant_size exclusions (OsPath.join path name) child + total rest
              end) es
  end.

(** The directories of a tree with the sizes the specification gives them. *)
Fixpoint spec_directory_sizes (exclusions : gset string) (path : string) (n : node)
  {struct n} : list (string * Z) :=
  match n with
  | File _ _ => []
  | Dir _ None => []
  | Dir _ (Some es) =>
      (path, spec_descendant_size exclusions path n)
      :: (fix below (l : list (string * node)) : list (string * Z) :=
            match l with
            | [] => []
            | (name, child) :: rest =>
                spec_directory_sizes exclusions (OsPath.join path name) child ++ below rest
            end) es
  end.

(** What C6 states of a scan: no entry of the result is, or lies under, a
    directory of the scanned tree whose path matches an exclusion. *)
Definition excluded_directory (exclusions : gset string) (root : string) (fs : node)
  (dir : string) : Prop :=
  exists link entries,
    found_at root fs dir (Dir link entries) /\ should_exclude dir exclusions = true.

Definition lies_under (path dir : string) : Prop :=
  exists names, path = descend dir names.

Definition no_entry_under_excluded (cfg : settings) (exclusions : gset string)
  (min_bytes : Z) (root : string) (fs : node) : Prop :=
  forall path size dir,
    (path, size) ∈ analyze_disk_usage cfg exclusions min_bytes root fs ->
    excluded_directory exclusions root fs dir ->
    ~ lies_under path dir.

(** The directory [n] at [path] is reached from the directory at [top]
    through directories that are listed, are no symbolic links, match no
    exclusion and, when dot entries are ignored, neither start with a dot
    nor lie under a path component that does. *)
Inductive scanned (cfg : settings) (exclusions : gset string)
  : string -> node -> string -> node -> Prop :=
| scanned_here top n : scanned cfg exclusions top n top n
| scanned_below top link es name child path n :
    (name, child) ∈ es ->
    is_dir child = true -> is_link child = false ->
    (ignore_dotfolders cfg = true ->
     in_dot_dir top = false /\ Py.startswith "." name = false) ->
    should_exclude (OsPath.join top name) exclusions = false ->
    scanned cfg exclusions (OsPath.join top name) child path n ->
    scanned cfg exclusions top (Dir link (Some es)) path n.

(** The sum of a directory's own files, over the listing [es] of the
    directory at [path]: the sizes of the entries that are files, are no
    symbolic links, can be read, match no exclusion and, when dot entries
    are ignored, do not start with a dot.  Subdirectories add nothing. *)
Fixpoint direct_files_total (cfg : settings) (exclusions : gset string) (path : string)
  (es : list (string * node)) : Z :=
  match es with
  | [] => 0
  | (name, child) :: rest =>
      match child with
      | File false (Some size) =>
          if (should_exclude (OsPath.join path name) exclusions
              || (ignore_dotfolders cfg && Py.startswith "." name))%bool
          then 0
          else size
      | _ => 0
      end
      + direct_files_total cfg exclusions path rest
  end.

(** The tree without the directories below [path] that match an
    exclusion, and without all they hold. *)
Fixpoint without_excluded (exclusions : gset string) (path : string) (n : node)
  {struct n} : node :=
  match n with
  | File _ _ => n
  | Dir _ None => n
  | Dir link (Some es) =>
      Dir link
        (Some ((fix entries (l : list (string * node)) : list (string * node) :=
                  match l with
                  | [] => []
                  | (name, child) :: rest =>
                      if (is_dir child
                          && should_exclude (OsPath.join path name) exclusions)%bool
                      then entries rest
                      else (name, without_excluded exclusions (OsPath.join path name) child)
                           :: entries rest
                  end) es))
  end.

(** Its entries, as a map over the listing. *)
Definition entries_without_excluded (exclusions : gset string) (path : string)
  (es : list (string * node)) : list (string * node) :=
  flat_map
    (fun e : string * node =>
       if (is_dir e.2 && should_exclude (OsPath.join path e.1) exclusions)%bool
       then []
       else [(e.1, without_excluded exclusions (OsPath.join path e.1) e.2)])
    es.

(** The size of a tree as a sum over its entries: a file counts with its
    size unless it is a symbolic link, matches an exclusion or cannot be
    read; a subdirectory counts with the size of its tree unless it is a
    symbolic link or matches an exclusion. *)
Fixpoint tree_size (exclusions : gset string) (path : string) (n : node) {struct n} : Z :=
  match n with
  | File _ _ => 0
  | Dir _ None => 0
  | Dir _ (Some es) =>
      (fix total (l : list (string * node)) : Z :=
         match l with
         | [] => 0
         | (name, child) :: rest =>
             (if (is_link child
                  || Diskspace.should_exclude (OsPath.join path name) exclusions)%bool
              then 0
              else match child with
                   | File _ size => default 0 size
                   | Dir _ _ => tree_size exclusions (OsPath.join path name) child
                   end)
             + total rest
         end) es
  end.

(** The line printed by the handler that catches [e]. *)
Definition failure_message (path : string) (e : exn) : message :=
  match e with
  | PermissionError => PermissionDenied path
  | OSError text | MarkupError text => ErrorRemoving path text
  end.

Section Turns.
Context {world : Type} {os : OS world} {rich : Console}.

(** The files below a directory as [os.walk] lists them, and the sum of
    the sizes of those that are no symbolic links; a file whose size
    cannot be read counts for 0. *)
Definition walked_files (w : world) (path : string) : list string :=
  flat_map (fun y : string * list string * list string =>
              map (OsPath.join y.1.1) y.2)
           (walk w path).

Definition regular_files_total (w : world) (path : string) : Z :=
  foldr Z.add 0
    (map (fun filepath => match path_getsize w filepath with
                          | Ok sz => sz
                          | Raise _ => 0
                          end)
         (filter (fun filepath => path_islink w filepath = false) (walked_files w path))).

(** The call that deletes [path] in the filesystem [w] raises [e] and
    leaves [w'] behind: reading the size of a file, removing a file, or
    removing a directory tree. *)
Definition deletion_raises (w : world) (path : string) (e : exn) (w' : world) : Prop :=
  (path_isfile w path = true /\ path_getsize w path = Raise e /\ w' = w)
  \/ (path_isfile w path = true /\ (exists sz, path_getsize w path = Ok sz)
      /\ remove w path = (w', Some e))
  \/ (path_isfile w path = false /\ path_isdir w path = true
      /\ rmtree w path = (w', Some e)).

(** One turn of the loop: from [st], the item at [path] leads to the
    line [m] and leaves the filesystem, the report and the deletions of
    [st']. *)
Inductive turn (st : state) (path : string) : message -> state -> Prop :=
| turn_skipped st' :
    path_exists (fs st) path = false ->
    fs st' = fs st -> removed st' = removed st -> deleted st' = deleted st ->
    turn st path (Skipping path) st'
| turn_removed_file size st' :
    path_exists (fs st) path = true ->
    path_isfile (fs st) path = true ->
    path_getsize (fs st) path = Ok size ->
    remove (fs st) path = (fs st', None) ->
    removed st' = <[path := size]> (removed st) ->
    deleted st' = deleted st ++ [path] ->
    turn st path (Removed path size) st'
| turn_removed_directory st' :
    path_exists (fs st) path = true ->
    path_isfile (fs st) path = false ->
    path_isdir (fs st) path = true ->
    rmtree (fs st) path = (fs st', None) ->
    removed st' = <[path := regular_files_total (fs st) path]> (removed st) ->
    deleted st' = deleted st ++ [path] ->
    turn st path (Removed path (regular_files_total (fs st) path)) st'
| turn_reported_other st' :
    path_exists (fs st) path = true ->
    path_isfile (fs st) path = false ->
    path_isdir (fs st) path = false ->
    fs st' = fs st ->
    removed st' = <[path := 0]> (removed st) ->
    deleted st' = deleted st ->
    turn st path (Removed path 0) st'
| turn_failed e st' :
    path_exists (fs st) path = true ->
    deletion_raises (fs st) path e (fs st') ->
    removed st' = removed st ->
    deleted st' = deleted st ->
    turn st path (failure_message path e) st'.

(** What becomes of the line [m] of a turn: it is printed; or rich cannot
    read it, and then, when it is a line of the [try] body, the handler
    prints the line of the [MarkupError] instead; or rich cannot read the
    line of the handler either, and the [MarkupError] leaves the loop. *)
Definition printed (path : string) (m : message) : list message * result unit :=
  match markup_error m with
  | None => ([m], Ok tt)
  | Some text =>
      if is_failure m then ([], Raise (MarkupError text))
      else match markup_error (ErrorRemoving path text) with
           | None => ([ErrorRemoving path text], Ok tt)
           | Some text' => ([], Raise (MarkupError text'))
           end
  end.

(** Rich renders the lines of the [try] body, those that tell of a
    skipped or a removed path, for the paths [paths]. *)
Definition renders (paths : list string) : Prop :=
  forall m, message_path m ∈ paths -> is_failure m = false -> markup_error m = None.
End Turns.

(** *** Positions in a list *)

(** The elements of [l], whose first element has position [pos], at the
    positions outside, and at the positions inside, [indices]. *)
Fixpoint survivors {A : Type} (indices : list Z) (pos : Z) (l : list A) : list A :=
  match l with
  | [] => []
  | x :: l' =>
      if bool_decide (pos ∈ indices) then survivors indices (pos + 1) l'
      else x :: survivors indices (pos + 1) l'
  end.

Fixpoint picked {A : Type} (indices : list Z) (pos : Z) (l : list A) : list A :=
  match l with
  | [] => []
  | x :: l' =>
      if bool_decide (pos ∈ indices) then x :: picked indices (pos + 1) l'
      else picked indices (pos + 1) l'
  end.

(** The patterns of [patterns] that are not in [exclusions], each once, in
    the order of their first occurrence. *)
Fixpoint first_new (exclusions patterns : list string) : list string :=
  match patterns with
  | [] => []
  | p :: rest =>
      if bool_decide (p ∈ exclusions) then first_new exclusions rest
      else p :: first_new (exclusions ++ [p]) rest
  end.

(** Every size the tree reports is that of a file: not negative. *)
#[local] Unset Elimination Schemes.
Inductive sizes_nonneg : node -> Prop :=
| nonneg_file link size : (forall sz, size = Some sz -> 0 <= sz) -> sizes_nonneg (File link size)
| nonneg_unlisted link : sizes_nonneg (Dir link None)
| nonneg_dir link es :
    Forall (fun e => sizes_nonneg e.2) es -> sizes_nonneg (Dir link (Some es)).
#[local] Set Elimination Schemes.

(** *** Examples *)

Definition MiB (n : Z) : Z := n * 1048576.

Definition directories_only : settings :=
  {| scan_files := false; scan_directories := true; ignore_dotfolders := false |}.

Definition both_modes : settings :=
  {| scan_files := true; scan_directories := true; ignore_dotfolders := false |}.

Definition files_only : settings :=
  {| scan_files := true; scan_directories := false; ignore_dotfolders := false |}.

Definition skipping_dot_entries : settings :=
  {| scan_files := true; scan_directories := true; ignore_dotfolders := true |}.

(** A directory with a file of 10 MiB, a symbolic link, a subdirectory
    with a file of 200 MiB, and a subdirectory [cache]. *)
Definition small_tree : node :=
  Dir false (Some [("a", File false (Some (MiB 10)));
                   ("l", File true (Some (MiB 7)));
                   ("sub", Dir false (Some [("big", File false (Some (MiB 200)))]));
                   ("cache", Dir false (Some [("c", File false (Some (MiB 50)))]))]).

(** A literal of [n] zeros. *)
Fixpoint zeros (n : nat) : string :=
  match n with
  | O => EmptyString
  | S n' => String "0" (zeros n')
  end.

(** A scan started at [/proc], which the default exclusions name. *)
Definition proc_tree : node :=
  Dir false (Some [("kcore", File false (Some (MiB 128)))]).

(** *** Tactics *)

Ltac in_list :=
  vm_compute; repeat first [apply list_elem_of_here | apply list_elem_of_further].

Ltac not_in_list :=
  vm_compute; let H := fresh in
  intros H; repeat (apply elem_of_cons in H as [H|H]; [discriminate|]);
  by apply elem_of_nil in H.

Ltac by_ascii_cases c :=
  destruct c as [[] [] [] [] [] [] [] []]; vm_compute; intros; try discriminate; auto.


(** * Properties *)

(** ** [sorted] *)

Section SortedFacts.
Context {A : Type} (key : A -> Z) (reverse : bool).

Lemma in_order_trans x y z :
  in_order key reverse x y -> in_order key reverse y z -> in_order key reverse x z.
Proof. unfold in_order, Py.comes_before. destruct reverse; lia. Qed.

Lemma comes_before_in_order x y :
  Py.comes_before key reverse x y = true -> in_order key reverse x y.
Proof. unfold in_order, Py.comes_before. destruct reverse; lia. Qed.

Lemma comes_before_key x y :
  Py.comes_before key reverse x y = true -> key x <> key y.
Proof. unfold Py.comes_before. destruct reverse; lia. Qed.

Lemma insert_Permutation x l : Py.insert key reverse x l ≡ₚ x :: l.
Proof.
  induction l as [|y l IH]; simpl; [done|].
  destruct (Py.comes_before key reverse y x); [|done].
  rewrite IH. apply Permutation_swap.
Qed.

Lemma sorted_Permutation l : Py.sorted key reverse l ≡ₚ l.
Proof.
  induction l as [|x l IH]; simpl; [done|].
  rewrite insert_Permutation. by rewrite IH.
Qed.

Lemma insert_StronglySorted x l :
  StronglySorted (in_order key reverse) l ->
  StronglySorted (in_order key reverse) (Py.insert key reverse x l).
Proof.
  induction 1 as [|y l Hl IH Hy]; simpl.
  - repeat constructor.
  - destruct (Py.comes_before key reverse y x) eqn:E.
    + constructor; [done|].
      rewrite insert_Permutation. constructor; [|done].
      by apply comes_before_in_order.
    + constructor; [by constructor|].
      constructor; [done|].
      eapply Forall_impl; [exact Hy|]. intros z Hz.
      by apply in_order_trans with y.
Qed.

Lemma sorted_StronglySorted l : StronglySorted (in_order key reverse) (Py.sorted key reverse l).
Proof.
  induction l as [|x l IH]; simpl; [constructor|].
  by apply insert_StronglySorted.
Qed.

(** Stability: the elements of any one key stay in their input order. *)
Lemma insert_filter_key k x l :
  filter (fun a => key a = k) (Py.insert key reverse x l)
  = filter (fun a => key a = k) (x :: l).
Proof.
  induction l as [|y l IH]; simpl; [done|].
  destruct (Py.comes_before key reverse y x) eqn:E; [|done].
  apply comes_before_key in E.
  rewrite (filter_cons _ y), IH, !(filter_cons _ x), (filter_cons _ y).
  repeat case_decide; congruence.
Qed.

Lemma sorted_filter_key k l :
  filter (fun a => key a = k) (Py.sorted key reverse l)
  = filter (fun a => key a = k) l.
Proof.
  induction l as [|x l IH]; simpl; [done|].
  rewrite insert_filter_key, !filter_cons, IH. done.
Qed.
End SortedFacts.

(** ** Selection *)

Lemma lower_char_a c : Py.lower_char c = "a"%char -> c = "a"%char \/ c = "A"%char.
Proof. by_ascii_cases c. Qed.

Lemma lower_char_l c : Py.lower_char c = "l"%char -> c = "l"%char \/ c = "L"%char.
Proof. by_ascii_cases c. Qed.

Lemma lower_all s :
  Py.lower s = "all" ->
  s ∈ ["all"; "alL"; "aLl"; "aLL"; "All"; "AlL"; "ALl"; "ALL"].
Proof.
  destruct s as [|c1 [|c2 [|c3 [|]]]]; simpl; try discriminate.
  intros [= H1 H2 H3].
  apply lower_char_a in H1. apply lower_char_l in H2. apply lower_char_l in H3.
  destruct H1, H2, H3; subst; set_solver.
Qed.

Lemma all_single_token s : Py.lower s = "all" -> tokens s = [s].
Proof.
  intros H%lower_all. repeat (apply elem_of_cons in H as [->|H]; [reflexivity|]).
  by apply elem_of_nil in H.
Qed.

Lemma all_not_parsed max_items part :
  Py.lower part = "all" -> parse_part max_items part = None.
Proof.
  intros H%lower_all. repeat (apply elem_of_cons in H as [->|H]; [reflexivity|]).
  by apply elem_of_nil in H.
Qed.

Lemma append_String c s t : String c s +:+ t = String c (s +:+ t).
Proof. reflexivity. Qed.

Lemma split_first_join c s a b :
  Py.contains_char c s = true -> Py.split_first c s = (a, b) ->
  s = a +:+ String c b.
Proof.
  revert a. induction s as [|x s IH]; simpl; intros a; [discriminate|].
  destruct (Ascii.eqb_spec x c) as [->|Hne]; simpl.
  - intros _ [= <- <-]. done.
  - destruct (Py.split_first c s) as [a' b'] eqn:E.
    intros Hc [= <- <-]. rewrite append_String. f_equal. by apply IH.
Qed.

Lemma parse_part_acceptable max_items part more :
  parse_part max_items part = Some more -> acceptable max_items part.
Proof.
  unfold parse_part. destruct (Py.contains_char "-" part) eqn:Hc.
  - destruct (Py.split_first "-" part) as [sa sb] eqn:Hs.
    destruct (Py.int sa) as [a|] eqn:Ha; [|discriminate].
    destruct (Py.int sb) as [b|] eqn:Hb; [|discriminate].
    destruct (_ && _)%bool eqn:Hr; [|discriminate]. intros _.
    right; left. exists sa, sb, a, b.
    split; [by apply (split_first_join "-")|]. repeat split; auto; lia.
  - destruct (Py.int part) as [n|] eqn:Hn; [|discriminate].
    destruct (_ && _)%bool eqn:Hr; [|discriminate]. intros _.
    left. exists n. split; [done|lia].
Qed.

Lemma parse_parts_rejects max_items parts :
  forall indices part,
    part ∈ parts -> parse_part max_items part = None ->
    parse_parts max_items indices parts = None.
Proof.
  induction parts as [|p parts IH]; intros indices part Hin Hnone.
  - by apply elem_of_nil in Hin.
  - simpl. apply elem_of_cons in Hin as [<-|Hin].
    + by rewrite Hnone.
    + destruct (parse_part max_items p); [|done]. by eapply IH.
Qed.

Lemma whitespace_only_tokens s : whitespace_only s = true -> tokens s = [].
Proof.
  unfold tokens, Py.split_ws. induction s as [|c s IH]; simpl; [done|].
  intros [Hc Hs]%andb_prop.
  destruct (Ascii.eqb_spec c ","); [subst; discriminate|].
  rewrite Hc. auto.
Qed.

Lemma range_incl_elem a b i : i ∈ Py.range_incl a b <-> a <= i <= b.
Proof.
  unfold Py.range_incl. rewrite list_elem_of_fmap. split.
  - intros (k & -> & Hk). apply elem_of_seq in Hk. lia.
  - intros H. exists (Z.to_nat (i - a)). split; [lia|]. apply elem_of_seq. lia.
Qed.

Lemma range_incl_sorted a b : StronglySorted Z.lt (Py.range_incl a b).
Proof.
  unfold Py.range_incl. generalize (Z.to_nat (b + 1 - a)) as n.
  generalize 0%nat as k. intros k n. revert k.
  induction n as [|n IH]; intros k; simpl; constructor; [apply IH|].
  apply Forall_forall. intros x (j & -> & Hj)%list_elem_of_fmap.
  apply elem_of_seq in Hj. lia.
Qed.

Lemma StronglySorted_lt_NoDup (l : list Z) : StronglySorted Z.lt l -> NoDup l.
Proof.
  induction 1 as [|x l Hl IH Hx]; constructor; [|done].
  intros Hin. rewrite Forall_forall in Hx. specialize (Hx _ Hin). lia.
Qed.

Lemma StronglySorted_le_NoDup_lt (l : list Z) :
  StronglySorted Z.le l -> NoDup l -> StronglySorted Z.lt l.
Proof.
  induction 1 as [|x l Hl IH Hx]; intros Hnd; [constructor|].
  apply NoDup_cons in Hnd as [Hx' Hnd]. constructor; [auto|].
  rewrite Forall_forall in Hx |- *. intros y Hy.
  specialize (Hx _ Hy). assert (x <> y) by (intros ->; done). lia.
Qed.

Lemma StronglySorted_mono {A} (R S : A -> A -> Prop) (l : list A) :
  (forall x y, R x y -> S x y) -> StronglySorted R l -> StronglySorted S l.
Proof.
  intros HRS. induction 1 as [|x l Hl IH Hx]; constructor; [done|].
  eapply Forall_impl; [exact Hx|]. auto.
Qed.

Lemma sorted_set_strict (indices : list Z) :
  StronglySorted Z.lt (Py.sorted id false (elements (list_to_set indices : gset Z))).
Proof.
  apply StronglySorted_le_NoDup_lt.
  - eapply StronglySorted_mono; [|apply sorted_StronglySorted].
    intros x y. unfold in_order, Py.comes_before, id. lia.
  - rewrite sorted_Permutation. apply NoDup_elements.
Qed.

Lemma parse_selection_strict selection max_items :
  StronglySorted Z.lt (parse_selection selection max_items).
Proof.
  unfold parse_selection. destruct (String.eqb _ _).
  - apply range_incl_sorted.
  - destruct (parse_parts _ _ _); [apply sorted_set_strict|constructor].
Qed.

(** C3.  A token that the grammar does not admit (not an integer, a range
    or the word [all]; a value outside [1, max_items]; a range [A-B] with
    [A > B]) makes [parse_selection] return the empty list for the whole
    input, whatever the other tokens are.  In particular ["0-2"] and
    ["3-2"] are rejected for five entries. *)
Theorem parse_selection_rejects_whole_input :
  (forall selection max_items part,
      part ∈ tokens selection -> ~ acceptable max_items part ->
      parse_selection selection max_items = [])
  /\ parse_selection "0-2" 5 = []
  /\ parse_selection "3-2" 5 = [].
Proof.
  split; [|split; reflexivity].
  intros selection max_items part Hin Hbad.
  unfold parse_selection. destruct (String.eqb_spec (Py.lower selection) "all") as [Hall|_].
  - rewrite (all_single_token _ Hall) in Hin.
    apply list_elem_of_singleton in Hin as ->.
    exfalso. apply Hbad. right; right. exact Hall.
  - fold (tokens selection). erewrite parse_parts_rejects; [done|exact Hin|].
    destruct (parse_part max_items part) as [more|] eqn:E; [|done].
    exfalso. eauto using parse_part_acceptable.
Qed.

Lemma not_acceptable_0_2 : ~ acceptable 5 "0-2".
Proof.
  intros [(n & Hn & _)|[(sa & sb & a & b & Hs & Ha & Hb & Hr)|Hall]];
    [discriminate| |discriminate].
  destruct sa as [|c1 [|c2 sa]]; cbv [String.append] in Hs; try discriminate.
  - injection Hs as <- <-. vm_compute in Ha. injection Ha as <-. lia.
  - injection Hs as <- <- Hs. destruct sa as [|c3 sa]; [discriminate|].
    injection Hs as _ Hs. destruct sa; discriminate.
Qed.

Lemma parse_selection_rejects_whole_input_witness :
  parse_selection "1 0-2 3" 5 = [].
Proof.
  apply (proj1 parse_selection_rejects_whole_input "1 0-2 3" 5 "0-2").
  - in_list.
  - exact not_acceptable_0_2.
Defined.

(** C7 as stated fails: the one token of the input [" all"] is the word
    [all], and the input is rejected with the empty list instead of
    selecting the five indices. *)
Lemma lone_all_token_is_rejected : ~ all_token_selects_everything " all" 5.
Proof.
  intros H. assert (parse_selection " all" 5 = Py.range_incl 1 5) as Hsel.
  { apply H. by exists "all". }
  discriminate Hsel.
Qed.

(** C7, amended.  The list returned by [parse_selection] is strictly
    ascending, hence sorted and free of duplicates, whatever the order,
    repetition or overlap of the tokens; an input that is, as a whole, the
    word [all] in any letter case yields every index from 1 to
    [max_items]; the word [all] as a token of any other input makes the
    input rejected with the empty list. *)
Theorem parse_selection_sorted_unique selection max_items :
  StronglySorted Z.lt (parse_selection selection max_items)
  /\ NoDup (parse_selection selection max_items)
  /\ (Py.lower selection = "all" ->
      parse_selection selection max_items = Py.range_incl 1 max_items
      /\ forall i, i ∈ parse_selection selection max_items <-> 1 <= i <= max_items)
  /\ parse_selection "all" 5 = [1; 2; 3; 4; 5]
  /\ parse_selection "2-4 1" 5 = [1; 2; 3; 4]
  /\ (forall part,
        part ∈ tokens selection -> Py.lower part = "all" ->
        Py.lower selection <> "all" ->
        parse_selection selection max_items = []).
Proof.
  split; [apply parse_selection_strict|].
  split; [apply StronglySorted_lt_NoDup, parse_selection_strict|].
  split; [|split; [reflexivity|split; [reflexivity|]]].
  - intros Hall. unfold parse_selection. rewrite Hall. simpl.
    split; [done|]. intros i. apply range_incl_elem.
  - intros part Hin Hpart Hsel. unfold parse_selection.
    destruct (String.eqb_spec (Py.lower selection) "all") as [|_]; [done|].
    fold (tokens selection).
    by rewrite (parse_parts_rejects _ _ _ _ Hin (all_not_parsed _ _ Hpart)).
Qed.

Lemma parse_selection_sorted_unique_witness :
  parse_selection "aLL" 3 = [1; 2; 3]
  /\ StronglySorted Z.lt (parse_selection "4,2 2-3" 5)
  /\ parse_selection "all," 5 = [].
Proof.
  split; [|split].
  - destruct (parse_selection_sorted_unique "aLL" 3) as (_ & _ & H & _).
    destruct (H eq_refl) as [-> _]. reflexivity.
  - apply (parse_selection_sorted_unique "4,2 2-3" 5).
  - destruct (parse_selection_sorted_unique "all," 5) as (_ & _ & _ & _ & _ & H).
    apply (H "all"); [in_list|reflexivity|discriminate].
Defined.

(** C10.  The word [all] selects everything only when it is the whole
    input: an input that holds a token [all] next to another token, or
    that differs from [all] in any other way, is rejected with the empty
    list; an empty or blank input gives the empty list as well. *)
Theorem all_only_as_whole_input selection max_items :
  (Py.lower selection = "all" ->
   parse_selection selection max_items = Py.range_incl 1 max_items)
  /\ (forall part, part ∈ tokens selection -> Py.lower part = "all" ->
      (2 <= length (tokens selection))%nat ->
      parse_selection selection max_items = [])
  /\ (forall part, part ∈ tokens selection -> Py.lower part = "all" ->
      Py.lower selection <> "all" ->
      parse_selection selection max_items = [])
  /\ (whitespace_only selection = true -> parse_selection selection max_items = []).
Proof.
  assert (Hrej : forall part, part ∈ tokens selection -> Py.lower part = "all" ->
                 Py.lower selection <> "all" ->
                 parse_selection selection max_items = []).
  { intros part Hin Hpart Hsel. unfold parse_selection.
    destruct (String.eqb_spec (Py.lower selection) "all") as [|_]; [done|].
    fold (tokens selection).
    by rewrite (parse_parts_rejects _ _ _ _ Hin (all_not_parsed _ _ Hpart)). }
  repeat split.
  - intros Hall. unfold parse_selection. by rewrite Hall.
  - intros part Hin Hpart Hlen. apply (Hrej part Hin Hpart).
    intros Hall. rewrite (all_single_token _ Hall) in Hlen. simpl in Hlen. lia.
  - exact Hrej.
  - intros Hws. unfold parse_selection.
    destruct (String.eqb_spec (Py.lower selection) "all") as [Hall|_].
    + apply all_single_token in Hall.
      by rewrite (whitespace_only_tokens _ Hws) in Hall.
    + fold (tokens selection). by rewrite (whitespace_only_tokens _ Hws).
Qed.

Lemma all_only_as_whole_input_witness :
  parse_selection "ALL" 4 = [1; 2; 3; 4]
  /\ parse_selection "all 1" 4 = []
  /\ parse_selection " all" 4 = []
  /\ parse_selection "   " 4 = [].
Proof.
  split; [|split; [|split]].
  - rewrite (proj1 (all_only_as_whole_input "ALL" 4) eq_refl). reflexivity.
  - apply (proj1 (proj2 (all_only_as_whole_input "all 1" 4)) "all");
      [in_list|reflexivity|vm_compute; lia].
  - apply (proj1 (proj2 (proj2 (all_only_as_whole_input " all" 4))) "all");
      [in_list|reflexivity|discriminate].
  - apply (proj2 (proj2 (proj2 (all_only_as_whole_input "   " 4)))). reflexivity.
Defined.

(** ** Exclusion patterns *)

Lemma existsb_elem {A} (f : A -> bool) (l : list A) :
  existsb f l = true <-> exists x, x ∈ l /\ f x = true.
Proof.
  rewrite existsb_exists. split; intros (y & Hy & Hf); exists y;
    (split; [by apply list_elem_of_In|done]).
Qed.

Lemma existsb_none {A} (f : A -> bool) (l : list A) :
  existsb f l = false <-> forall x, x ∈ l -> f x = false.
Proof.
  split.
  - intros H x Hx. apply not_true_is_false. intros Hf.
    assert (existsb f l = true) by (apply existsb_elem; eauto). congruence.
  - intros H. apply not_true_is_false.
    intros (x & Hx & Hf)%existsb_elem. rewrite (H x Hx) in Hf. done.
Qed.

Lemma should_exclude_true path (exclusions : gset string) :
  should_exclude path exclusions = true
  <-> exists pattern, pattern ∈ exclusions /\ path_matches_pattern path pattern = true.
Proof.
  unfold should_exclude. rewrite existsb_elem.
  split; intros (y & Hy & Hf); exists y; (split; [by apply elem_of_elements|done]).
Qed.

(** The windows of [k] consecutive segments are the slices the pattern
    is tried on. *)
Lemma window_slice {A} (l : list A) (k : nat) (P : list A -> Prop) :
  (exists i, (i + k <= length l)%nat /\ P (take k (drop i l)))
  <-> (exists before window after,
          l = before ++ window ++ after /\ length window = k /\ P window).
Proof.
  split.
  - intros (i & Hi & HP).
    exists (take i l), (take k (drop i l)), (drop k (drop i l)).
    split; [by rewrite !take_drop|]. split; [|done].
    rewrite length_take, length_drop. lia.
  - intros (before & window & after & -> & <- & HP).
    exists (length before). split.
    + rewrite !length_app. lia.
    + by rewrite drop_app_length, take_app_length.
Qed.

Lemma relative_pattern_windows path pattern :
  PurePath.is_absolute pattern = false ->
  "**" ∉ Py.split "/" pattern ->
  path_matches_pattern path pattern = true
  <-> some_window_matches (Py.split "/" (PurePath.str path)) pattern.
Proof.
  intros Habs Hstars. unfold path_matches_pattern, some_window_matches. rewrite Habs.
  assert (existsb (String.eqb "**") (Py.split "/" pattern) = false) as ->.
  { apply existsb_none. intros x Hx. apply String.eqb_neq. by intros <-. }
  rewrite <- (window_slice _ _
    (fun w => Fnmatch.fnmatch (Py.lower (Py.join "/" w)) (Py.lower pattern) = true)).
  rewrite existsb_elem. split.
  - intros (i & Hi & Hm). exists i. split; [|done]. apply elem_of_seq in Hi. lia.
  - intros (i & Hi & Hm). exists i. split; [|done]. apply elem_of_seq. lia.
Qed.

(** Splitting undoes joining when no segment holds the separator. *)
Lemma split_no_sep sep s : Py.contains_char sep s = false -> Py.split sep s = [s].
Proof.
  induction s as [|c s IH]; [done|].
  change (Py.contains_char sep (String c s))
    with (Ascii.eqb c sep || Py.contains_char sep s)%bool.
  intros [Hc Hs]%orb_false_elim. simpl.
  change (Ascii.eqb c sep) with (c =? sep)%char in *.
  rewrite Hc, (IH Hs). done.
Qed.

Lemma split_app_sep sep a b :
  Py.contains_char sep a = false ->
  Py.split sep (a +:+ String sep b) = a :: Py.split sep b.
Proof.
  induction a as [|c a IH].
  - intros _. change ("" +:+ String sep b) with (String sep b).
    simpl. by rewrite Ascii.eqb_refl.
  - change (Py.contains_char sep (String c a))
      with (Ascii.eqb c sep || Py.contains_char sep a)%bool.
    intros [Hc Hs]%orb_false_elim. rewrite append_String. simpl.
    rewrite Hc, (IH Hs). done.
Qed.

Lemma join_cons sep s s2 rest :
  Py.join (String sep "") (s :: s2 :: rest)
  = s +:+ String sep (Py.join (String sep "") (s2 :: rest)).
Proof. reflexivity. Qed.

Lemma split_join sep segs :
  segs <> [] -> Forall (fun s => Py.contains_char sep s = false) segs ->
  Py.split sep (Py.join (String sep "") segs) = segs.
Proof.
  induction segs as [|s segs IH]; [done|]. intros _ Hall.
  apply Forall_cons in Hall as [Hs Hall]. destruct segs as [|s2 rest].
  - by apply split_no_sep.
  - rewrite join_cons, split_app_sep by done. f_equal. by apply IH.
Qed.

Lemma filter_all {A} (P : A -> Prop) `{!forall x, Decision (P x)} (l : list A) :
  Forall P l -> filter P l = l.
Proof.
  induction 1 as [|x l Hx Hl IH]; [done|]. by rewrite filter_cons_True, IH.
Qed.

Lemma root_relative c s : c <> "/"%char -> PurePath.root (String c s) = "".
Proof. intros Hc. destruct c as [[] [] [] [] [] [] [] []]; try done. Qed.

Lemma root_single_slash c s :
  c <> "/"%char -> PurePath.root (String "/" (String c s)) = "/".
Proof. intros Hc. destruct c as [[] [] [] [] [] [] [] []]; try done. Qed.

Lemma join_head segs :
  segs <> [] -> Forall plain_segment segs ->
  exists c s, c <> "/"%char /\ Py.join "/" segs = String c s.
Proof.
  destruct segs as [|seg rest]; [done|]. intros _ [(Hne & _ & Hsep) _]%Forall_cons.
  destruct seg as [|c seg]; [done|]. exists c.
  change (Py.contains_char "/" (String c seg))
    with (Ascii.eqb c "/" || Py.contains_char "/" seg)%bool in Hsep.
  apply orb_false_elim in Hsep as [Hc%Ascii.eqb_neq _].
  destruct rest; [by eexists|]. rewrite join_cons, append_String. by eexists.
Qed.

(** [PurePath] prints a normal path as it is. *)
Lemma purepath_str_normal path : normal_path path -> PurePath.str path = path.
Proof.
  intros (segs & Hall & Hpath).
  assert (Forall (fun s => Py.contains_char "/" s = false) segs) as Hsep
    by (eapply Forall_impl; [exact Hall|]; by intros s (_ & _ & ?)).
  assert (Forall (fun s => s <> "" /\ s <> ".") segs) as Hkeep
    by (eapply Forall_impl; [exact Hall|]; by intros s (? & ? & _)).
  destruct segs as [|seg rest]; [by destruct Hpath as [->|[? _]]|].
  destruct (join_head (seg :: rest)) as (c & s & Hc & Hjoin); [done|done|].
  unfold PurePath.str, PurePath.tail. destruct Hpath as [-> | [_ ->]].
  - change (Py.split "/" (String "/" (Py.join "/" (seg :: rest))))
      with ("" :: Py.split "/" (Py.join "/" (seg :: rest))).
    rewrite (split_join "/") by done.
    rewrite filter_cons_False by (intros [? _]; done).
    rewrite filter_all by done.
    rewrite Hjoin at 1. rewrite (root_single_slash c s Hc).
    done.
  - rewrite (split_join "/") by done. rewrite filter_all by done.
    rewrite Hjoin at 1. rewrite (root_relative c s Hc).
    change ("" +:+ Py.join "/" (seg :: rest)) with (Py.join "/" (seg :: rest)).
    by rewrite Hjoin.
Qed.

(** C2.  For a pattern that is not absolute and has no [**] segment,
    [path_matches_pattern] holds exactly when some contiguous window of the
    path's segments, as long as the pattern's list of segments, matches the
    lower-cased pattern once rejoined with [/] and lower-cased.  The
    segments are those of the path as [PurePath] prints it, split on [/];
    for a normal path, such as the scan builds, they are those of the path
    itself. *)
Theorem relative_pattern_matches_some_window path pattern :
  PurePath.is_absolute pattern = false ->
  "**" ∉ Py.split "/" pattern ->
  (path_matches_pattern path pattern = true
   <-> some_window_matches (Py.split "/" (PurePath.str path)) pattern)
  /\ (normal_path path ->
      (path_matches_pattern path pattern = true
       <-> some_window_matches (Py.split "/" path) pattern)).
Proof.
  intros Habs Hstars. split; [by apply relative_pattern_windows|].
  intros Hnormal. rewrite <- (purepath_str_normal path Hnormal) at 2.
  by apply relative_pattern_windows.
Qed.

Lemma relative_pattern_matches_some_window_witness :
  path_matches_pattern "/home/Ann/.Cache/pip" ".cache" = true.
Proof.
  apply (proj2 (relative_pattern_matches_some_window
                  "/home/Ann/.Cache/pip" ".cache" eq_refl ltac:(not_in_list))).
  - exists ["home"; "Ann"; ".Cache"; "pip"]. split; [|by left].
    repeat constructor; done.
  - exists [""; "home"; "Ann"], [".Cache"], ["pip"]. repeat split; reflexivity.
Defined.

(** The empty pattern has one segment, the empty one, and so does the
    front of every absolute path. *)
Lemma root_absolute s : exists r, PurePath.root (String "/" s) = String "/" r.
Proof.
  destruct s as [|c1 s]; [by eexists|].
  destruct c1 as [[] [] [] [] [] [] [] []]; try (by eexists).
  destruct s as [|c2 s]; [by eexists|].
  destruct c2 as [[] [] [] [] [] [] [] []]; by eexists.
Qed.

Lemma absolute_str path :
  PurePath.is_absolute path = true ->
  exists rest, PurePath.str path = String "/" rest.
Proof.
  unfold PurePath.is_absolute. destruct path as [|c path]; [discriminate|].
  change (Py.startswith "/" (String c path)) with (Ascii.eqb "/" c && true)%bool.
  destruct (Ascii.eqb_spec "/" c) as [<-|]; [intros _|discriminate].
  unfold PurePath.str. destruct (root_absolute path) as [r ->].
  rewrite append_String. by eexists.
Qed.

Lemma empty_pattern_matches_absolute path :
  PurePath.is_absolute path = true -> path_matches_pattern path "" = true.
Proof.
  intros [rest Hstr]%absolute_str.
  apply relative_pattern_windows; [done|not_in_list|].
  rewrite Hstr. simpl.
  exists [], [""], (Py.split "/" rest). repeat split; reflexivity.
Qed.

(** In [_diskface.py] the empty pattern matches the empty path only. *)
Lemma lower_empty s : Py.lower s = "" <-> s = "".
Proof. destruct s; simpl; split; congruence. Qed.

Lemma empty_pattern_variant path :
  DiskFace3.path_matches_pattern path "" = true <-> path = "".
Proof.
  unfold DiskFace3.path_matches_pattern, Fnmatch.fnmatch. simpl.
  rewrite <- lower_empty. destruct (Py.lower path); simpl; split; congruence.
Qed.

(** The variants drift on relative patterns as well: [_diskface.py] tries
    the pattern on the whole path, not on its windows. *)
Lemma relative_pattern_variants_differ :
  path_matches_pattern "/usr/lib" "lib" = true
  /\ DiskFace3.path_matches_pattern "/usr/lib" "lib" = false.
Proof. split; reflexivity. Qed.

(** C9 (the program departs from it).  The empty pattern matches the
    absolute path [/usr/lib], and a set of exclusions that holds it
    excludes that path; the variant of [_diskface.py] answers [false]. *)
Theorem empty_pattern_excludes_absolute_path :
  path_matches_pattern "/usr/lib" "" = true
  /\ should_exclude "/usr/lib" {[ "" ]} = true
  /\ DiskFace3.path_matches_pattern "/usr/lib" "" = false.
Proof. repeat split; reflexivity. Qed.

(** ** Scan *)

Lemma node_induction (P : node -> Prop) :
  (forall link size, P (File link size)) ->
  (forall link, P (Dir link None)) ->
  (forall link es, Forall (fun e => P e.2) es -> P (Dir link (Some es))) ->
  forall n, P n.
Proof.
  intros HF HN HD. fix IH 1. intros [link size|link [es|]]; [apply HF| |apply HN].
  apply HD. induction es as [|[name child] es IHes]; constructor; [apply IH|exact IHes].
Qed.

Lemma os_walk_dir keep top link es :
  os_walk keep top (Dir link (Some es))
  = (top, filter (fun d => keep top d) (dirnames_of es), filenames_of es)
    :: walk_children keep top es.
Proof.
  simpl. f_equal. unfold walk_children.
  induction es as [|[name child] es IH]; simpl; [done|]. by rewrite IH.
Qed.

Lemma elem_of_walk_children keep top es y :
  y ∈ walk_children keep top es
  <-> exists name child, (name, child) ∈ es
        /\ is_dir child = true /\ keep top name = true /\ is_link child = false
        /\ y ∈ os_walk keep (OsPath.join top name) child.
Proof.
  unfold walk_children. rewrite list_elem_of_In, in_flat_map. split.
  - intros ([name child] & Hin%list_elem_of_In & Hy%list_elem_of_In). simpl in Hy.
    destruct (_ && _)%bool eqn:E; [|by apply elem_of_nil in Hy].
    apply andb_prop in E as [[E1 E2]%andb_prop E3%negb_true_iff].
    by exists name, child.
  - intros (name & child & Hin & E1 & E2 & E3 & Hy).
    exists (name, child). split; [by apply list_elem_of_In|].
    apply list_elem_of_In. simpl. by rewrite E1, E2, E3.
Qed.

(** Every directory the walk yields is reached from the root through
    directories that were kept, and its file names are those of its own
    listing. *)
Lemma os_walk_reached keep root fs dirpath dirnames filenames :
  (dirpath, dirnames, filenames) ∈ os_walk keep root fs ->
  exists names link es,
    dirpath = descend root names
    /\ (forall k name, names !! k = Some name ->
                       keep (descend root (take k names)) name = true)
    /\ found_at root fs dirpath (Dir link (Some es))
    /\ dirnames = filter (fun d => keep dirpath d) (dirnames_of es)
    /\ filenames = filenames_of es.
Proof.
  revert root. induction fs as [link size|link|link es IH] using node_induction;
    intros root Hy; [by apply elem_of_nil in Hy|by apply elem_of_nil in Hy|].
  rewrite os_walk_dir in Hy. apply elem_of_cons in Hy as [[= -> -> ->]|Hy].
  - exists [], link, es. repeat split; [|constructor].
    intros k name Hk. by rewrite lookup_nil in Hk.
  - apply elem_of_walk_children in Hy as (name & child & Hin & _ & Hkeep & _ & Hy).
    rewrite Forall_forall in IH. specialize (IH _ Hin _ Hy).
    destruct IH as (names & l' & es' & -> & Hchain & Hfound & -> & ->).
    exists (name :: names), l', es'. repeat split.
    + intros [|k] nm Hk; simpl in *; [by injection Hk as <-|by apply Hchain].
    + by eapply found_below.
Qed.

(** A list whose filtered image splits at [x] splits at [x] itself. *)
Lemma filter_split {A} (P : A -> Prop) `{!forall x, Decision (P x)} (l : list A) m1 x m2 :
  filter P l = m1 ++ x :: m2 ->
  exists l1 l2, l = l1 ++ x :: l2 /\ filter P l1 = m1 /\ filter P l2 = m2.
Proof.
  revert m1. induction l as [|y l IH]; intros m1 Hf.
  - by destruct m1.
  - rewrite filter_cons in Hf. case_decide as Hy.
    + destruct m1 as [|z m1]; simpl in Hf; injection Hf as Hz Hrest; subst y.
      * exists [], l. by rewrite Hrest.
      * destruct (IH _ Hrest) as (l1 & l2 & -> & <- & <-).
        exists (z :: l1), l2. by rewrite filter_cons_True.
    + destruct (IH _ Hf) as (l1 & l2 & -> & <- & <-).
      exists (y :: l1), l2. by rewrite filter_cons_False.
Qed.

Section ScanFacts.
Variable cfg : settings.
Variable exclusions : gset string.
Variable min_bytes : Z.

Lemma elem_of_analyze root fs entry :
  entry ∈ analyze_disk_usage cfg exclusions min_bytes root fs
  <-> entry ∈ results cfg exclusions min_bytes root fs.
Proof. unfold analyze_disk_usage. by rewrite sorted_Permutation. Qed.

Lemma elem_of_results root fs entry :
  entry ∈ results cfg exclusions min_bytes root fs
  <-> exists y, y ∈ os_walk (keep_dir cfg exclusions) root fs
                /\ entry ∈ visit cfg exclusions min_bytes y.
Proof.
  unfold results. rewrite list_elem_of_In, in_flat_map.
  split; intros (y & Hy & He); exists y; split;
    first [by apply list_elem_of_In | by apply list_elem_of_In in Hy
          | by apply list_elem_of_In in He].
Qed.

Lemma keep_dir_not_excluded dirpath d :
  keep_dir cfg exclusions dirpath d = true ->
  should_exclude (OsPath.join dirpath d) exclusions = false.
Proof. unfold keep_dir. intros [_ H%negb_true_iff]%andb_prop. done. Qed.

Lemma counted_not_excluded dirpath name link size :
  counted cfg exclusions dirpath (name, link, size) = true ->
  link = false /\ should_exclude (OsPath.join dirpath name) exclusions = false.
Proof.
  unfold counted.
  intros [[_ H1%negb_true_iff]%andb_prop H2%negb_true_iff]%andb_prop. done.
Qed.

Lemma descend_snoc root names name :
  descend root (names ++ [name]) = OsPath.join (descend root names) name.
Proof. unfold descend. by rewrite fold_left_app. Qed.

(** Along a chain of kept directories no directory below the root is
    excluded. *)
Lemma kept_chain_not_excluded root names :
  (forall k name, names !! k = Some name ->
                  keep_dir cfg exclusions (descend root (take k names)) name = true) ->
  forall k, (0 < k <= length names)%nat ->
            should_exclude (descend root (take k names)) exclusions = false.
Proof.
  intros Hchain [|k] Hk; [lia|].
  destruct (lookup_lt_is_Some_2 names k) as [name Hname]; [lia|].
  rewrite (take_S_r _ _ _ Hname), descend_snoc.
  by apply keep_dir_not_excluded, Hchain.
Qed.

Lemma dir_size_own_files dirpath filenames :
  dir_size cfg exclusions dirpath filenames = own_files_size cfg exclusions dirpath filenames.
Proof.
  unfold dir_size, own_files_size.
  assert (forall acc,
    fold_left (fun acc f => if counted cfg exclusions dirpath f
                            then match f.2 with Some sz => acc + sz | None => acc end
                            else acc) filenames acc
    = acc + foldr Z.add 0
              (map (fun f : file_info => default 0 f.2)
                 (filter (fun f => counted cfg exclusions dirpath f = true) filenames)))
    as H; [|by rewrite H].
  induction filenames as [|f l IH]; intros acc; simpl; [lia|].
  rewrite IH, filter_cons.
  destruct (counted cfg exclusions dirpath f); case_decide; try done.
  destruct f as [[name link] [sz|]]; simpl; lia.
Qed.

Lemma elem_of_directory_entries dirpath filenames entry :
  entry ∈ directory_entries cfg exclusions min_bytes dirpath filenames
  <-> scan_directories cfg = true
      /\ entry = (dirpath, own_files_size cfg exclusions dirpath filenames)
      /\ min_bytes <= own_files_size cfg exclusions dirpath filenames.
Proof.
  unfold directory_entries. rewrite dir_size_own_files.
  destruct (scan_directories cfg).
  - destruct (Z.leb_spec min_bytes (own_files_size cfg exclusions dirpath filenames)).
    + rewrite list_elem_of_singleton. split; [by intros ->|by intros (_ & -> & _)].
    + rewrite elem_of_nil. split; [done|]. intros (_ & _ & ?). lia.
  - rewrite elem_of_nil. split; [done|by intros ([=] & _)].
Qed.

Lemma elem_of_file_entries dirpath filenames entry :
  entry ∈ file_entries cfg exclusions min_bytes dirpath filenames ->
  exists name, entry.1 = OsPath.join dirpath name
               /\ should_exclude entry.1 exclusions = false.
Proof.
  unfold file_entries. destruct (scan_files cfg); [|by rewrite elem_of_nil].
  rewrite list_elem_of_In, in_flat_map.
  intros ([[name link] size] & _ & He%list_elem_of_In).
  destruct (counted _ _ _ _) eqn:Hc; [|by apply elem_of_nil in He].
  apply counted_not_excluded in Hc as [_ Hc]. simpl in He.
  destruct size as [sz|]; [|by apply elem_of_nil in He].
  destruct (min_bytes <=? sz); [|by apply elem_of_nil in He].
  apply list_elem_of_singleton in He as ->. by exists name.
Qed.
End ScanFacts.

Lemma elem_of_filenames_of es name link size :
  (name, link, size) ∈ filenames_of es <-> (name, File link size) ∈ es.
Proof.
  unfold filenames_of. split.
  - intros Hin%list_elem_of_In%in_flat_map.
    destruct Hin as ([n [l sz|l entries]] & Hin%list_elem_of_In & He%list_elem_of_In);
      simpl in He.
    + by apply list_elem_of_singleton in He as [= -> -> ->].
    + by apply elem_of_nil in He.
  - intros Hin. apply list_elem_of_In, in_flat_map.
    exists (name, File link size). split; [by apply list_elem_of_In|].
    apply list_elem_of_In. simpl. apply list_elem_of_here.
Qed.

Lemma own_files_total cfg exclusions path es :
  own_files_size cfg exclusions path (filenames_of es)
  = direct_files_total cfg exclusions path es.
Proof.
  unfold own_files_size, filenames_of.
  induction es as [|[name [link size|link entries]] es IH]; [done| |exact IH].
  cbn [flat_map fst snd direct_files_total]. rewrite <- IH.
  change ([(name, link, size)] ++ ?l) with ((name, link, size) :: l).
  rewrite filter_cons.
  destruct (decide (counted cfg exclusions path (name, link, size) = true)) as [Hc|Hc];
    unfold counted in Hc; cbn [map foldr snd];
    destruct link, (should_exclude (OsPath.join path name) exclusions),
      (ignore_dotfolders cfg), (Py.startswith "." name), size as [sz|];
    cbn [negb andb orb default] in *; try done; lia.
Qed.

Lemma keep_dir_spec cfg exclusions top name :
  keep_dir cfg exclusions top name = true
  <-> (ignore_dotfolders cfg = true ->
       in_dot_dir top = false /\ Py.startswith "." name = false)
      /\ should_exclude (OsPath.join top name) exclusions = false.
Proof.
  unfold keep_dir.
  destruct (ignore_dotfolders cfg), (in_dot_dir top), (Py.startswith "." name),
    (should_exclude _ _); simpl; split; try done; try (intros [H _]; by destruct H).
  all: by intros [_ ?].
Qed.

(** Every directory the walk of a scan yields is reached from the root
    through entries of the tree that the scan keeps. *)
Lemma visited_is_scanned cfg exclusions root fs dirpath dirnames filenames :
  (dirpath, dirnames, filenames) ∈ os_walk (keep_dir cfg exclusions) root fs ->
  exists link es,
    scanned cfg exclusions root fs dirpath (Dir link (Some es))
    /\ dirnames = filter (fun d => keep_dir cfg exclusions dirpath d) (dirnames_of es)
    /\ filenames = filenames_of es.
Proof.
  revert root. induction fs as [link size|link|link es IH] using node_induction;
    intros root Hy; [by apply elem_of_nil in Hy|by apply elem_of_nil in Hy|].
  rewrite os_walk_dir in Hy. apply elem_of_cons in Hy as [[= -> -> ->]|Hy].
  - exists link, es. split; [constructor|done].
  - apply elem_of_walk_children in Hy as (name & child & Hin & Hd & Hkeep & Hl & Hy).
    rewrite Forall_forall in IH. destruct (IH _ Hin _ Hy) as (l' & es' & Hpath & -> & ->).
    exists l', es'. split; [|done].
    apply keep_dir_spec in Hkeep as [Hdot Hx]. by eapply scanned_below.
Qed.

Lemma elem_of_file_entries_iff cfg exclusions min_bytes dirpath filenames entry :
  entry ∈ file_entries cfg exclusions min_bytes dirpath filenames
  <-> scan_files cfg = true
      /\ exists name size,
           (name, false, Some size) ∈ filenames
           /\ (ignore_dotfolders cfg && Py.startswith "." name)%bool = false
           /\ should_exclude (OsPath.join dirpath name) exclusions = false
           /\ min_bytes <= size
           /\ entry = (OsPath.join dirpath name, size).
Proof.
  unfold file_entries. destruct (scan_files cfg); [|split; [by intros ?%elem_of_nil|by intros [? _]]].
  rewrite list_elem_of_In, in_flat_map. split.
  - intros ([[name link] size] & Hin%list_elem_of_In & He%list_elem_of_In).
    unfold counted in He.
    destruct (ignore_dotfolders cfg && Py.startswith "." name)%bool eqn:Hdot;
      [by apply elem_of_nil in He|].
    destruct link; [by apply elem_of_nil in He|].
    destruct (should_exclude _ _) eqn:Hx; [by apply elem_of_nil in He|].
    simpl in He. destruct size as [sz|]; [|by apply elem_of_nil in He].
    destruct (Z.leb_spec min_bytes sz); [|by apply elem_of_nil in He].
    apply list_elem_of_singleton in He as ->. split; [done|]. by exists name, sz.
  - intros (_ & name & size & Hin & Hdot & Hx & Hmin & ->).
    exists (name, false, Some size). split; [by apply list_elem_of_In|].
    apply list_elem_of_In. unfold counted. rewrite Hdot, Hx. simpl.
    destruct (Z.leb_spec min_bytes size); [apply list_elem_of_here|lia].
Qed.

(** What a scan returns: the entries of the directories it visits and of
    the files it finds there. *)
Lemma elem_of_scan cfg exclusions min_bytes root fs path size :
  (path, size) ∈ analyze_disk_usage cfg exclusions min_bytes root fs
  <-> exists dirpath link es,
        scanned cfg exclusions root fs dirpath (Dir link (Some es))
        /\ (ignore_dotfolders cfg && in_dot_dir dirpath)%bool = false
        /\ ((scan_directories cfg = true
             /\ path = dirpath
             /\ size = direct_files_total cfg exclusions dirpath es
             /\ min_bytes <= size)
            \/ (scan_files cfg = true
                /\ exists name,
                     (name, File false (Some size)) ∈ es
                     /\ path = OsPath.join dirpath name
                     /\ (ignore_dotfolders cfg && Py.startswith "." name)%bool = false
                     /\ should_exclude path exclusions = false
                     /\ min_bytes <= size)).
Proof.
  rewrite elem_of_analyze, elem_of_results. split.
  - intros ([[dirpath dirnames] filenames] & Hy & He).
    destruct (visited_is_scanned _ _ _ _ _ _ _ Hy) as (link & es & Hs & _ & ->).
    exists dirpath, link, es. split; [done|]. unfold visit in He.
    destruct (_ && _)%bool eqn:Hdot; [by apply elem_of_nil in He|]. split; [done|].
    apply elem_of_app in He as [He|He].
    + left. apply elem_of_directory_entries in He as (Hd & [= -> ->] & Hmin).
      rewrite own_files_total in Hmin |- *. done.
    + right. apply elem_of_file_entries_iff in He
        as (Hf & name & sz & Hin%elem_of_filenames_of & Hn & Hx & Hmin & [= -> ->]).
      split; [done|]. by exists name.
  - intros (dirpath & link & es & Hs & Hdot & Hcase).
    assert (exists dirnames,
               (dirpath, dirnames, filenames_of es)
                 ∈ os_walk (keep_dir cfg exclusions) root fs) as [dirnames Hy].
    { clear Hcase Hdot. remember (Dir link (Some es)) as n eqn:Hn.
      induction Hs as [top n|top link' es' name child p n Hin Hd Hl Hd' Hx _ IH]; subst.
      - eexists. rewrite os_walk_dir. apply list_elem_of_here.
      - destruct (IH eq_refl) as [dirnames Hy]. exists dirnames.
        rewrite os_walk_dir. apply list_elem_of_further.
        apply elem_of_walk_children. exists name, child.
        repeat split; auto. by apply keep_dir_spec. }
    exists (dirpath, dirnames, filenames_of es). split; [done|].
    unfold visit. rewrite Hdot. apply elem_of_app.
    destruct Hcase as [(Hd & -> & -> & Hmin)|(Hf & name & Hin & -> & Hn & Hx & Hmin)].
    + left. apply elem_of_directory_entries. rewrite own_files_total. done.
    + right. apply elem_of_file_entries_iff. split; [done|].
      exists name, size. by rewrite elem_of_filenames_of.
Qed.

(** C1 as stated fails: with a threshold of 5 MiB the directory [/r] is
    recorded with the 10 MiB of its own file, while its direct and indirect
    files add up to 260 MiB. *)
Lemma directory_size_is_not_recursive :
  ~ (forall entry,
        entry ∈ analyze_disk_usage directories_only ∅ (MiB 5) "/r" small_tree ->
        entry ∈ spec_directory_sizes ∅ "/r" small_tree).
Proof.
  intros H.
  assert (("/r", MiB 10)
            ∈ analyze_disk_usage directories_only ∅ (MiB 5) "/r" small_tree) as Hin
    by in_list.
  apply H in Hin. revert Hin. not_in_list.
Qed.

(** C1, amended.  For every directory the walk visits, the directory
    loop emits one entry, with the sum of the sizes of the files the
    directory itself lists that are no symbolic links, can be read, match
    no exclusion and, when dot entries are ignored, do not start with a
    dot, exactly when directories are scanned and that sum reaches the
    threshold; files of subdirectories are not part of the sum.  So, with
    directories scanned, every directory reached from the root (outside
    dot-directories when those are ignored) whose sum reaches the threshold
    has its entry in the result; every entry of the result is such an entry
    or, when files are scanned too, a file of a directory reached from the
    root; and with directories only the result holds exactly those
    entries. *)
Theorem directory_entry_sums_own_files cfg exclusions min_bytes root fs :
  (forall dirpath dirnames filenames,
      (dirpath, dirnames, filenames) ∈ os_walk (keep_dir cfg exclusions) root fs ->
      exists link es,
        scanned cfg exclusions root fs dirpath (Dir link (Some es))
        /\ filenames = filenames_of es
        /\ directory_entries cfg exclusions min_bytes dirpath filenames
           = if (scan_directories cfg
                 && (min_bytes <=? direct_files_total cfg exclusions dirpath es))%bool
             then [(dirpath, direct_files_total cfg exclusions dirpath es)]
             else [])
  /\ (scan_directories cfg = true ->
      forall path link es,
        scanned cfg exclusions root fs path (Dir link (Some es)) ->
        (ignore_dotfolders cfg && in_dot_dir path)%bool = false ->
        min_bytes <= direct_files_total cfg exclusions path es ->
        (path, direct_files_total cfg exclusions path es)
          ∈ analyze_disk_usage cfg exclusions min_bytes root fs)
  /\ (forall path size,
        (path, size) ∈ analyze_disk_usage cfg exclusions min_bytes root fs ->
        (scan_directories cfg = true
         /\ exists link es,
              scanned cfg exclusions root fs path (Dir link (Some es))
              /\ (ignore_dotfolders cfg && in_dot_dir path)%bool = false
              /\ size = direct_files_total cfg exclusions path es
              /\ min_bytes <= size)
        \/ (scan_files cfg = true
            /\ exists dirpath link es name,
                 scanned cfg exclusions root fs dirpath (Dir link (Some es))
                 /\ (name, File false (Some size)) ∈ es
                 /\ path = OsPath.join dirpath name))
  /\ (scan_files cfg = false ->
      forall path size,
        (path, size) ∈ analyze_disk_usage cfg exclusions min_bytes root fs
        <-> scan_directories cfg = true
            /\ exists link es,
                 scanned cfg exclusions root fs path (Dir link (Some es))
                 /\ (ignore_dotfolders cfg && in_dot_dir path)%bool = false
                 /\ size = direct_files_total cfg exclusions path es
                 /\ min_bytes <= size).
Proof.
  split; [|split; [|split]].
  - intros dirpath dirnames filenames Hy.
    destruct (visited_is_scanned _ _ _ _ _ _ _ Hy) as (link & es & Hs & _ & ->).
    exists link, es. split; [done|]. split; [done|].
    unfold directory_entries. rewrite dir_size_own_files, own_files_total. cbv zeta.
    by destruct (scan_directories cfg), (min_bytes <=? _).
  - intros Hdirs path link es Hs Hdot Hmin. apply elem_of_scan.
    exists path, link, es. split; [done|]. split; [done|]. by left.
  - intros path size (dirpath & link & es & Hs & Hdot & Hcase)%elem_of_scan.
    destruct Hcase as [(Hd & -> & -> & Hmin)|(Hf & name & Hin & -> & _)].
    + left. split; [done|]. by exists link, es.
    + right. split; [done|]. by exists dirpath, link, es, name.
  - intros Hfiles path size. rewrite elem_of_scan. split.
    + intros (dirpath & link & es & Hs & Hdot & Hcase).
      destruct Hcase as [(Hd & -> & -> & Hmin)|(Hf & _)]; [|congruence].
      split; [done|]. by exists link, es.
    + intros (Hd & link & es & Hs & Hdot & -> & Hmin).
      exists path, link, es. split; [done|]. split; [done|]. by left.
Qed.

Lemma directory_entry_sums_own_files_witness :
  ("/r", MiB 10) ∈ analyze_disk_usage both_modes ∅ (MiB 5) "/r" small_tree.
Proof.
  assert (direct_files_total both_modes ∅ "/r"
            [("a", File false (Some (MiB 10)));
             ("l", File true (Some (MiB 7)));
             ("sub", Dir false (Some [("big", File false (Some (MiB 200)))]));
             ("cache", Dir false (Some [("c", File false (Some (MiB 50)))]))]
          = MiB 10) as <- by (vm_compute; reflexivity).
  apply (proj1 (proj2 (directory_entry_sums_own_files both_modes ∅ (MiB 5) "/r" small_tree))
           eq_refl "/r" false
           [("a", File false (Some (MiB 10)));
            ("l", File true (Some (MiB 7)));
            ("sub", Dir false (Some [("big", File false (Some (MiB 200)))]));
            ("cache", Dir false (Some [("c", File false (Some (MiB 50)))]))]).
  - apply scanned_here.
  - reflexivity.
  - vm_compute. discriminate.
Defined.

(** C6 as stated fails: the root of the scan is never tested against the
    exclusions, so a scan started at [/proc] while [/proc] is excluded
    (threshold 100 MiB) returns an entry for [/proc] itself. *)
Lemma scan_root_is_not_tested :
  ~ no_entry_under_excluded both_modes {[ "/proc" ]} (MiB 100) "/proc" proc_tree.
Proof.
  intros H. apply (H "/proc" (MiB 128) "/proc").
  - in_list.
  - eexists _, _. split; [apply found_here|reflexivity].
  - by exists [].
Qed.

Lemma without_excluded_dir exclusions path link es :
  without_excluded exclusions path (Dir link (Some es))
  = Dir link
      (Some (flat_map
               (fun e : string * node =>
                  if (is_dir e.2 && should_exclude (OsPath.join path e.1) exclusions)%bool
                  then []
                  else [(e.1, without_excluded exclusions (OsPath.join path e.1) e.2)])
               es)).
Proof.
  simpl. do 2 f_equal.
  induction es as [|[name child] es IH]; [done|]. cbn [flat_map fst snd].
  rewrite IH. by destruct (_ && _)%bool.
Qed.

Lemma without_excluded_kind exclusions path n :
  is_dir (without_excluded exclusions path n) = is_dir n
  /\ is_link (without_excluded exclusions path n) = is_link n.
Proof. by destruct n as [link size|link [es|]]. Qed.

Lemma entries_without_excluded_cons exclusions path name child es :
  entries_without_excluded exclusions path ((name, child) :: es)
  = (if (is_dir child && should_exclude (OsPath.join path name) exclusions)%bool
     then []
     else [(name, without_excluded exclusions (OsPath.join path name) child)])
    ++ entries_without_excluded exclusions path es.
Proof. reflexivity. Qed.

Lemma dirnames_without_excluded cfg exclusions root es :
  filter (fun d => keep_dir cfg exclusions root d)
         (dirnames_of (entries_without_excluded exclusions root es))
  = filter (fun d => keep_dir cfg exclusions root d) (dirnames_of es).
Proof.
  unfold dirnames_of.
  induction es as [|[name child] es IH]; [done|].
  rewrite entries_without_excluded_cons, filter_app, map_app, filter_app, IH.
  rewrite (filter_cons _ (name, child)). cbn [snd].
  destruct (is_dir child) eqn:Hd; cbn [andb].
  - rewrite decide_True by done. rewrite map_cons, (filter_cons _ (name, child).1).
    cbn [fst]. destruct (should_exclude (OsPath.join root name) exclusions) eqn:Hx.
    + rewrite decide_False; [done|]. unfold keep_dir. rewrite Hx, andb_false_r.
      intros H. destruct H.
    + rewrite filter_cons, filter_nil. cbn [snd].
      rewrite (proj1 (without_excluded_kind _ _ _)), Hd.
      rewrite decide_True by done. rewrite map_cons, filter_cons. cbn [fst map].
      rewrite filter_nil. by destruct (decide _).
  - rewrite decide_False by (intros H; destruct H).
    rewrite filter_cons, filter_nil. cbn [snd].
    rewrite (proj1 (without_excluded_kind _ _ _)), Hd.
    rewrite decide_False by (intros H; destruct H). done.
Qed.

Lemma filenames_without_excluded exclusions root es :
  filenames_of (entries_without_excluded exclusions root es) = filenames_of es.
Proof.
  unfold filenames_of.
  induction es as [|[name child] es IH]; [done|].
  rewrite entries_without_excluded_cons, flat_map_app, IH.
  cbn [flat_map fst snd]. f_equal.
  destruct child as [l sz|l [entries|]]; cbn [is_dir andb]; [done|..];
    by destruct (should_exclude _ _).
Qed.

(** The walk of a scan does not tell a tree from the tree without its
    excluded directories. *)
Lemma os_walk_without_excluded cfg exclusions fs :
  forall root,
    os_walk (keep_dir cfg exclusions) root (without_excluded exclusions root fs)
    = os_walk (keep_dir cfg exclusions) root fs.
Proof.
  induction fs as [link size|link|link es IH] using node_induction; intros root;
    [done|done|].
  rewrite without_excluded_dir. fold (entries_without_excluded exclusions root es).
  rewrite !os_walk_dir, dirnames_without_excluded, filenames_without_excluded.
  f_equal. unfold walk_children.
  induction IH as [|[name child] es Hchild _ IHes]; [done|].
  rewrite entries_without_excluded_cons, flat_map_app, IHes.
  cbn [flat_map fst snd]. f_equal. cbn [fst snd] in Hchild.
  destruct (is_dir child) eqn:Hd; cbn [andb].
  - destruct (should_exclude (OsPath.join root name) exclusions) eqn:Hx.
    + cbn [flat_map]. unfold keep_dir. rewrite Hx. by rewrite andb_false_r.
    + cbn [flat_map fst snd]. rewrite app_nil_r.
      destruct (without_excluded_kind exclusions (OsPath.join root name) child)
        as [-> ->].
      rewrite Hd, Hchild. done.
  - cbn [flat_map fst snd]. rewrite app_nil_r.
    destruct (without_excluded_kind exclusions (OsPath.join root name) child)
      as [-> ->].
    by rewrite Hd.
Qed.

(** C6, amended.  The directory names left in a yielded list match no
    exclusion, so an excluded child is not entered.  Every directory the
    walk visits is a directory of the tree reached from the root through
    listed directories none of which, below the root, matches an
    exclusion; every entry of the result is such a directory or a file
    that such a directory lists and that matches no exclusion itself.
    What lies in an excluded directory below the root is never looked at:
    the walk, and so the result, is that of the tree without its excluded
    directories. *)
Theorem excluded_directories_are_pruned cfg exclusions min_bytes root fs :
  (forall dirpath dirnames filenames d,
      (dirpath, dirnames, filenames) ∈ os_walk (keep_dir cfg exclusions) root fs ->
      d ∈ dirnames ->
      should_exclude (OsPath.join dirpath d) exclusions = false)
  /\ (forall dirpath dirnames filenames,
      (dirpath, dirnames, filenames) ∈ os_walk (keep_dir cfg exclusions) root fs ->
      exists link es,
        scanned cfg exclusions root fs dirpath (Dir link (Some es))
        /\ dirnames = filter (fun d => keep_dir cfg exclusions dirpath d) (dirnames_of es)
        /\ filenames = filenames_of es)
  /\ (forall path size,
      (path, size) ∈ analyze_disk_usage cfg exclusions min_bytes root fs ->
      exists dirpath link es,
        scanned cfg exclusions root fs dirpath (Dir link (Some es))
        /\ (path = dirpath
            \/ exists name, (name, File false (Some size)) ∈ es
                            /\ path = OsPath.join dirpath name
                            /\ should_exclude path exclusions = false))
  /\ os_walk (keep_dir cfg exclusions) root (without_excluded exclusions root fs)
     = os_walk (keep_dir cfg exclusions) root fs
  /\ analyze_disk_usage cfg exclusions min_bytes root (without_excluded exclusions root fs)
     = analyze_disk_usage cfg exclusions min_bytes root fs.
Proof.
  split; [|split; [|split; [|split]]].
  - intros dirpath dirnames filenames d Hy Hd.
    destruct (visited_is_scanned _ _ _ _ _ _ _ Hy) as (_ & es & _ & -> & _).
    apply list_elem_of_filter in Hd as [Hd _].
    apply (keep_dir_not_excluded cfg). by destruct (keep_dir cfg exclusions dirpath d).
  - apply visited_is_scanned.
  - intros path size (dirpath & link & es & Hs & _ & Hcase)%elem_of_scan.
    exists dirpath, link, es. split; [done|].
    destruct Hcase as [(_ & -> & _)|(_ & name & Hin & -> & _ & Hx & _)]; [by left|].
    right. by exists name.
  - apply os_walk_without_excluded.
  - unfold analyze_disk_usage, results. by rewrite os_walk_without_excluded.
Qed.

Lemma excluded_directories_are_pruned_witness :
  should_exclude "/r/cache" {[ "cache" ]} = true
  /\ without_excluded {[ "cache" ]} "/r" small_tree
     = Dir false (Some [("a", File false (Some (MiB 10)));
                        ("l", File true (Some (MiB 7)));
                        ("sub", Dir false (Some [("big", File false (Some (MiB 200)))]))])
  /\ exists dirpath link es,
      scanned both_modes {[ "cache" ]} "/r" small_tree dirpath (Dir link (Some es))
      /\ ("/r/sub/big" = dirpath
          \/ exists name, (name, File false (Some (MiB 200))) ∈ es
                          /\ "/r/sub/big" = OsPath.join dirpath name
                          /\ should_exclude "/r/sub/big" {[ "cache" ]} = false).
Proof.
  split; [reflexivity|]. split; [reflexivity|].
  apply (proj1 (proj2 (proj2 (excluded_directories_are_pruned
                                both_modes {[ "cache" ]} (MiB 5) "/r" small_tree)))
           "/r/sub/big" (MiB 200)).
  in_list.
Defined.

(** C8.  The result of a scan is in descending order of size, holds the
    entries that were found and no others, and is stable: the entries of
    any one size stand in the order of their discovery, so of two entries
    of equal size the one found first comes first. *)
Theorem scan_result_sorted_stable cfg exclusions min_bytes root fs :
  StronglySorted (fun a b : string * Z => b.2 <= a.2)
                 (analyze_disk_usage cfg exclusions min_bytes root fs)
  /\ analyze_disk_usage cfg exclusions min_bytes root fs
     ≡ₚ results cfg exclusions min_bytes root fs
  /\ (forall size,
        filter (fun e : string * Z => e.2 = size)
               (analyze_disk_usage cfg exclusions min_bytes root fs)
        = filter (fun e : string * Z => e.2 = size)
                 (results cfg exclusions min_bytes root fs))
  /\ (forall a b l1 l2 l3,
        results cfg exclusions min_bytes root fs = l1 ++ a :: l2 ++ b :: l3 ->
        a.2 = b.2 ->
        exists r1 r2 r3,
          analyze_disk_usage cfg exclusions min_bytes root fs = r1 ++ a :: r2 ++ b :: r3).
Proof.
  unfold analyze_disk_usage.
  set (found := results cfg exclusions min_bytes root fs).
  split; [|split; [apply sorted_Permutation|]].
  - eapply StronglySorted_mono; [|apply sorted_StronglySorted].
    intros x y. unfold in_order, Py.comes_before. simpl. lia.
  - assert (Hst : forall size,
        filter (fun e : string * Z => e.2 = size) (Py.sorted snd true found)
        = filter (fun e : string * Z => e.2 = size) found)
      by (intros size; apply (sorted_filter_key snd true)).
    split; [exact Hst|].
    intros a b l1 l2 l3 Hfound Hab.
    specialize (Hst a.2). rewrite Hfound in Hst at 2.
    rewrite filter_app, filter_cons_True, filter_app, filter_cons_True in Hst by done.
    apply filter_split in Hst as (r1 & r' & Hr & _ & Hst).
    apply filter_split in Hst as (r2 & r3 & -> & _ & _).
    rewrite Hr. by exists r1, r2, r3.
Qed.

Lemma scan_result_sorted_stable_witness :
  exists r1 r2 r3,
    analyze_disk_usage both_modes ∅ (MiB 5) "/r" small_tree
    = r1 ++ ("/r/sub", MiB 200) :: r2 ++ ("/r/sub/big", MiB 200) :: r3.
Proof.
  apply (proj2 (proj2 (proj2 (scan_result_sorted_stable
                                both_modes ∅ (MiB 5) "/r" small_tree)))
           ("/r/sub", MiB 200) ("/r/sub/big", MiB 200)
           [("/r", MiB 10); ("/r/a", MiB 10)] []
           [("/r/cache", MiB 50); ("/r/cache/c", MiB 50)]);
    reflexivity.
Defined.

(** ** Removal *)

Section ExecutorFacts.
Context {world : Type} {os : OS world} {rich : Console}.

Lemma walked_size_total (w : world) path :
  walked_size w path = regular_files_total w path.
Proof.
  unfold walked_size, regular_files_total, walked_files.
  set (size_of := fun filepath => match path_getsize w filepath with
                                  | Ok sz => sz
                                  | Raise _ => 0
                                  end).
  assert (Hfiles : forall dirpath filenames acc,
    fold_left (fun actual_size filename =>
                 let filepath := OsPath.join dirpath filename in
                 if path_islink w filepath then actual_size
                 else match path_getsize w filepath with
                      | Ok sz => actual_size + sz
                      | Raise _ => actual_size
                      end) filenames acc
    = acc + foldr Z.add 0
              (map size_of (filter (fun filepath => path_islink w filepath = false)
                              (map (OsPath.join dirpath) filenames)))).
  { intros dirpath filenames. induction filenames as [|f l IH]; intros acc; [simpl; lia|].
    cbn [fold_left map]. cbv zeta. rewrite IH, filter_cons.
    destruct (path_islink w (OsPath.join dirpath f)) eqn:Hl.
    - rewrite decide_False by congruence. reflexivity.
    - rewrite decide_True by done. cbn [map foldr]. cbv iota.
      change (size_of (OsPath.join dirpath f))
        with (match path_getsize w (OsPath.join dirpath f) with
              | Ok sz => sz
              | Raise _ => 0
              end).
      destruct (path_getsize w (OsPath.join dirpath f)).
      + by rewrite Z.add_assoc.
      + by rewrite Z.add_0_l. }
  assert (forall (xs : list Z) (b : Z), foldr Z.add b xs = foldr Z.add 0 xs + b) as Hfold.
  { intros xs b. induction xs as [|x xs IHxs]; simpl; lia. }
  assert (Hwalk : forall (l : list (string * list string * list string)) acc,
    fold_left
      (fun actual_size '(dirpath, _, filenames) =>
         fold_left
           (fun actual_size filename =>
              let filepath := OsPath.join dirpath filename in
              if path_islink w filepath then actual_size
              else match path_getsize w filepath with
                   | Ok sz => actual_size + sz
                   | Raise _ => actual_size
                   end)
           filenames actual_size)
      l acc
    = acc + foldr Z.add 0
              (map size_of
                 (filter (fun filepath => path_islink w filepath = false)
                    (flat_map (fun y : string * list string * list string =>
                                 map (OsPath.join y.1.1) y.2) l)))).
  { intros l. induction l as [|[[dirpath dirnames] filenames] l IH]; intros acc.
    - simpl. by rewrite Z.add_0_r.
    - cbn [fold_left flat_map fst snd].
      rewrite IH, Hfiles, filter_app, map_app, foldr_app.
      rewrite (Hfold (map size_of _) (foldr Z.add 0 _)). by rewrite Z.add_assoc. }
  by rewrite Hwalk.
Qed.

Lemma remove_item_turn path expected_size (st : state) :
  exists st' m,
    remove_item (path, expected_size) st = (st', (printed path m).2)
    /\ console st' = console st ++ (printed path m).1
    /\ turn st path m st'.
Proof.
  assert (Hbody : forall (st1 : state) m,
    is_failure m = false ->
    turn st path m st1 -> console st1 = console st ->
    exists st',
      catch (print m)
            (fun e => match e with
                      | PermissionError => print (PermissionDenied path)
                      | OSError text | MarkupError text => print (ErrorRemoving path text)
                      end) st1
      = (st', (printed path m).2)
      /\ console st' = console st ++ (printed path m).1
      /\ turn st path m st').
  { intros st1 m Hm Ht Hc. unfold catch, print, printed. rewrite Hm.
    destruct (markup_error m) as [text|]; simpl.
    - destruct (markup_error (ErrorRemoving path text)) as [text'|]; simpl.
      + exists st1. by rewrite Hc, app_nil_r.
      + eexists. split; [done|]. simpl. rewrite Hc. split; [done|].
        destruct Ht; [apply turn_skipped|eapply turn_removed_file|apply turn_removed_directory
                     |apply turn_reported_other|by destruct e]; eauto.
    - eexists. split; [done|]. simpl. rewrite Hc. split; [done|].
      destruct Ht; [apply turn_skipped|eapply turn_removed_file|apply turn_removed_directory
                   |apply turn_reported_other|by destruct e]; eauto. }
  assert (Hfail : forall (st1 : state) e,
    path_exists (fs st) path = true ->
    deletion_raises (fs st) path e (fs st1) ->
    removed st1 = removed st -> deleted st1 = deleted st -> console st1 = console st ->
    exists st',
      (match e with
       | PermissionError => print (PermissionDenied path)
       | OSError text | MarkupError text => print (ErrorRemoving path text)
       end) st1
      = (st', (printed path (failure_message path e)).2)
      /\ console st' = console st ++ (printed path (failure_message path e)).1
      /\ turn st path (failure_message path e) st').
  { intros st1 e Hex Hraise Hr Hd Hc.
    assert (forall m, m = failure_message path e -> is_failure m = true ->
              exists st', print m st1 = (st', (printed path m).2)
                          /\ console st' = console st ++ (printed path m).1
                          /\ turn st path m st') as Hprint.
    { intros m -> Hm. unfold print, printed. rewrite Hm.
      destruct (markup_error (failure_message path e)); simpl.
      - exists st1. rewrite Hc, app_nil_r. repeat split. by apply turn_failed.
      - eexists. split; [done|]. simpl. rewrite Hc. split; [done|]. by apply turn_failed. }
    destruct e; by apply Hprint. }
  unfold remove_item, try_remove.
  destruct (path_exists (fs st) path) eqn:Hex.
  2: { destruct (Hbody st (Skipping path)) as (st' & Hrun & Hc & Ht);
         [done|by apply turn_skipped|done|].
       exists st', (Skipping path). split; [|done].
       rewrite <- Hrun. cbv [catch bind query getsize delete_with record ret].
        rewrite Hex; cbv beta iota delta [negb]. done. }
  destruct (path_isfile (fs st) path) eqn:Hfile.
  - destruct (path_getsize (fs st) path) as [sz|e] eqn:Hsz.
    + destruct (remove (fs st) path) as [w' [e|]] eqn:Hrm.
      * destruct (Hfail {| fs := w'; removed := removed st; console := console st;
                           deleted := deleted st |} e) as (st' & Hrun & Hc & Ht);
          [done|right; left; eauto|done..|].
        exists st', (failure_message path e). split; [|done]. rewrite <- Hrun.
        cbv [catch bind query getsize delete_with record ret].
        rewrite Hex; cbv beta iota delta [negb]. rewrite Hfile; cbv beta iota delta [negb]. rewrite Hsz; cbv beta iota delta [negb]. rewrite Hrm; cbv beta iota delta [negb]. done.
      * destruct (Hbody {| fs := w'; removed := <[path := sz]> (removed st);
                           console := console st; deleted := deleted st ++ [path] |}
                        (Removed path sz)) as (st' & Hrun & Hc & Ht);
          [done|by apply turn_removed_file|done|].
        exists st', (Removed path sz). split; [|done]. rewrite <- Hrun.
        cbv [catch bind query getsize delete_with record ret].
        rewrite Hex; cbv beta iota delta [negb]. rewrite Hfile; cbv beta iota delta [negb]. rewrite Hsz; cbv beta iota delta [negb]. rewrite Hrm; cbv beta iota delta [negb]. done.
    + destruct (Hfail st e) as (st' & Hrun & Hc & Ht); [done|by left|done..|].
      exists st', (failure_message path e). split; [|done]. rewrite <- Hrun.
      cbv [catch bind query getsize delete_with record ret].
        rewrite Hex; cbv beta iota delta [negb]. rewrite Hfile; cbv beta iota delta [negb]. rewrite Hsz; cbv beta iota delta [negb]. done.
  - destruct (path_isdir (fs st) path) eqn:Hdir.
    + destruct (rmtree (fs st) path) as [w' [e|]] eqn:Hrm.
      * destruct (Hfail {| fs := w'; removed := removed st; console := console st;
                           deleted := deleted st |} e) as (st' & Hrun & Hc & Ht);
          [done|right; right; eauto|done..|].
        exists st', (failure_message path e). split; [|done]. rewrite <- Hrun.
        cbv [catch bind query getsize delete_with record ret].
        rewrite Hex; cbv beta iota delta [negb]. rewrite Hfile; cbv beta iota delta [negb]. rewrite Hdir; cbv beta iota delta [negb]. rewrite Hrm; cbv beta iota delta [negb]. done.
      * destruct (Hbody {| fs := w';
                           removed := <[path := regular_files_total (fs st) path]> (removed st);
                           console := console st; deleted := deleted st ++ [path] |}
                        (Removed path (regular_files_total (fs st) path)))
          as (st' & Hrun & Hc & Ht);
          [done|by apply turn_removed_directory|done|].
        exists st', (Removed path (regular_files_total (fs st) path)). split; [|done].
        rewrite <- Hrun.
        cbv [catch bind query getsize delete_with record ret].
        rewrite Hex; cbv beta iota delta [negb]. rewrite Hfile; cbv beta iota delta [negb]. rewrite Hdir; cbv beta iota delta [negb]. rewrite Hrm; cbv beta iota delta [negb]. rewrite walked_size_total; cbv beta iota delta [negb]. done.
    + destruct (Hbody {| fs := fs st; removed := <[path := 0]> (removed st);
                         console := console st; deleted := deleted st |}
                      (Removed path 0)) as (st' & Hrun & Hc & Ht);
        [done|by apply turn_reported_other|done|].
      exists st', (Removed path 0). split; [|done]. rewrite <- Hrun.
      cbv [catch bind query getsize delete_with record ret].
        rewrite Hex; cbv beta iota delta [negb]. rewrite Hfile; cbv beta iota delta [negb]. rewrite Hdir; cbv beta iota delta [negb]. done.
Qed.

Lemma turn_path st path m st' : turn st path m st' -> message_path m = path.
Proof. destruct 1; try done. by destruct e. Qed.

Lemma turn_failure_keeps_report st path m st' :
  turn st path m st' -> is_failure m = true -> removed st' = removed st.
Proof. by destruct 1. Qed.

Lemma printed_rendered path m : markup_error m = None -> printed path m = ([m], Ok tt).
Proof. unfold printed. by intros ->. Qed.

Lemma printed_lines path m line :
  line ∈ (printed path m).1 -> line = m \/ exists text, line = ErrorRemoving path text.
Proof.
  unfold printed. destruct (markup_error m) as [text|]; simpl.
  - destruct (is_failure m); simpl; [by intros ?%elem_of_nil|].
    destruct (markup_error (ErrorRemoving path text)); simpl; [by intros ?%elem_of_nil|].
    intros ->%list_elem_of_singleton. right. by eexists.
  - intros ->%list_elem_of_singleton. by left.
Qed.

Lemma for_each_cons item items (st : state) :
  for_each (item :: items) st
  = match remove_item item st with
    | (st', Ok _) => for_each items st'
    | (st', Raise e) => (st', Raise e)
    end.
Proof. reflexivity. Qed.

Lemma for_each_app before after (st st1 : state) :
  for_each before st = (st1, Ok tt) ->
  for_each (before ++ after) st = for_each after st1.
Proof.
  revert st. induction before as [|item before IH]; intros st.
  - by intros [= ->].
  - rewrite <- app_comm_cons, !for_each_cons.
    destruct (remove_item item st) as [st0 [[]|e]]; [apply IH|discriminate].
Qed.

(** What holds of the state the loop leaves, whether it returns or
    raises. *)
Lemma for_each_report items :
  forall (st st' : state) r,
    for_each items st = (st', r) ->
    dom (removed st') ⊆ dom (removed st) ∪ list_to_set items.*1
    /\ (Forall (fun p => p ∈ dom (removed st)) (deleted st) ->
        Forall (fun p => p ∈ dom (removed st')) (deleted st'))
    /\ (exists gone, deleted st' = deleted st ++ gone /\ gone `sublist_of` items.*1)
    /\ ((forall p size, Removed p size ∈ console st -> p ∈ dom (removed st)) ->
        forall p size, Removed p size ∈ console st' -> p ∈ dom (removed st'))
    /\ (renders items.*1 ->
        (forall p size, removed st !! p = Some size -> Removed p size ∈ console st) ->
        forall p size, removed st' !! p = Some size -> Removed p size ∈ console st').
Proof.
  induction items as [|[p expected_size] items IH]; intros st st' r Hrun.
  - injection Hrun as <- <-. split; [set_solver|]. split; [done|].
    split; [exists []; by rewrite app_nil_r|]. done.
  - rewrite for_each_cons in Hrun.
    destruct (remove_item_turn p expected_size st) as (st1 & m & Hst1 & Hc & Ht).
    rewrite Hst1 in Hrun.
    assert (dom (removed st1) ⊆ dom (removed st) ∪ {[ p ]}
            /\ (Forall (fun q => q ∈ dom (removed st)) (deleted st) ->
                Forall (fun q => q ∈ dom (removed st1)) (deleted st1))
            /\ (deleted st1 = deleted st \/ deleted st1 = deleted st ++ [p])
            /\ ((forall q size, Removed q size ∈ console st -> q ∈ dom (removed st)) ->
                forall q size, Removed q size ∈ console st1 -> q ∈ dom (removed st1))
            /\ (renders ((p, expected_size) :: items).*1 ->
                (forall q size, removed st !! q = Some size -> Removed q size ∈ console st) ->
                forall q size, removed st1 !! q = Some size -> Removed q size ∈ console st1))
      as (H1 & H2 & H3 & H4 & H5).
    { assert (forall q size, Removed q size ∈ (printed p m).1 -> m = Removed q size) as Hline.
      { intros q size [->|[text [=]]]%printed_lines. done. }
      destruct Ht as [st1 _ _ Hr Hd|sz st1 _ _ _ _ Hr Hd|st1 _ _ _ _ Hr Hd|st1 _ _ _ _ Hr Hd
                     |e st1 _ _ Hr Hd]; rewrite Hc, Hr, Hd; try rewrite dom_insert_L.
      - split; [set_solver|]. split; [done|]. split; [by left|]. split.
        + intros Hinv q size [?|[=]%Hline]%elem_of_app. by eapply Hinv.
        + intros _ Hinv q size Hq. apply elem_of_app. left. by apply Hinv.
      - split; [set_solver|]. split; [|split; [by right|split]].
        + intros Hall. apply Forall_app. split.
          * eapply Forall_impl; [exact Hall|]. set_solver.
          * repeat constructor. set_solver.
        + intros Hinv q size [?|[= <- _]%Hline]%elem_of_app; [|set_solver].
          apply elem_of_union. right. by eapply Hinv.
        + intros Hrender Hinv q size Hq. apply elem_of_app.
          rewrite printed_rendered by (apply Hrender; [apply list_elem_of_here|done]).
          destruct (decide (p = q)) as [->|Hne].
          * rewrite lookup_insert_eq in Hq. injection Hq as <-. right. apply list_elem_of_here.
          * rewrite lookup_insert_ne in Hq by done. left. by apply Hinv.
      - split; [set_solver|]. split; [|split; [by right|split]].
        + intros Hall. apply Forall_app. split.
          * eapply Forall_impl; [exact Hall|]. set_solver.
          * repeat constructor. set_solver.
        + intros Hinv q size [?|[= <- _]%Hline]%elem_of_app; [|set_solver].
          apply elem_of_union. right. by eapply Hinv.
        + intros Hrender Hinv q size Hq. apply elem_of_app.
          rewrite printed_rendered by (apply Hrender; [apply list_elem_of_here|done]).
          destruct (decide (p = q)) as [->|Hne].
          * rewrite lookup_insert_eq in Hq. injection Hq as <-. right. apply list_elem_of_here.
          * rewrite lookup_insert_ne in Hq by done. left. by apply Hinv.
      - split; [set_solver|]. split; [|split; [by left|split]].
        + intros Hall. eapply Forall_impl; [exact Hall|]. set_solver.
        + intros Hinv q size [?|[= <- _]%Hline]%elem_of_app; [|set_solver].
          apply elem_of_union. right. by eapply Hinv.
        + intros Hrender Hinv q size Hq. apply elem_of_app.
          rewrite printed_rendered by (apply Hrender; [apply list_elem_of_here|done]).
          destruct (decide (p = q)) as [->|Hne].
          * rewrite lookup_insert_eq in Hq. injection Hq as <-. right. apply list_elem_of_here.
          * rewrite lookup_insert_ne in Hq by done. left. by apply Hinv.
      - split; [set_solver|]. split; [done|]. split; [by left|]. split.
        + intros Hinv q size [?|Hq%Hline]%elem_of_app; [by eapply Hinv|by destruct e].
        + intros _ Hinv q size Hq. apply elem_of_app. left. by apply Hinv. }
    destruct (printed p m).2 as [[]|e] eqn:Hres.
    + destruct (IH st1 st' r Hrun) as (Hdom & Hdel & (gone & Hgone & Hsub) & Hann & Hrep).
      split; [simpl; set_solver|]. split; [auto|]. split; [|split].
      * destruct H3 as [H3|H3]; rewrite Hgone, H3.
        -- exists gone. split; [done|]. simpl. by apply sublist_cons.
        -- exists (p :: gone). rewrite <- app_assoc. split; [done|]. simpl.
           by apply sublist_skip.
      * intros Hinv. apply Hann. by apply H4.
      * intros Hrender Hinv. apply Hrep; [|by apply H5].
        intros m' Hm'. apply Hrender. by apply list_elem_of_further.
    + injection Hrun as <- <-.
      split; [simpl; set_solver|]. split; [done|]. split; [|split; [done|by apply H5]].
      destruct H3 as [->| ->].
      * exists []. rewrite app_nil_r. split; [done|]. apply sublist_nil_l.
      * exists [p]. split; [done|]. simpl. apply sublist_skip, sublist_nil_l.
Qed.
End ExecutorFacts.

(** A path about which rich can read no line stops the loop: the
    [MarkupError] of the handler's own line leaves it, and the items after
    it are not attempted. *)
Lemma unreadable_path_stops_the_loop {world : Type} {os : OS world} {rich : Console}
    path expected_size items (st : state) :
  (forall m, message_path m = path -> markup_error m <> None) ->
  exists st' m text,
    for_each ((path, expected_size) :: items) st = (st', Raise (MarkupError text))
    /\ console st' = console st
    /\ turn st path m st'.
Proof.
  intros Hbad.
  destruct (remove_item_turn path expected_size st) as (st' & m & Hrun & Hc & Ht).
  pose proof (turn_path _ _ _ _ Ht) as Hp.
  rewrite for_each_cons, Hrun. unfold printed in *.
  destruct (markup_error m) as [text|] eqn:Hm; [|by destruct (Hbad m Hp)].
  destruct (is_failure m); simpl in *.
  - exists st', m, text. by rewrite Hc, app_nil_r.
  - destruct (markup_error (ErrorRemoving path text)) as [text'|] eqn:Hm';
      [|by destruct (Hbad (ErrorRemoving path text) eq_refl)].
    simpl in *. exists st', m, text'. by rewrite Hc, app_nil_r.
Qed.


(** The report does not depend on the sizes found by the scan. *)
Lemma report_ignores_expected_size {world : Type} {os : OS world} {rich : Console}
    (items : list (string * Z)) (w : world) :
  safe_remove_items items w = safe_remove_items (map (fun item => (item.1, 0)) items) w.
Proof.
  unfold safe_remove_items, bind. generalize (start w).
  induction items as [|[path expected_size] items IH]; intros st; [done|].
  rewrite map_cons, !for_each_cons.
  change (remove_item ((path, expected_size).1, 0) st)
    with (remove_item (path, expected_size) st).
  destruct (remove_item (path, expected_size) st) as [st' [[]|e]]; [apply IH|done].
Qed.

(** When rich renders the lines of the [try] body, every path of the
    report was announced as removed with that size. *)
Lemma reported_paths_were_announced {world : Type} {os : OS world} {rich : Console}
    (items : list (string * Z)) (st st' : state) r :
  renders items.*1 ->
  for_each items st = (st', r) ->
  (forall path size, removed st !! path = Some size -> Removed path size ∈ console st) ->
  forall path size, removed st' !! path = Some size -> Removed path size ∈ console st'.
Proof.
  intros Hrender Hrun. by apply (for_each_report items st st' r Hrun).
Qed.

(** C4 (the program departs from it).  A path that exists and is neither
    a regular file nor a directory, here a socket, is entered in the report
    with size 0 and announced as removed, although neither [os.remove] nor
    [shutil.rmtree] was called and the path still exists afterwards. *)
Theorem other_kind_reported_without_deletion :
  exists st,
    safe_remove_items [("/run/app.sock", 0)] SimOS.disk
    = (st, Ok {[ "/run/app.sock" := 0 ]})
    /\ console st = [Removed "/run/app.sock" 0]
    /\ deleted st = []
    /\ path_exists (fs st) "/run/app.sock" = true
    /\ path_isfile SimOS.disk "/run/app.sock" = false
    /\ path_isdir SimOS.disk "/run/app.sock" = false.
Proof. eexists. repeat split; vm_compute; reflexivity. Qed.

(** * Further properties *)

(** ** Indices and positions *)

Lemma parse_part_bounds max_items part more :
  parse_part max_items part = Some more ->
  Forall (fun i => 1 <= i <= max_items) more.
Proof.
  unfold parse_part. destruct (Py.contains_char "-" part).
  - destruct (Py.split_first "-" part) as [sa sb].
    destruct (Py.int sa) as [a|]; [|discriminate].
    destruct (Py.int sb) as [b|]; [|discriminate].
    destruct (_ && _)%bool eqn:Hr; [|discriminate]. intros [= <-].
    apply Forall_forall. intros i Hi%range_incl_elem. lia.
  - destruct (Py.int part) as [n|]; [|discriminate].
    destruct (_ && _)%bool eqn:Hr; [|discriminate]. intros [= <-].
    repeat constructor; lia.
Qed.

Lemma parse_parts_bounds max_items parts :
  forall indices result,
    Forall (fun i => 1 <= i <= max_items) indices ->
    parse_parts max_items indices parts = Some result ->
    Forall (fun i => 1 <= i <= max_items) result.
Proof.
  induction parts as [|part parts IH]; intros indices result Hacc; simpl.
  - by intros [= <-].
  - destruct (parse_part max_items part) as [more|] eqn:E; [|discriminate].
    apply IH. apply Forall_app. split; [done|]. by eapply parse_part_bounds.
Qed.

Lemma parse_selection_bounds selection max_items :
  Forall (fun i => 1 <= i <= max_items) (parse_selection selection max_items).
Proof.
  unfold parse_selection. destruct (String.eqb _ _).
  - apply Forall_forall. intros i Hi%range_incl_elem. lia.
  - destruct (parse_parts _ _ _) as [indices|] eqn:E; [|constructor].
    apply (parse_parts_bounds _ _ [] _ (Forall_nil_2 _)) in E.
    rewrite Forall_forall in E |- *. intros i Hi. apply E.
    rewrite sorted_Permutation in Hi. by apply elem_of_elements, elem_of_list_to_set in Hi.
Qed.

(** X1.  Every index [parse_selection] returns lies between 1 and
    [max_items], so it names an entry of a list of [max_items] entries:
    indexing the list with it never fails. *)
Theorem parse_selection_within_bounds {A : Type} selection (entries : list A) :
  Forall (fun i => 1 <= i <= Z.of_nat (length entries)
                   /\ is_Some (Py.index entries (i - 1)))
         (parse_selection selection (Z.of_nat (length entries))).
Proof.
  eapply Forall_impl; [apply parse_selection_bounds|].
  intros i Hi. simpl in Hi. split; [done|]. unfold Py.index.
  destruct (Z.leb_spec 0 (i - 1)); [|lia]. apply lookup_lt_is_Some_2. lia.
Qed.

Lemma survivors_ext {A} (S S' : list Z) pos (l : list A) :
  (forall j, pos <= j < pos + Z.of_nat (length l) -> j ∈ S <-> j ∈ S') ->
  survivors S pos l = survivors S' pos l.
Proof.
  revert pos. induction l as [|x l IH]; intros pos H; simpl; [done|].
  simpl in H. rewrite (IH (pos + 1)) by (intros j Hj; apply H; lia).
  assert (pos ∈ S <-> pos ∈ S') as Hpos by (apply H; lia).
  repeat case_bool_decide; tauto.
Qed.

Lemma picked_ext {A} (S S' : list Z) pos (l : list A) :
  (forall j, pos <= j < pos + Z.of_nat (length l) -> j ∈ S <-> j ∈ S') ->
  picked S pos l = picked S' pos l.
Proof.
  revert pos. induction l as [|x l IH]; intros pos H; simpl; [done|].
  simpl in H. rewrite (IH (pos + 1)) by (intros j Hj; apply H; lia).
  assert (pos ∈ S <-> pos ∈ S') as Hpos by (apply H; lia).
  repeat case_bool_decide; tauto.
Qed.

Lemma survivors_none {A} (S : list Z) pos (l : list A) :
  (forall j, pos <= j < pos + Z.of_nat (length l) -> j ∉ S) ->
  survivors S pos l = l.
Proof.
  revert pos. induction l as [|x l IH]; intros pos H; simpl; [done|].
  simpl in H. rewrite (IH (pos + 1)) by (intros j Hj; apply H; lia).
  case_bool_decide as Hin; [|done]. exfalso. apply (H pos); [lia|done].
Qed.

Lemma picked_none {A} (S : list Z) pos (l : list A) :
  (forall j, pos <= j < pos + Z.of_nat (length l) -> j ∉ S) ->
  picked S pos l = [].
Proof.
  revert pos. induction l as [|x l IH]; intros pos H; simpl; [done|].
  simpl in H. rewrite (IH (pos + 1)) by (intros j Hj; apply H; lia).
  case_bool_decide as Hin; [|done]. exfalso. apply (H pos); [lia|done].
Qed.

Lemma picked_all {A} (S : list Z) pos (l : list A) :
  (forall j, pos <= j < pos + Z.of_nat (length l) -> j ∈ S) ->
  picked S pos l = l.
Proof.
  revert pos. induction l as [|x l IH]; intros pos H; simpl; [done|].
  simpl in H. rewrite (IH (pos + 1)) by (intros j Hj; apply H; lia).
  case_bool_decide as Hin; [done|]. exfalso. apply Hin, H. lia.
Qed.

Lemma survivors_app {A} (S : list Z) pos (l1 l2 : list A) :
  survivors S pos (l1 ++ l2)
  = survivors S pos l1 ++ survivors S (pos + Z.of_nat (length l1)) l2.
Proof.
  revert pos. induction l1 as [|x l1 IH]; intros pos; simpl.
  - by rewrite Z.add_0_r.
  - rewrite IH. replace (pos + 1 + Z.of_nat (length l1)) with (pos + Z.pos (Pos.of_succ_nat (length l1))) by lia.
    by case_bool_decide.
Qed.

Lemma picked_app {A} (S : list Z) pos (l1 l2 : list A) :
  picked S pos (l1 ++ l2)
  = picked S pos l1 ++ picked S (pos + Z.of_nat (length l1)) l2.
Proof.
  revert pos. induction l1 as [|x l1 IH]; intros pos; simpl.
  - by rewrite Z.add_0_r.
  - rewrite IH. replace (pos + 1 + Z.of_nat (length l1)) with (pos + Z.pos (Pos.of_succ_nat (length l1))) by lia.
    by case_bool_decide.
Qed.

Lemma picked_sublist {A} (S : list Z) pos (l : list A) : picked S pos l `sublist_of` l.
Proof.
  revert pos. induction l as [|x l IH]; intros pos; simpl; [constructor|].
  case_bool_decide; [by apply sublist_skip|by apply sublist_cons].
Qed.

Lemma survivors_sublist {A} (S : list Z) pos (l : list A) : survivors S pos l `sublist_of` l.
Proof.
  revert pos. induction l as [|x l IH]; intros pos; simpl; [constructor|].
  case_bool_decide; [by apply sublist_cons|by apply sublist_skip].
Qed.

Lemma survivors_picked_length {A} (S : list Z) pos (l : list A) :
  (length (survivors S pos l) + length (picked S pos l) = length l)%nat.
Proof.
  revert pos. induction l as [|x l IH]; intros pos; simpl; [done|].
  specialize (IH (pos + 1)). case_bool_decide; simpl; lia.
Qed.

(** ** The list of exclusions *)

Lemma StronglySorted_ge_NoDup_gt (l : list Z) :
  StronglySorted Z.ge l -> NoDup l -> StronglySorted Z.gt l.
Proof.
  induction 1 as [|x l Hl IH Hx]; intros Hnd; [constructor|].
  apply NoDup_cons in Hnd as [Hx' Hnd]. constructor; [auto|].
  rewrite Forall_forall in Hx |- *. intros y Hy.
  specialize (Hx _ Hy). assert (x <> y) by (intros ->; done). lia.
Qed.

Lemma sorted_reverse_strict (indices : list Z) :
  NoDup indices -> StronglySorted Z.gt (Py.sorted id true indices).
Proof.
  intros Hnd. apply StronglySorted_ge_NoDup_gt.
  - eapply StronglySorted_mono; [|apply sorted_StronglySorted].
    intros x y. unfold in_order, Py.comes_before, id. lia.
  - by rewrite sorted_Permutation.
Qed.

Lemma pops_descending (s : list Z) :
  StronglySorted Z.gt s ->
  forall exclusions removed,
    fold_left Config.pop_valid s (exclusions, removed)
    = (survivors s 1 exclusions, removed ++ reverse (picked s 1 exclusions)).
Proof.
  induction 1 as [|i s Hs IH Hi]; intros l r; simpl.
  - rewrite survivors_none, picked_none by (intros j _; apply not_elem_of_nil).
    by rewrite app_nil_r.
  - rewrite Forall_forall in Hi.
    destruct ((1 <=? i) && (i <=? Z.of_nat (length l)))%bool eqn:Hvalid.
    + apply andb_prop in Hvalid as [H1%Z.leb_le H2%Z.leb_le].
      destruct (lookup_lt_is_Some_2 l (Z.to_nat (i - 1))) as [x Hx]; [lia|].
      rewrite Hx, IH.
      pose proof (take_drop_middle _ _ _ Hx) as Hl.
      set (l1 := take (Z.to_nat (i - 1)) l) in *.
      set (l2 := drop (S (Z.to_nat (i - 1))) l) in *.
      assert (length l1 = Z.to_nat (i - 1)) as Hlen
        by (unfold l1; rewrite length_take; apply lookup_lt_Some in Hx; lia).
      rewrite delete_take_drop. fold l1 l2. rewrite <- Hl.
      assert (Hbelow : forall j, 1 <= j < 1 + Z.of_nat (length l1) ->
                                 j ∈ s <-> j ∈ i :: s).
      { intros j Hj. rewrite elem_of_cons. split; [by right|].
        intros [->|]; [lia|done]. }
      assert (Habove : forall pos (k : list string), i <= pos ->
                forall j, pos <= j < pos + Z.of_nat (length k) -> j ∉ s).
      { intros pos k Hpos j Hj Hin. specialize (Hi _ Hin). lia. }
      rewrite !survivors_app, !picked_app. simpl.
      replace (1 + Z.of_nat (length l1)) with i by lia.
      rewrite (bool_decide_eq_true_2 (i ∈ i :: s)) by apply list_elem_of_here.
      rewrite (survivors_ext (i :: s) s 1 l1) by (intros j Hj; symmetry; by apply Hbelow).
      rewrite (picked_ext (i :: s) s 1 l1) by (intros j Hj; symmetry; by apply Hbelow).
      rewrite (survivors_none s i l2) by (apply Habove; lia).
      rewrite (picked_none s i l2) by (apply Habove; lia).
      rewrite (survivors_none (i :: s) (i + 1) l2), (picked_none (i :: s) (i + 1) l2).
      * rewrite app_nil_r, reverse_app. simpl. by rewrite <- app_assoc.
      * intros j Hj [->|Hin]%elem_of_cons; [lia|]. specialize (Hi _ Hin). lia.
      * intros j Hj [->|Hin]%elem_of_cons; [lia|]. specialize (Hi _ Hin). lia.
    + rewrite IH.
      assert (Hout : forall j, 1 <= j < 1 + Z.of_nat (length l) -> j ∈ i :: s <-> j ∈ s).
      { intros j Hj. rewrite elem_of_cons. split; [|by right].
        intros [->|]; [|done]. apply andb_false_iff in Hvalid as [?%Z.leb_gt|?%Z.leb_gt]; lia. }
      by rewrite (survivors_ext (i :: s) s), (picked_ext (i :: s) s).
Qed.

Lemma remove_exclusions_positions indices exclusions :
  NoDup indices ->
  Config.remove_exclusions indices exclusions
  = (survivors indices 1 exclusions, reverse (picked indices 1 exclusions)).
Proof.
  intros Hnd. unfold Config.remove_exclusions.
  rewrite (pops_descending _ (sorted_reverse_strict _ Hnd)). simpl.
  f_equal; [apply survivors_ext|f_equal; apply picked_ext];
    intros j _; by rewrite sorted_Permutation.
Qed.

(** X2.  [remove_exclusions] given indices without repetition leaves the
    patterns whose 1-based position is not among the indices, in their
    order, and returns the patterns at the positions that are, last
    position first; indices outside the list are ignored, and no pattern
    is lost: what is left and what is returned make up the list. *)
Theorem remove_exclusions_by_position indices exclusions :
  NoDup indices ->
  Config.remove_exclusions indices exclusions
  = (survivors indices 1 exclusions, reverse (picked indices 1 exclusions))
  /\ (Config.remove_exclusions indices exclusions).1 `sublist_of` exclusions
  /\ (length (Config.remove_exclusions indices exclusions).1
      + length (Config.remove_exclusions indices exclusions).2
      = length exclusions)%nat.
Proof.
  intros Hnd. rewrite (remove_exclusions_positions _ _ Hnd). simpl.
  split; [done|]. split; [apply survivors_sublist|].
  rewrite length_reverse. apply survivors_picked_length.
Qed.

Lemma remove_exclusions_by_position_witness :
  Config.remove_exclusions [4; 1; 9] ["/proc"; "/sys"; "/dev"; "/run"]
  = (["/sys"; "/dev"], ["/run"; "/proc"]).
Proof.
  rewrite (proj1 (remove_exclusions_by_position
                    [4; 1; 9] ["/proc"; "/sys"; "/dev"; "/run"]
                    ltac:(repeat constructor; not_in_list))).
  reflexivity.
Defined.

Lemma first_new_spec patterns :
  forall exclusions,
    NoDup (first_new exclusions patterns)
    /\ first_new exclusions patterns `sublist_of` patterns
    /\ (forall p, p ∈ first_new exclusions patterns <-> p ∈ patterns /\ p ∉ exclusions).
Proof.
  induction patterns as [|q patterns IH]; intros exclusions; simpl.
  - split; [constructor|]. split; [constructor|].
    intros p. rewrite elem_of_nil. tauto.
  - destruct (IH exclusions) as (Hnd & Hsub & Hin).
    destruct (IH (exclusions ++ [q])) as (Hnd' & Hsub' & Hin').
    case_bool_decide as Hq.
    + split; [done|]. split; [by apply sublist_cons|].
      intros p. rewrite Hin, elem_of_cons. split; [tauto|].
      intros [[->|?] ?]; tauto.
    + split.
      * constructor; [|done]. rewrite Hin', elem_of_app, list_elem_of_singleton. tauto.
      * split; [by apply sublist_skip|].
        intros p. rewrite !elem_of_cons, Hin', elem_of_app, list_elem_of_singleton.
        destruct (decide (p = q)) as [->|]; tauto.
Qed.

Lemma cmd_exclude_add_first_new patterns :
  forall exclusions added,
    fold_left Cli.add_one patterns (exclusions, added)
    = (exclusions ++ first_new exclusions patterns,
       added ++ first_new exclusions patterns).
Proof.
  induction patterns as [|q patterns IH]; intros exclusions added; simpl.
  - by rewrite !app_nil_r.
  - unfold Config.add_exclusion. case_bool_decide; rewrite IH; [done|].
    by rewrite <- !app_assoc.
Qed.

(** X3.  [add_exclusion] appends a pattern that is not in the list and
    answers [True]; it leaves the list alone and answers [False] when the
    pattern is there already, so adding the same pattern again changes
    nothing, and a list without repetition stays so. *)
Theorem add_exclusion_once pattern exclusions :
  pattern ∈ (Config.add_exclusion pattern exclusions).1
  /\ exclusions `prefix_of` (Config.add_exclusion pattern exclusions).1
  /\ ((Config.add_exclusion pattern exclusions).2 = true <-> pattern ∉ exclusions)
  /\ Config.add_exclusion pattern (Config.add_exclusion pattern exclusions).1
     = ((Config.add_exclusion pattern exclusions).1, false)
  /\ (NoDup exclusions -> NoDup (Config.add_exclusion pattern exclusions).1).
Proof.
  unfold Config.add_exclusion. case_bool_decide as Hin; simpl.
  - rewrite bool_decide_eq_true_2 by done. repeat split; done.
  - rewrite bool_decide_eq_true_2 by (apply elem_of_app; right; apply list_elem_of_here).
    repeat split; try done.
    + apply elem_of_app. right. apply list_elem_of_here.
    + by exists [pattern].
    + intros Hnd. apply NoDup_app. repeat split; [done| |apply NoDup_singleton].
      intros x Hx ->%list_elem_of_singleton. done.
Qed.

Lemma add_exclusion_once_witness :
  NoDup (Config.add_exclusion "/tmp/*" ["/proc"; "/sys"]).1.
Proof.
  apply (proj2 (proj2 (proj2 (proj2 (add_exclusion_once "/tmp/*" ["/proc"; "/sys"]))))).
  repeat constructor; not_in_list.
Defined.

(** X4.  [cmd_exclude_add] appends to the list exactly the given patterns
    that were not in it, each once and in the order of their first
    occurrence, and reports those as added: afterwards every given pattern
    is in the list, the old entries keep their places, and a list without
    repetition stays so. *)
Theorem cmd_exclude_add_appends_new patterns exclusions :
  (Cli.cmd_exclude_add patterns exclusions).1
  = exclusions ++ (Cli.cmd_exclude_add patterns exclusions).2
  /\ NoDup (Cli.cmd_exclude_add patterns exclusions).2
  /\ (Cli.cmd_exclude_add patterns exclusions).2 `sublist_of` patterns
  /\ (forall p, p ∈ (Cli.cmd_exclude_add patterns exclusions).2
                <-> p ∈ patterns /\ p ∉ exclusions)
  /\ Forall (fun p => p ∈ (Cli.cmd_exclude_add patterns exclusions).1) patterns
  /\ (NoDup exclusions -> NoDup (Cli.cmd_exclude_add patterns exclusions).1).
Proof.
  unfold Cli.cmd_exclude_add. rewrite cmd_exclude_add_first_new. simpl.
  destruct (first_new_spec patterns exclusions) as (Hnd & Hsub & Hin).
  repeat split; try done; try (by apply Hin).
  - apply Forall_forall. intros p Hp. apply elem_of_app.
    destruct (decide (p ∈ exclusions)); [by left|right]. by apply Hin.
  - intros Hex. apply NoDup_app. repeat split; [done| |done].
    intros x Hx Hx'%Hin. tauto.
Qed.

Lemma cmd_exclude_add_appends_new_witness :
  Cli.cmd_exclude_add ["/tmp/*"; "/proc"; "/tmp/*"] ["/proc"; "/sys"]
  = (["/proc"; "/sys"; "/tmp/*"], ["/tmp/*"])
  /\ NoDup (Cli.cmd_exclude_add ["/tmp/*"; "/proc"; "/tmp/*"] ["/proc"; "/sys"]).1.
Proof.
  split; [reflexivity|].
  apply (cmd_exclude_add_appends_new ["/tmp/*"; "/proc"; "/tmp/*"] ["/proc"; "/sys"]).
  repeat constructor; not_in_list.
Defined.

(** Indices that are strictly ascending and within the list pick one
    element each, in the order of the list. *)
Lemma lookup_shift {A} (x : A) (l : list A) pos (idx : list Z) (k : list A) :
  Forall (fun i => pos + 1 <= i) idx ->
  Forall2 (fun i y => l !! Z.to_nat (i - (pos + 1)) = Some y) idx k ->
  Forall2 (fun i y => (x :: l) !! Z.to_nat (i - pos) = Some y) idx k.
Proof.
  intros Hge H. induction H as [|i y idx k Hi H IH]; [constructor|].
  apply Forall_cons in Hge as [Hpos Hge]. constructor; [|by apply IH].
  replace (Z.to_nat (i - pos)) with (S (Z.to_nat (i - (pos + 1)))) by lia. done.
Qed.

Lemma lookup_picked {A} (l : list A) :
  forall idx pos,
    StronglySorted Z.lt idx ->
    Forall (fun i => pos <= i < pos + Z.of_nat (length l)) idx ->
    Forall2 (fun i y => l !! Z.to_nat (i - pos) = Some y) idx (picked idx pos l).
Proof.
  induction l as [|x l IH]; intros idx pos Hs Hb.
  - destruct idx as [|i idx]; [constructor|].
    apply Forall_cons in Hb as [Hi _]. simpl in Hi. lia.
  - simpl. case_bool_decide as Hin.
    + destruct idx as [|i idx]; [by apply elem_of_nil in Hin|].
      apply StronglySorted_inv in Hs as [Hs Hi]. apply Forall_cons in Hb as [Hbi Hb].
      rewrite Forall_forall in Hi.
      assert (i = pos) as ->.
      { apply elem_of_cons in Hin as [->|Hin]; [done|]. specialize (Hi _ Hin). lia. }
      assert (Forall (fun j => pos + 1 <= j < pos + 1 + Z.of_nat (length l)) idx) as Hb'.
      { rewrite Forall_forall in Hb |- *. intros j Hj. specialize (Hi _ Hj).
        specialize (Hb _ Hj). simpl in Hb. lia. }
      constructor; [by rewrite Z.sub_diag|].
      apply lookup_shift; [eapply Forall_impl; [exact Hb'|]; intros; simpl in *; lia|].
      rewrite (picked_ext (pos :: idx) idx); [by apply IH|].
      intros j Hj. rewrite elem_of_cons. split; [|by right].
      intros [->|]; [lia|done].
    + assert (Forall (fun j => pos + 1 <= j < pos + 1 + Z.of_nat (length l)) idx) as Hb'.
      { rewrite Forall_forall in Hb |- *. intros j Hj. specialize (Hb _ Hj). simpl in Hb.
        assert (j <> pos) by (intros ->; done). lia. }
      apply lookup_shift; [eapply Forall_impl; [exact Hb'|]; intros; simpl in *; lia|].
      by apply IH.
Qed.

Lemma index_picked {A} (l : list A) (idx : list Z) :
  StronglySorted Z.lt idx ->
  Forall (fun i => 1 <= i <= Z.of_nat (length l)) idx ->
  mapM (fun i => Py.index l (i - 1)) idx = Some (picked idx 1 l)
  /\ length (picked idx 1 l) = length idx.
Proof.
  intros Hs Hb.
  assert (mapM (fun i => Py.index l (i - 1)) idx = Some (picked idx 1 l)) as H.
  { apply mapM_Some_2.
    assert (Forall2 (fun i y => l !! Z.to_nat (i - 1) = Some y) idx (picked idx 1 l)) as H2.
    { apply lookup_picked; [done|]. eapply Forall_impl; [exact Hb|]. intros; simpl in *; lia. }
    clear Hs. induction H2 as [|i y idx' k Hy H2 IH]; [constructor|].
    apply Forall_cons in Hb as [Hi Hb]. constructor; [|by apply IH].
    unfold Py.index. destruct (Z.leb_spec 0 (i - 1)); [done|lia]. }
  split; [done|]. symmetry. by eapply length_mapM.
Qed.

(** X5.  [cmd_exclude_remove] removes from the list the patterns at the
    positions [parse_selection] reads from the selection, and no others:
    the patterns at the other positions stay in their order, as many
    patterns are reported as indices were selected, [all] empties the list,
    and a selection that is rejected leaves the list as it is. *)
Theorem cmd_exclude_remove_by_selection selection exclusions :
  Cli.cmd_exclude_remove selection exclusions
  = (survivors (parse_selection selection (Z.of_nat (length exclusions))) 1 exclusions,
     reverse (picked (parse_selection selection (Z.of_nat (length exclusions))) 1 exclusions))
  /\ length (Cli.cmd_exclude_remove selection exclusions).2
     = length (parse_selection selection (Z.of_nat (length exclusions)))
  /\ (Py.lower selection = "all" ->
      Cli.cmd_exclude_remove selection exclusions = ([], reverse exclusions))
  /\ (parse_selection selection (Z.of_nat (length exclusions)) = [] ->
      Cli.cmd_exclude_remove selection exclusions = (exclusions, [])).
Proof.
  set (idx := parse_selection selection (Z.of_nat (length exclusions))).
  assert (Hs : StronglySorted Z.lt idx) by apply parse_selection_strict.
  assert (Hb : Forall (fun i => 1 <= i <= Z.of_nat (length exclusions)) idx)
    by apply parse_selection_bounds.
  assert (Hnone : forall (l : list string), survivors [] 1 l = l /\ picked [] 1 l = []).
  { intros l. split; [apply survivors_none|apply picked_none];
      intros j _; apply not_elem_of_nil. }
  assert (Hmain : Cli.cmd_exclude_remove selection exclusions
                  = (survivors idx 1 exclusions, reverse (picked idx 1 exclusions))).
  { unfold Cli.cmd_exclude_remove. fold idx.
    destruct exclusions as [|e exclusions]; [done|].
    destruct selection as [|c selection].
    - assert (idx = []) as -> by done. by destruct (Hnone (e :: exclusions)) as [-> ->].
    - destruct idx as [|i idx'] eqn:Hidx.
      + by destruct (Hnone (e :: exclusions)) as [-> ->].
      + apply remove_exclusions_positions. by apply StronglySorted_lt_NoDup. }
  split; [exact Hmain|]. split; [|split].
  - rewrite Hmain. simpl. rewrite length_reverse.
    by destruct (index_picked exclusions idx Hs Hb) as [_ ->].
  - intros Hall. rewrite Hmain.
    assert (forall j, 1 <= j < 1 + Z.of_nat (length exclusions) -> j ∈ idx) as Hin.
    { intros j Hj. unfold idx, parse_selection. rewrite Hall. simpl.
      apply range_incl_elem. lia. }
    rewrite (picked_all idx 1 exclusions Hin).
    pose proof (survivors_picked_length idx 1 exclusions) as Hlen.
    rewrite (picked_all idx 1 exclusions Hin) in Hlen.
    destruct (survivors idx 1 exclusions); [done|simpl in Hlen; lia].
  - intros Hnil. rewrite Hmain. fold idx in Hnil. rewrite Hnil.
    by destruct (Hnone exclusions) as [-> ->].
Qed.

Lemma cmd_exclude_remove_by_selection_witness :
  Cli.cmd_exclude_remove "ALL" ["/proc"; "/sys"] = ([], ["/sys"; "/proc"])
  /\ Cli.cmd_exclude_remove "3" ["/proc"; "/sys"] = (["/proc"; "/sys"], []).
Proof.
  split.
  - apply (proj1 (proj2 (proj2 (cmd_exclude_remove_by_selection "ALL" ["/proc"; "/sys"])))).
    reflexivity.
  - apply (proj2 (proj2 (proj2 (cmd_exclude_remove_by_selection "3" ["/proc"; "/sys"])))).
    reflexivity.
Defined.

(** ** Picking entries *)

(** X6.  The items [interactive_selection] picks for an answer exist:
    indexing never fails.  They are the displayed entries at the selected
    positions, in display order and each once, as many as indices were
    selected, and [all] picks everything displayed. *)
Theorem selected_items_are_displayed results max_display selection :
  exists items,
    Cli.selected_items results max_display selection = Some items
    /\ items = picked (parse_selection selection
                         (Z.of_nat (length (Py.slice_to max_display results))))
                      1 (Py.slice_to max_display results)
    /\ items `sublist_of` Py.slice_to max_display results
    /\ items `sublist_of` results
    /\ length items
       = length (parse_selection selection
                   (Z.of_nat (length (Py.slice_to max_display results))))
    /\ (Py.lower selection = "all" -> items = Py.slice_to max_display results).
Proof.
  unfold Cli.selected_items.
  set (shown := Py.slice_to max_display results).
  set (idx := parse_selection selection (Z.of_nat (length shown))).
  destruct (index_picked shown idx) as [Hpick Hlen];
    [apply parse_selection_strict|apply parse_selection_bounds|].
  exists (picked idx 1 shown). split; [done|]. split; [done|].
  split; [apply picked_sublist|]. split; [|split; [done|]].
  - transitivity shown; [apply picked_sublist|].
    unfold shown, Py.slice_to. destruct (0 <=? max_display); apply sublist_take.
  - intros Hall. apply picked_all. intros j Hj.
    unfold idx, parse_selection. rewrite Hall. simpl. apply range_incl_elem. lia.
Qed.

Lemma selected_items_are_displayed_witness :
  Cli.selected_items [("/a", 30); ("/b", 20); ("/c", 10)] 2 "All"
  = Some [("/a", 30); ("/b", 20)].
Proof.
  destruct (selected_items_are_displayed [("/a", 30); ("/b", 20); ("/c", 10)] 2 "All")
    as (items & -> & _ & _ & _ & _ & Hall).
  by rewrite (Hall eq_refl).
Defined.

(** X7.  The rows of the live table are a front part of the ranked
    results: they are in descending order of size, every entry left out is
    no larger than any row, and for a count that is not negative there are
    as many rows as asked for, or all entries when there are fewer. *)
Theorem top_entries_are_largest results max_entries :
  exists rest,
    Py.sorted snd true results = Cli.top_entries results max_entries ++ rest
    /\ results ≡ₚ Cli.top_entries results max_entries ++ rest
    /\ StronglySorted (fun a b : string * Z => b.2 <= a.2)
                      (Cli.top_entries results max_entries)
    /\ Forall (fun a : string * Z => Forall (fun b : string * Z => b.2 <= a.2) rest)
              (Cli.top_entries results max_entries)
    /\ (0 <= max_entries ->
        length (Cli.top_entries results max_entries)
        = Nat.min (Z.to_nat max_entries) (length results)).
Proof.
  unfold Cli.top_entries.
  assert (Hsorted : StronglySorted (fun a b : string * Z => b.2 <= a.2)
                      (Py.sorted snd true results)).
  { eapply StronglySorted_mono; [|apply sorted_StronglySorted].
    intros x y. unfold in_order, Py.comes_before. simpl. lia. }
  assert (Hk : exists k, Py.slice_to max_entries (Py.sorted snd true results)
                         = take k (Py.sorted snd true results)
                         /\ (0 <= max_entries -> k = Z.to_nat max_entries)).
  { unfold Py.slice_to. destruct (Z.leb_spec 0 max_entries).
    - by eexists.
    - eexists. split; [done|lia]. }
  destruct Hk as (k & -> & Hkn).
  exists (drop k (Py.sorted snd true results)).
  rewrite take_drop. split; [done|]. split; [by rewrite sorted_Permutation|].
  rewrite <- (take_drop k (Py.sorted snd true results)) in Hsorted.
  apply StronglySorted_app in Hsorted as (Hcross & Htake & Hdrop).
  split; [done|]. split; [|].
  - apply Forall_forall. intros a Ha. apply Forall_forall. intros b Hb. by apply Hcross.
  - intros Hpos. rewrite length_take, (Hkn Hpos).
    by rewrite (Permutation_length (sorted_Permutation snd true results)).
Qed.

Lemma top_entries_are_largest_witness :
  length (Cli.top_entries [("/a", 10); ("/b", 30); ("/c", 20)] 2) = 2%nat.
Proof.
  destruct (top_entries_are_largest [("/a", 10); ("/b", 30); ("/c", 20)] 2)
    as (rest & _ & _ & _ & _ & Hlen).
  rewrite Hlen by lia. reflexivity.
Defined.

(** ** Asking about entries one by one *)

Lemma mapM_option_app {A B} (f : A -> option B) (l1 l2 : list A) :
  mapM f (l1 ++ l2)
  = (targets ← mapM f l1; others ← mapM f l2; Some (targets ++ others)).
Proof.
  induction l1 as [|x l1 IH]; simpl.
  - by destruct (mapM f l2).
  - destruct (f x); simpl; [|done]. rewrite IH.
    destruct (mapM f l1); simpl; [|done]. by destruct (mapM f l2).
Qed.

(** X8.  [prompt_deletion] of [_diskface.py] skips an index outside the
    list on its own: the entries it asks about are those at the indices
    within the list, in the order of the answer, looking them up never
    fails, and what an answer in two parts asks about is what the parts
    ask about, one after the other. *)
Theorem prompt_targets_skip_out_of_range {A : Type} (results : list A) (indices more : list Z) :
  (exists targets,
      DiskFace3.prompt_targets results indices = Some targets
      /\ Forall (fun t => t ∈ results) targets
      /\ (length targets <= length indices)%nat
      /\ (Forall (fun i => 1 <= i <= Z.of_nat (length results)) indices ->
          length targets = length indices))
  /\ DiskFace3.prompt_targets results (indices ++ more)
     = (targets ← DiskFace3.prompt_targets results indices;
        others ← DiskFace3.prompt_targets results more;
        Some (targets ++ others)).
Proof.
  assert (Htotal : forall idx, exists targets,
             DiskFace3.prompt_targets results idx = Some targets
             /\ Forall (fun t => t ∈ results) targets
             /\ (length targets <= length idx)%nat
             /\ (Forall (fun i => 1 <= i <= Z.of_nat (length results)) idx ->
                 length targets = length idx)).
  { intros idx. unfold DiskFace3.prompt_targets.
    induction idx as [|i idx (targets & IH & Hin & Hlen & Hall)]; simpl.
    - exists []. repeat split; [constructor|done].
    - destruct ((1 <=? i) && (i <=? Z.of_nat (length results)))%bool eqn:Hvalid.
      + apply andb_prop in Hvalid as [H1%Z.leb_le H2%Z.leb_le].
        destruct (lookup_lt_is_Some_2 results (Z.to_nat (i - 1))) as [x Hx]; [lia|].
        exists (x :: targets). simpl. rewrite IH. unfold Py.index at 1.
        destruct (Z.leb_spec 0 (i - 1)); [|lia]. rewrite Hx. simpl.
        split; [done|]. split; [|split].
        * constructor; [|done]. by eapply list_elem_of_lookup_2.
        * simpl. lia.
        * intros [_ Hrest]%Forall_cons. simpl. by rewrite (Hall Hrest).
      + exists targets. split; [done|]. split; [done|]. split; [simpl; lia|].
        intros [Hi _]%Forall_cons.
        apply andb_false_iff in Hvalid as [?%Z.leb_gt|?%Z.leb_gt]; lia. }
  split; [apply Htotal|].
  unfold DiskFace3.prompt_targets. by rewrite List.filter_app, mapM_option_app.
Qed.

Lemma prompt_targets_skip_out_of_range_witness :
  DiskFace3.prompt_targets ["/a"; "/b"; "/c"] [3; 7; 1] = Some ["/c"; "/a"].
Proof.
  change [3; 7; 1] with ([3; 7] ++ [1]).
  destruct (prompt_targets_skip_out_of_range ["/a"; "/b"; "/c"] [3; 7] [1]) as [_ ->].
  reflexivity.
Defined.

(** ** The report of a removal *)

Section ReportFacts.
Context {world : Type} {os : OS world} {rich : Console}.

Lemma for_each_skips items :
  forall st : state,
    Forall (fun item => path_exists (fs st) item.1 = false) items ->
    Forall (fun item => markup_error (Skipping item.1) = None) items ->
    for_each items st
    = ({| fs := fs st; removed := removed st;
          console := console st ++ map (fun item => Skipping item.1) items;
          deleted := deleted st |}, Ok tt).
Proof.
  induction items as [|[path expected_size] items IH]; intros st Hall Hrender.
  - simpl. rewrite app_nil_r. by destruct st.
  - apply Forall_cons in Hall as [Hhere Hall]. simpl in Hhere.
    apply Forall_cons in Hrender as [Hline Hrender]. simpl in Hline.
    rewrite for_each_cons.
    assert (remove_item (path, expected_size) st
            = ({| fs := fs st; removed := removed st;
                  console := console st ++ [Skipping path];
                  deleted := deleted st |}, Ok tt)) as ->.
    { cbv [remove_item catch try_remove bind query print]. by rewrite Hhere, Hline. }
    rewrite IH by done. simpl. by rewrite <- app_assoc.
Qed.

(** Missing items leave the filesystem, the report and the deletions as
    they are, whatever is printed or raised. *)
Lemma for_each_missing items :
  forall (st st' : state) r,
    Forall (fun item => path_exists (fs st) item.1 = false) items ->
    for_each items st = (st', r) ->
    fs st' = fs st /\ removed st' = removed st /\ deleted st' = deleted st.
Proof.
  induction items as [|[path expected_size] items IH]; intros st st' r Hall Hrun.
  - by injection Hrun as <- <-.
  - apply Forall_cons in Hall as [Hhere Hall]. simpl in Hhere.
    rewrite for_each_cons in Hrun.
    destruct (remove_item_turn path expected_size st) as (st1 & m & Hst1 & _ & Ht).
    rewrite Hst1 in Hrun.
    assert (fs st1 = fs st /\ removed st1 = removed st /\ deleted st1 = deleted st)
      as (Hf & Hr & Hd) by (destruct Ht; [done|congruence..]).
    destruct (printed path m).2 as [[]|e].
    + rewrite <- Hf, <- Hr, <- Hd. apply (IH st1 st' r); [by rewrite Hf|done].
    + by injection Hrun as <- <-.
Qed.

(** X9.  Items whose paths do not exist leave the filesystem as it was:
    nothing is deleted and nothing enters the report, whatever is printed
    or raised, and a report that comes back is empty.  When rich renders
    the line that tells of each skipped path, the items are skipped one by
    one, one line each, and the empty report comes back. *)
Theorem missing_items_leave_everything (items : list (string * Z)) (w : world) :
  Forall (fun item => path_exists w item.1 = false) items ->
  (forall st r,
      safe_remove_items items w = (st, r) ->
      fs st = w /\ removed st = ∅ /\ deleted st = []
      /\ forall report, r = Ok report -> report = ∅)
  /\ (Forall (fun item => markup_error (Skipping item.1) = None) items ->
      safe_remove_items items w
      = ({| fs := w; removed := ∅;
            console := map (fun item => Skipping item.1) items;
            deleted := [] |}, Ok ∅)).
Proof.
  intros Hall. split.
  - intros st r. unfold safe_remove_items, bind.
    destruct (for_each items (start w)) as [st0 [[]|e]] eqn:Hrun;
      intros [= <- <-];
      destruct (for_each_missing items (start w) st0 _ Hall Hrun) as (Hf & Hr & Hd);
      repeat split; try done.
    intros report [= <-]. done.
  - intros Hrender. unfold safe_remove_items, bind.
    by rewrite (for_each_skips items (start w) Hall Hrender).
Qed.

(** X10.  Whether [safe_remove_items] returns or raises: what it returns
    is its dictionary; the dictionary holds paths of the given items only;
    every path for which [os.remove] or [shutil.rmtree] returned normally
    is in it, those deletions happened in the order of the items, and
    every path announced as removed is in it; when rich renders the lines
    of the [try] body, every entry was announced as removed with its size.
    Each item, from the state the items before it leave, gets one turn:
    a regular file is recorded with the size read before it is removed, a
    directory with the sum of the sizes of the files below it that are no
    symbolic links, a failing deletion records nothing; the line of the
    turn is printed when rich renders it. *)
Theorem report_accounts_for_deletions (items : list (string * Z)) (w : world) :
  (forall st r,
      safe_remove_items items w = (st, r) ->
      (forall report, r = Ok report -> report = removed st)
      /\ dom (removed st) ⊆ list_to_set items.*1
      /\ Forall (fun p => p ∈ dom (removed st)) (deleted st)
      /\ deleted st `sublist_of` items.*1
      /\ (forall p size, Removed p size ∈ console st -> p ∈ dom (removed st))
      /\ (renders items.*1 ->
          map_Forall (fun p size => Removed p size ∈ console st) (removed st)))
  /\ (forall before path expected_size after st1,
        items = before ++ (path, expected_size) :: after ->
        for_each before (start w) = (st1, Ok tt) ->
        exists st2 m,
          remove_item (path, expected_size) st1 = (st2, (printed path m).2)
          /\ console st2 = console st1 ++ (printed path m).1
          /\ turn st1 path m st2
          /\ (markup_error m = None ->
              remove_item (path, expected_size) st1 = (st2, Ok tt)
              /\ console st2 = console st1 ++ [m])).
Proof.
  split.
  - intros st r. unfold safe_remove_items, bind.
    assert (forall st0 r0, for_each items (start w) = (st0, r0) ->
              dom (removed st0) ⊆ list_to_set items.*1
              /\ Forall (fun p => p ∈ dom (removed st0)) (deleted st0)
              /\ deleted st0 `sublist_of` items.*1
              /\ (forall p size, Removed p size ∈ console st0 -> p ∈ dom (removed st0))
              /\ (renders items.*1 ->
                  map_Forall (fun p size => Removed p size ∈ console st0) (removed st0)))
      as Hfacts.
    { intros st0 r0 Hrun.
      destruct (for_each_report items _ _ _ Hrun)
        as (Hdom & Hdel & (gone & Hgone & Hsub) & Hann & Hrep).
      simpl in *. split; [set_solver|]. split; [by apply Hdel|].
      split; [by rewrite Hgone|]. split.
      - apply Hann. by intros p size ?%elem_of_nil.
      - intros Hrender p size Hp. by apply Hrep. }
    destruct (for_each items (start w)) as [st0 [[]|e]] eqn:Hrun; intros [= <- <-];
      (split; [|by apply (Hfacts st0 _ eq_refl)]).
    + by intros report [= <-].
    + by intros report [=].
  - intros before path expected_size after st1 -> Hbefore.
    destruct (remove_item_turn path expected_size st1) as (st2 & m & Hrun & Hc & Ht).
    exists st2, m. do 3 (split; [done|]).
    intros Hm. rewrite (printed_rendered path m Hm) in Hrun, Hc. done.
Qed.
End ReportFacts.

Lemma missing_items_leave_everything_witness :
  safe_remove_items [("/gone", 7); ("/nowhere", 3)] SimOS.disk
  = ({| fs := SimOS.disk; removed := ∅;
        console := [Skipping "/gone"; Skipping "/nowhere"]; deleted := [] |}, Ok ∅).
Proof.
  apply (missing_items_leave_everything [("/gone", 7); ("/nowhere", 3)] SimOS.disk);
    repeat constructor.
Defined.

(** ** Scans compared *)

Lemma os_walk_ext keep1 keep2 :
  (forall top d, keep1 top d = keep2 top d) ->
  forall fs root, os_walk keep1 root fs = os_walk keep2 root fs.
Proof.
  intros Hext fs. induction fs as [link size|link|link es IH] using node_induction;
    intros root; [done|done|].
  rewrite !os_walk_dir.
  assert (filter (fun d => keep1 root d) (dirnames_of es)
          = filter (fun d => keep2 root d) (dirnames_of es)) as ->.
  { apply list_filter_iff. intros d. by rewrite Hext. }
  f_equal. unfold walk_children. clear -IH Hext.
  induction IH as [|[name child] es Hchild _ IHes]; simpl; [done|].
  rewrite IHes, Hext. simpl in Hchild. by rewrite Hchild.
Qed.

(** A walk that keeps fewer directory names visits no directory the other
    does not visit, and finds the same file names there. *)
Lemma os_walk_mono keep1 keep2 :
  (forall top d, keep2 top d = true -> keep1 top d = true) ->
  forall fs root dirpath dirnames filenames,
    (dirpath, dirnames, filenames) ∈ os_walk keep2 root fs ->
    exists dirnames', (dirpath, dirnames', filenames) ∈ os_walk keep1 root fs.
Proof.
  intros Hmono fs. induction fs as [link size|link|link es IH] using node_induction;
    intros root dirpath dirnames filenames Hy;
    [by apply elem_of_nil in Hy|by apply elem_of_nil in Hy|].
  rewrite os_walk_dir in Hy. apply elem_of_cons in Hy as [[= -> -> ->]|Hy].
  - eexists. rewrite os_walk_dir. apply list_elem_of_here.
  - apply elem_of_walk_children in Hy as (name & child & Hin & Hd & Hkeep & Hl & Hy).
    rewrite Forall_forall in IH. destruct (IH _ Hin _ _ _ _ Hy) as [dirnames' Hy'].
    exists dirnames'. rewrite os_walk_dir. apply list_elem_of_further.
    apply elem_of_walk_children. exists name, child. auto.
Qed.

Lemma os_walk_sublist keep1 keep2 :
  (forall top d, keep2 top d = true -> keep1 top d = true) ->
  forall fs root,
    map (fun y : yielded => (y.1.1, y.2)) (os_walk keep2 root fs)
    `sublist_of` map (fun y : yielded => (y.1.1, y.2)) (os_walk keep1 root fs).
Proof.
  intros Hmono fs. induction fs as [link size|link|link es IH] using node_induction;
    intros root; [done|done|].
  rewrite !os_walk_dir, !map_cons. apply sublist_skip. unfold walk_children.
  induction IH as [|[name child] es Hchild _ IHes]; [done|].
  simpl. rewrite !map_app. apply sublist_app; [|done].
  destruct (is_dir child); [|done]. simpl in *.
  destruct (keep2 root name) eqn:Hk2.
  - rewrite (Hmono _ _ Hk2). simpl. destruct (is_link child); [done|]. apply Hchild.
  - apply sublist_nil_l.
Qed.

Lemma found_at_nonneg root fs path n :
  found_at root fs path n -> sizes_nonneg fs -> sizes_nonneg n.
Proof.
  induction 1 as [|top link es name child path n Hin _ IH]; [done|].
  intros Hnn. inversion Hnn as [| |? ? Hall]; subst. apply IH.
  rewrite Forall_forall in Hall. apply (Hall _ Hin).
Qed.

Lemma filenames_nonneg es :
  Forall (fun e : string * node => sizes_nonneg e.2) es ->
  Forall (fun f : file_info => forall sz, f.2 = Some sz -> 0 <= sz) (filenames_of es).
Proof.
  induction 1 as [|[name [link size|link entries]] es Hn _ IH]; simpl; [constructor| |done].
  constructor; [|done]. simpl in *. by inversion Hn.
Qed.

Lemma walked_files_nonneg keep root fs dirpath dirnames filenames :
  sizes_nonneg fs ->
  (dirpath, dirnames, filenames) ∈ os_walk keep root fs ->
  Forall (fun f : file_info => forall sz, f.2 = Some sz -> 0 <= sz) filenames.
Proof.
  intros Hnn Hy.
  destruct (os_walk_reached _ _ _ _ _ _ Hy) as (_ & link & es & _ & _ & Hf & _ & ->).
  apply filenames_nonneg. pose proof (found_at_nonneg _ _ _ _ Hf Hnn) as Hd.
  by inversion Hd.
Qed.

Section Exclusions.
Variable cfg : settings.
Variables excl1 excl2 : gset string.
Hypothesis Hsub : excl1 ⊆ excl2.

Lemma should_exclude_mono path :
  should_exclude path excl2 = false -> should_exclude path excl1 = false.
Proof.
  intros H2. apply not_true_is_false.
  intros (p & Hp & Hm)%should_exclude_true.
  assert (should_exclude path excl2 = true) by (apply should_exclude_true; set_solver).
  congruence.
Qed.

Lemma keep_dir_mono dirpath d :
  keep_dir cfg excl2 dirpath d = true -> keep_dir cfg excl1 dirpath d = true.
Proof.
  unfold keep_dir. intros [H1 H2%negb_true_iff]%andb_prop.
  by rewrite H1, (should_exclude_mono _ H2).
Qed.

Lemma counted_mono dirpath f :
  counted cfg excl2 dirpath f = true -> counted cfg excl1 dirpath f = true.
Proof.
  destruct f as [[name link] size]. unfold counted.
  intros [H1 H2%negb_true_iff]%andb_prop.
  by rewrite H1, (should_exclude_mono _ H2).
Qed.

Lemma own_files_size_mono dirpath filenames :
  Forall (fun f : file_info => forall sz, f.2 = Some sz -> 0 <= sz) filenames ->
  own_files_size cfg excl2 dirpath filenames <= own_files_size cfg excl1 dirpath filenames.
Proof.
  unfold own_files_size. induction 1 as [|f l Hf _ IH]; [done|].
  rewrite !filter_cons. pose proof (counted_mono dirpath f) as Hc.
  assert (0 <= default 0 f.2) by (destruct (f.2) as [sz|]; simpl; [by apply Hf|done]).
  repeat case_decide; simpl; try lia. by destruct Hc.
Qed.
End Exclusions.

Lemma file_entries_mono cfg (excl1 excl2 : gset string) min_bytes dirpath filenames entry :
  excl1 ⊆ excl2 ->
  entry ∈ file_entries cfg excl2 min_bytes dirpath filenames ->
  entry ∈ file_entries cfg excl1 min_bytes dirpath filenames.
Proof.
  intros Hsub. rewrite !elem_of_file_entries_iff.
  intros (Hf & name & size & Hin & Hdot & Hx & Hmin & ->). split; [done|].
  exists name, size. repeat split; try done. by apply (should_exclude_mono excl1 excl2).
Qed.

(** X11.  Adding exclusion patterns never adds to the result of a scan:
    when files only are scanned every entry found under the larger set of
    exclusions is found under the smaller one, and in a tree whose file
    sizes are not negative every path found under the larger set is found
    under the smaller one with a size that is no smaller. *)
Theorem more_exclusions_fewer_entries cfg (excl1 excl2 : gset string) min_bytes root fs :
  excl1 ⊆ excl2 ->
  (scan_directories cfg = false ->
   forall entry, entry ∈ analyze_disk_usage cfg excl2 min_bytes root fs ->
                 entry ∈ analyze_disk_usage cfg excl1 min_bytes root fs)
  /\ (sizes_nonneg fs ->
      forall path size2,
        (path, size2) ∈ analyze_disk_usage cfg excl2 min_bytes root fs ->
        exists size1, (path, size1) ∈ analyze_disk_usage cfg excl1 min_bytes root fs
                      /\ size2 <= size1).
Proof.
  intros Hsub.
  assert (Hwalk : forall dirpath dirnames filenames,
             (dirpath, dirnames, filenames) ∈ os_walk (keep_dir cfg excl2) root fs ->
             exists dirnames',
               (dirpath, dirnames', filenames) ∈ os_walk (keep_dir cfg excl1) root fs).
  { apply os_walk_mono. intros top d. by apply keep_dir_mono. }
  split.
  - intros Hdirs entry.
    rewrite !elem_of_analyze, !elem_of_results.
    intros ([[dirpath dirnames] filenames] & Hy & He).
    destruct (Hwalk _ _ _ Hy) as [dirnames' Hy'].
    exists (dirpath, dirnames', filenames). split; [done|].
    unfold visit in *. destruct (_ && _)%bool; [done|].
    unfold directory_entries in *. rewrite Hdirs in *. simpl in *.
    by apply (file_entries_mono cfg excl1 excl2).
  - intros Hnn path size2.
    rewrite elem_of_analyze, elem_of_results.
    intros ([[dirpath dirnames] filenames] & Hy & He).
    destruct (Hwalk _ _ _ Hy) as [dirnames' Hy'].
    pose proof (walked_files_nonneg _ _ _ _ _ _ Hnn Hy) as Hfiles.
    unfold visit in He. destruct (_ && _)%bool eqn:Hdot; [by apply elem_of_nil in He|].
    apply elem_of_app in He as [He|He].
    + apply elem_of_directory_entries in He as (Hd & [= -> ->] & Hmin).
      pose proof (own_files_size_mono cfg excl1 excl2 Hsub dirpath filenames Hfiles) as Hle.
      exists (own_files_size cfg excl1 dirpath filenames). split; [|done].
      apply elem_of_analyze, elem_of_results.
      exists (dirpath, dirnames', filenames). split; [done|].
      unfold visit. rewrite Hdot. apply elem_of_app. left.
      apply elem_of_directory_entries. repeat split; [done|lia].
    + exists size2. split; [|lia].
      apply elem_of_analyze, elem_of_results.
      exists (dirpath, dirnames', filenames). split; [done|].
      unfold visit. rewrite Hdot. apply elem_of_app. right.
      by apply (file_entries_mono cfg excl1 excl2).
Qed.

Lemma small_tree_nonneg : sizes_nonneg small_tree.
Proof.
  unfold small_tree, MiB.
  repeat first [ apply nonneg_dir | apply Forall_cons_2 | apply Forall_nil_2
               | apply nonneg_file; intros sz [= <-]; lia ].
Qed.

Lemma more_exclusions_fewer_entries_witness :
  exists size1,
    ("/r", size1) ∈ analyze_disk_usage both_modes ∅ (MiB 5) "/r" small_tree
    /\ MiB 10 <= size1.
Proof.
  destruct (more_exclusions_fewer_entries both_modes ∅ {[ "cache" ]} (MiB 5) "/r" small_tree)
    as [_ H]; [set_solver|].
  apply (H small_tree_nonneg "/r" (MiB 10)). in_list.
Defined.

(** Below a directory none of whose names is kept the walk visits that
    directory only. *)
Lemma os_walk_pruned keep root fs y :
  (forall d, keep root d = false) -> y ∈ os_walk keep root fs -> y.1.1 = root.
Proof.
  intros Hnone. destruct fs as [link size|link [es|]];
    [by intros ?%elem_of_nil| |by intros ?%elem_of_nil].
  rewrite os_walk_dir. intros [->|Hy]%elem_of_cons; [done|].
  apply elem_of_walk_children in Hy as (name & child & _ & _ & Hkeep & _).
  by rewrite Hnone in Hkeep.
Qed.

Lemma split_not_nil sep s : Py.split sep s <> [].
Proof.
  induction s as [|c s IH]; [done|]. simpl.
  destruct (Ascii.eqb c sep); [done|]. by destruct (Py.split sep s).
Qed.

Lemma split_app sep a b :
  Py.split sep (a +:+ String sep b) = Py.split sep a ++ Py.split sep b.
Proof.
  induction a as [|c a IH].
  - change ("" +:+ String sep b) with (String sep b). simpl. by rewrite Ascii.eqb_refl.
  - rewrite append_String. simpl. rewrite IH.
    destruct (Ascii.eqb c sep); [done|].
    pose proof (split_not_nil sep a). by destruct (Py.split sep a).
Qed.

Lemma append_assoc_sep a b : (a +:+ "/") +:+ b = a +:+ String "/" b.
Proof. induction a as [|c a IH]; [done|]. by rewrite !append_String, IH. Qed.

Lemma ends_with_sep_inv a :
  OsPath.ends_with_sep a = true -> exists a', a = a' +:+ "/".
Proof.
  induction a as [|c a IH]; [done|].
  destruct a as [|c' a].
  - simpl. intros ->%Ascii.eqb_eq. by exists "".
  - intros H. destruct IH as [a' Ha']; [exact H|]. exists (String c a').
    by rewrite append_String, <- Ha'.
Qed.

Lemma tail_join d name :
  Py.contains_char "/" name = false ->
  PurePath.tail (OsPath.join d name)
  = PurePath.tail d ++ filter (fun x => x <> "" /\ x <> ".") [name].
Proof.
  intros Hname. unfold OsPath.join, PurePath.tail.
  assert (Py.startswith "/" name = false) as ->.
  { destruct name as [|c name]; [done|].
    change (Py.contains_char "/" (String c name))
      with (Ascii.eqb c "/" || Py.contains_char "/" name)%bool in Hname.
    apply orb_false_elim in Hname as [Hc _].
    change (Py.startswith "/" (String c name)) with (Ascii.eqb "/" c && true)%bool.
    by rewrite Ascii.eqb_sym, Hc. }
  destruct d as [|c d].
  - rewrite (split_no_sep "/" name Hname). done.
  - destruct (OsPath.ends_with_sep (String c d)) eqn:He.
    + destruct (ends_with_sep_inv _ He) as [a' ->].
      rewrite append_assoc_sep, !split_app, (split_no_sep "/" name Hname).
      change (Py.split "/" "") with [""].
      rewrite !filter_app. rewrite (filter_cons_False _ "" []) by (by intros [? _]).
      by rewrite filter_nil, app_nil_r.
    + change (String c d +:+ "/" +:+ name) with (String c d +:+ String "/" name).
      rewrite split_app, (split_no_sep "/" name Hname), filter_app. done.
Qed.

Lemma root_join d name :
  Py.contains_char "/" name = false ->
  PurePath.root (OsPath.join d name) = PurePath.root d.
Proof.
  intros Hname.
  assert (Hhead : name = "" \/ exists c n, c <> "/"%char /\ name = String c n).
  { destruct name as [|c name]; [by left|]. right. exists c, name. split; [|done].
    change (Py.contains_char "/" (String c name))
      with (Ascii.eqb c "/" || Py.contains_char "/" name)%bool in Hname.
    apply orb_false_elim in Hname as [Hc _]. by apply Ascii.eqb_neq. }
  unfold OsPath.join.
  assert (Py.startswith "/" name = false) as ->.
  { destruct Hhead as [->|(c & n & Hc & ->)]; [done|].
    change (Py.startswith "/" (String c n)) with (Ascii.eqb "/" c && true)%bool.
    rewrite andb_true_r. apply Ascii.eqb_neq. congruence. }
  destruct d as [|c1 d].
  - destruct Hhead as [->|(c & n & Hc & ->)]; [done|]. by apply root_relative.
  - destruct (Ascii.eqb_spec c1 "/") as [->|H1].
    2: { destruct (OsPath.ends_with_sep (String c1 d));
           rewrite !append_String; by rewrite !root_relative. }
    destruct d as [|c2 d].
    { change (OsPath.ends_with_sep "/") with true.
      change ("/" +:+ name) with (String "/" name).
      destruct Hhead as [->|(c & n & Hc & ->)]; [done|]. by rewrite root_single_slash. }
    destruct (Ascii.eqb_spec c2 "/") as [->|H2].
    2: { destruct (OsPath.ends_with_sep (String "/" (String c2 d)));
           rewrite !append_String; by rewrite !root_single_slash. }
    destruct d as [|c3 d].
    { change (OsPath.ends_with_sep "//") with true.
      change ("//" +:+ name) with (String "/" (String "/" name)).
      destruct Hhead as [->|(c & n & Hc & ->)]; [done|].
      destruct c as [[] [] [] [] [] [] [] []]; try reflexivity. congruence. }
    destruct (OsPath.ends_with_sep (String "/" (String "/" (String c3 d))));
      rewrite !append_String;
      destruct c3 as [[] [] [] [] [] [] [] []]; reflexivity.
Qed.

Lemma in_dot_dir_join d name :
  Py.contains_char "/" name = false -> Py.startswith "." name = false ->
  in_dot_dir (OsPath.join d name) = in_dot_dir d.
Proof.
  intros Hsep Hdot. unfold in_dot_dir, PurePath.parts.
  rewrite (root_join d name Hsep), (tail_join d name Hsep).
  assert (existsb (Py.startswith ".")
            (PurePath.tail d ++ filter (fun x => x <> "" /\ x <> ".") [name])
          = existsb (Py.startswith ".") (PurePath.tail d)) as Htail.
  { rewrite existsb_app. rewrite filter_cons, filter_nil.
    case_decide; cbn [existsb]; rewrite ?Hdot; by rewrite orb_false_r. }
  destruct (PurePath.root d); cbn [existsb]; by rewrite Htail.
Qed.

Lemma scanned_found cfg exclusions root fs path n :
  scanned cfg exclusions root fs path n -> found_at root fs path n.
Proof.
  induction 1 as [|top link es name child path n Hin _ _ _ _ _ IH]; [constructor|].
  by eapply found_below.
Qed.

(** The directories reached depend on the settings through
    [ignore_dotfolders] only. *)
Lemma scanned_ext cfg1 cfg2 exclusions root fs path n :
  ignore_dotfolders cfg1 = ignore_dotfolders cfg2 ->
  scanned cfg1 exclusions root fs path n -> scanned cfg2 exclusions root fs path n.
Proof.
  intros Hsame. induction 1 as [|top link es name child path n Hin Hd Hl Hdot Hx _ IH];
    [constructor|].
  apply (scanned_below _ _ top link es name child path n Hin Hd Hl); [|done|done].
  intros Hon. apply Hdot. congruence.
Qed.

(** X12.  With [ignore_dotfolders] on, a scan whose root has a path
    component that starts with a dot returns nothing at all; and every
    entry of any scan is a directory of the tree, reached from the root
    through listed names that do not start with a dot, no component of
    whose path starts with one, or a file that such a directory lists
    under a name that does not start with a dot, so that no component of
    the file's path starts with one either. *)
Theorem dot_directories_are_skipped cfg exclusions min_bytes root fs :
  ignore_dotfolders cfg = true ->
  (in_dot_dir root = true -> analyze_disk_usage cfg exclusions min_bytes root fs = [])
  /\ forall path size,
       (path, size) ∈ analyze_disk_usage cfg exclusions min_bytes root fs ->
       exists dirpath link es,
         scanned cfg exclusions root fs dirpath (Dir link (Some es))
         /\ in_dot_dir dirpath = false
         /\ (path = dirpath
             \/ exists name,
                  (name, File false (Some size)) ∈ es
                  /\ Py.startswith "." name = false
                  /\ path = OsPath.join dirpath name
                  /\ (Py.contains_char "/" name = false -> in_dot_dir path = false)).
Proof.
  intros Hdot. split.
  - intros Hroot. apply elem_of_nil_inv. intros entry.
    rewrite elem_of_analyze, elem_of_results.
    intros (y & Hy & He).
    apply os_walk_pruned in Hy; [|intros d; unfold keep_dir; by rewrite Hdot, Hroot].
    destruct y as [[dirpath dirnames] filenames]. simpl in Hy. subst dirpath.
    unfold visit in He. rewrite Hdot, Hroot in He. by apply elem_of_nil in He.
  - intros path size (dirpath & link & es & Hs & Hin & Hcase)%elem_of_scan.
    rewrite Hdot in Hin. cbn [andb] in Hin.
    exists dirpath, link, es. split; [done|]. split; [done|].
    destruct Hcase as [(_ & -> & _)|(_ & name & Hfile & -> & Hn & _)]; [by left|].
    rewrite Hdot in Hn. cbn [andb] in Hn.
    right. exists name. split; [done|]. split; [done|]. split; [done|].
    intros Hsep. by rewrite in_dot_dir_join.
Qed.

Lemma dot_directories_are_skipped_witness :
  analyze_disk_usage
    skipping_dot_entries ∅ 0 "/home/u/.cache" small_tree = [].
Proof.
  by apply (dot_directories_are_skipped skipping_dot_entries ∅ 0 "/home/u/.cache" small_tree).
Defined.

(** X13.  In file mode an entry [(path, size)] is in the result exactly
    when the walk visits a directory (outside dot-directories when those
    are ignored) that lists a file at [path] which is no symbolic link,
    whose size can be read and is [size], which reaches the threshold and
    matches no exclusion, and whose name does not start with a dot when
    dot entries are ignored. *)
Theorem file_entry_is_a_counted_file cfg exclusions min_bytes root fs path size :
  scan_files cfg = true ->
  scan_directories cfg = false ->
  (path, size) ∈ analyze_disk_usage cfg exclusions min_bytes root fs
  <-> exists dirpath dirnames filenames name,
        (dirpath, dirnames, filenames) ∈ os_walk (keep_dir cfg exclusions) root fs
        /\ (ignore_dotfolders cfg && in_dot_dir dirpath)%bool = false
        /\ (name, false, Some size) ∈ filenames
        /\ (ignore_dotfolders cfg && Py.startswith "." name)%bool = false
        /\ should_exclude path exclusions = false
        /\ min_bytes <= size
        /\ path = OsPath.join dirpath name.
Proof.
  intros Hfiles Hdirs. rewrite elem_of_analyze, elem_of_results. split.
  - intros ([[dirpath dirnames] filenames] & Hy & He). unfold visit in He.
    destruct (_ && _)%bool eqn:Hdot; [by apply elem_of_nil in He|].
    unfold directory_entries in He. rewrite Hdirs in He. simpl in He.
    apply elem_of_file_entries_iff in He
      as (_ & name & sz & Hin & Hn & Hx & Hmin & [= -> ->]).
    by exists dirpath, dirnames, filenames, name.
  - intros (dirpath & dirnames & filenames & name & Hy & Hdot & Hin & Hn & Hx & Hmin & ->).
    exists (dirpath, dirnames, filenames). split; [done|].
    unfold visit. rewrite Hdot. apply elem_of_app. right.
    apply elem_of_file_entries_iff. split; [done|]. by exists name, size.
Qed.

Lemma file_entry_is_a_counted_file_witness :
  ("/r/sub/big", MiB 200) ∈ analyze_disk_usage files_only {[ "cache" ]} (MiB 100) "/r" small_tree.
Proof.
  apply (file_entry_is_a_counted_file files_only {[ "cache" ]} (MiB 100) "/r" small_tree);
    [reflexivity|reflexivity|].
  exists "/r/sub", [], [("big", false, Some (MiB 200))], "big".
  split; [in_list|]. split; [reflexivity|]. split; [in_list|].
  split; [reflexivity|]. split; [reflexivity|]. split; [|reflexivity].
  vm_compute. discriminate.
Defined.

(** ** [src/diskspace.py] *)

Lemma sum_from (l : list Z) (acc : Z) : fold_left Z.add l acc = acc + Py.sum l.
Proof.
  unfold Py.sum. revert acc. induction l as [|x l IH]; intros acc; [simpl; lia|].
  change (fold_left Z.add l (acc + x) = acc + fold_left Z.add l (0 + x)).
  rewrite (IH (acc + x)), (IH (0 + x)). lia.
Qed.

Lemma sum_cons (x : Z) (l : list Z) : Py.sum (x :: l) = x + Py.sum l.
Proof. unfold Py.sum at 1. simpl. apply sum_from. Qed.

Lemma sum_app (l1 l2 : list Z) : Py.sum (l1 ++ l2) = Py.sum l1 + Py.sum l2.
Proof.
  induction l1 as [|x l1 IH]; [done|].
  rewrite <- app_comm_cons, !sum_cons, IH. lia.
Qed.

Lemma sum_Permutation (l1 l2 : list Z) : l1 ≡ₚ l2 -> Py.sum l1 = Py.sum l2.
Proof.
  induction 1 as [|x l1 l2 _ IH|x y l|l1 l2 l3 _ IH1 _ IH2];
    rewrite ?sum_cons; lia.
Qed.

Section DiskspaceFacts.
Variable exclusions : gset string.

Lemma files_size_current dirpath filenames total_size :
  Diskspace.files_size exclusions dirpath filenames total_size
  = total_size + Diskspace.current_size exclusions false dirpath filenames.
Proof.
  unfold Diskspace.files_size, Diskspace.current_size. simpl.
  assert (forall (f : Z -> file_info -> Z) acc,
             (forall a b x, f (a + b) x = a + f b x) ->
             fold_left f filenames acc = acc + fold_left f filenames 0) as Hshift.
  { intros f acc Hf. revert acc.
    induction filenames as [|x l IH]; intros acc; [simpl; lia|].
    change (fold_left f l (f acc x) = acc + fold_left f l (f 0 x)).
    rewrite (IH (f acc x)), (IH (f 0 x)).
    replace acc with (acc + 0) at 1 by lia. rewrite Hf. lia. }
  apply Hshift. intros a b [[name link] [sz|]]; destruct (_ && _)%bool; lia.
Qed.

Lemma current_size_nonneg ignore_dotfolders dirpath filenames :
  Forall (fun f : file_info => forall sz, f.2 = Some sz -> 0 <= sz) filenames ->
  0 <= Diskspace.current_size exclusions ignore_dotfolders dirpath filenames.
Proof.
  unfold Diskspace.current_size. intros Hall.
  match goal with
  | |- 0 <= fold_left ?f _ _ =>
      assert (forall acc, 0 <= acc -> 0 <= fold_left f filenames acc) as H
  end; [|by apply H].
  induction Hall as [|[[name link] size] l Hf _ IH]; intros acc Hacc; simpl; [done|].
  apply IH. destruct (_ && _)%bool; [|done].
  destruct size as [sz|]; [|done]. specialize (Hf sz eq_refl). lia.
Qed.

Lemma get_dir_size_sum path fs :
  Diskspace.get_dir_size exclusions path fs
  = Py.sum (map (fun y : yielded => Diskspace.current_size exclusions false y.1.1 y.2)
                (os_walk (Diskspace.keep_unexcluded exclusions) path fs)).
Proof.
  unfold Diskspace.get_dir_size.
  generalize (os_walk (Diskspace.keep_unexcluded exclusions) path fs). intros walk.
  rewrite <- (Z.add_0_l (Py.sum _)). generalize 0.
  induction walk as [|[[dirpath dirnames] filenames] walk IH]; intros acc.
  - simpl. unfold Py.sum. simpl. lia.
  - rewrite map_cons, sum_cons. simpl fold_left. rewrite IH, files_size_current.
    simpl. lia.
Qed.

Lemma results_sum min_size_bytes ignore_dotfolders root_path fs :
  Py.sum (map snd (Diskspace.results exclusions min_size_bytes ignore_dotfolders root_path fs))
  = Py.sum (map (fun y : yielded =>
                   if min_size_bytes
                      <=? Diskspace.current_size exclusions ignore_dotfolders y.1.1 y.2
                   then Diskspace.current_size exclusions ignore_dotfolders y.1.1 y.2
                   else 0)
                (os_walk (Diskspace.keep_dir exclusions ignore_dotfolders) root_path fs)).
Proof.
  unfold Diskspace.results.
  generalize (os_walk (Diskspace.keep_dir exclusions ignore_dotfolders) root_path fs).
  intros walk. induction walk as [|[[dirpath dirnames] filenames] walk IH]; [done|].
  rewrite map_cons, sum_cons. simpl flat_map. rewrite map_app, sum_app, IH. simpl.
  destruct (_ <=? _); simpl; rewrite ?sum_cons; change (Py.sum []) with 0; lia.
Qed.
End DiskspaceFacts.

Lemma fold_left_le {X} (f g : Z -> X -> Z) (l : list X) :
  (forall a b x, x ∈ l -> a <= b -> f a x <= g b x) ->
  forall a b, a <= b -> fold_left f l a <= fold_left g l b.
Proof.
  induction l as [|x l IH]; intros Hfg a b Hab; [done|].
  change (fold_left f l (f a x) <= fold_left g l (g b x)). apply IH.
  - intros a' b' y Hy. apply Hfg. by apply list_elem_of_further.
  - apply Hfg; [apply list_elem_of_here|done].
Qed.

Lemma current_size_dotfolders exclusions ignore_dotfolders dirpath filenames :
  Forall (fun f : file_info => forall sz, f.2 = Some sz -> 0 <= sz) filenames ->
  Diskspace.current_size exclusions ignore_dotfolders dirpath filenames
  <= Diskspace.current_size exclusions false dirpath filenames.
Proof.
  intros Hall. unfold Diskspace.current_size. apply fold_left_le; [|done].
  intros a b [[name link] size] Hin Hab. rewrite Forall_forall in Hall.
  pose proof (Hall _ Hin) as Hf. lazy beta iota.
  generalize (Py.startswith "." name)
             (Diskspace.should_exclude (OsPath.join dirpath name) exclusions).
  intros s x. change ((name, link, size).2) with size in Hf.
  destruct ignore_dotfolders, s, link, x, size as [sz|]; simpl; try lia;
    specialize (Hf sz eq_refl); lia.
Qed.

Lemma sum_sublist {A} (g2 g1 : A -> Z) (l2 l1 : list A) :
  l2 `sublist_of` l1 ->
  Forall (fun x => 0 <= g1 x /\ g2 x <= g1 x) l1 ->
  Py.sum (map g2 l2) <= Py.sum (map g1 l1).
Proof.
  induction 1 as [|x l2 l1 _ IH|x l2 l1 _ IH]; [done|intros [[? ?] Hall]%Forall_cons..].
  - rewrite !map_cons, !sum_cons. specialize (IH Hall). lia.
  - rewrite map_cons, sum_cons. specialize (IH Hall). lia.
Qed.

(** X14.  In [diskspace.py] the sizes [analyze_disk_usage] reports for a
    tree whose file sizes are not negative add up to at most
    [get_dir_size] of the root under the same exclusions; without the
    dot filter and with a threshold that is not positive the two are
    equal: each file is counted in exactly one directory. *)
Theorem reported_sizes_within_tree_size
    exclusions min_size_bytes ignore_dotfolders root_path fs :
  sizes_nonneg fs ->
  Py.sum (map snd (Diskspace.analyze_disk_usage exclusions min_size_bytes ignore_dotfolders
                     root_path fs))
  <= Diskspace.get_dir_size exclusions root_path fs
  /\ (ignore_dotfolders = false -> min_size_bytes <= 0 ->
      Py.sum (map snd (Diskspace.analyze_disk_usage exclusions min_size_bytes ignore_dotfolders
                         root_path fs))
      = Diskspace.get_dir_size exclusions root_path fs).
Proof.
  intros Hnn. unfold Diskspace.analyze_disk_usage.
  rewrite (sum_Permutation _ _ (fmap_Permutation snd _ _ (sorted_Permutation snd true _))).
  rewrite results_sum, get_dir_size_sum.
  assert (Forall (fun y : yielded =>
                    Forall (fun f : file_info => forall sz, f.2 = Some sz -> 0 <= sz) y.2)
                 (os_walk (Diskspace.keep_unexcluded exclusions) root_path fs)) as Hall.
  { apply Forall_forall. intros [[dirpath dirnames] filenames] Hy.
    by eapply walked_files_nonneg. }
  split.
  - pose proof (os_walk_sublist (Diskspace.keep_unexcluded exclusions)
                  (Diskspace.keep_dir exclusions ignore_dotfolders)) as Hsub.
    specialize (Hsub ltac:(by intros top d [_ ?]%andb_prop) fs root_path).
    pose proof (sum_sublist
      (fun p : string * list file_info =>
         if min_size_bytes <=? Diskspace.current_size exclusions ignore_dotfolders p.1 p.2
         then Diskspace.current_size exclusions ignore_dotfolders p.1 p.2 else 0)
      (fun p => Diskspace.current_size exclusions false p.1 p.2) _ _ Hsub) as Hle.
    rewrite !map_map in Hle. apply Hle. clear Hle Hsub.
    apply Forall_fmap. eapply Forall_impl; [exact Hall|].
    intros [[dirpath dirnames] filenames] Hfiles. simpl in *.
    pose proof (current_size_nonneg exclusions false dirpath filenames Hfiles).
    pose proof (current_size_dotfolders exclusions ignore_dotfolders dirpath filenames Hfiles).
    destruct (_ <=? _); lia.
  - intros -> Hmin.
    rewrite (os_walk_ext (Diskspace.keep_dir exclusions false)
                         (Diskspace.keep_unexcluded exclusions)) by done.
    induction Hall as [|[[dirpath dirnames] filenames] walk Hy _ IH]; [done|].
    rewrite !map_cons, !sum_cons, IH. simpl.
    pose proof (current_size_nonneg exclusions false dirpath filenames Hy).
    destruct (Z.leb_spec min_size_bytes
                (Diskspace.current_size exclusions false dirpath filenames)); lia.
Qed.

Lemma reported_sizes_within_tree_size_witness :
  Py.sum (map snd (Diskspace.analyze_disk_usage {[ "cache" ]} (MiB 100) true "/r" small_tree))
  <= Diskspace.get_dir_size {[ "cache" ]} "/r" small_tree.
Proof.
  apply (reported_sizes_within_tree_size {[ "cache" ]} (MiB 100) true "/r" small_tree).
  apply small_tree_nonneg.
Defined.

(** ** The variants compared *)

Lemma existsb_ext_elem {A} (f g : A -> bool) (l : list A) :
  (forall x, x ∈ l -> f x = g x) -> existsb f l = existsb g l.
Proof.
  induction l as [|x l IH]; intros Hfg; [done|]. simpl.
  rewrite (Hfg x) by apply list_elem_of_here.
  rewrite IH; [done|]. intros y Hy. apply Hfg. by apply list_elem_of_further.
Qed.

Lemma fold_left_ext_all {A B} (f g : A -> B -> A) :
  (forall a x, f a x = g a x) -> forall l a, fold_left f l a = fold_left g l a.
Proof. intros Hfg l. induction l as [|x l IH]; intros a; simpl; [done|]. by rewrite Hfg, IH. Qed.

Lemma path_matches_pattern_printed path pattern :
  PurePath.str pattern = pattern ->
  Diskspace.path_matches_pattern path pattern = path_matches_pattern path pattern.
Proof.
  intros Hstr. unfold Diskspace.path_matches_pattern, path_matches_pattern.
  by rewrite Hstr.
Qed.

(** X15.  For exclusion patterns that [PurePath] prints as they are
    written (no doubled or trailing slash, no [.] segment)
    [diskspace.py] and [diskface.py] exclude the same paths, and the
    scan of [diskspace.py] without the dot filter returns what the scan of
    [diskface.py] returns in directory mode. *)
Theorem diskspace_scan_agrees exclusions min_size_bytes root fs :
  (forall pattern, pattern ∈ exclusions -> PurePath.str pattern = pattern) ->
  (forall path, Diskspace.should_exclude path exclusions = should_exclude path exclusions)
  /\ Diskspace.analyze_disk_usage exclusions min_size_bytes false root fs
     = analyze_disk_usage directories_only exclusions min_size_bytes root fs.
Proof.
  intros Hprinted.
  assert (Hx : forall path,
             Diskspace.should_exclude path exclusions = should_exclude path exclusions).
  { intros path. apply existsb_ext_elem. intros pattern Hp%elem_of_elements.
    by apply path_matches_pattern_printed, Hprinted. }
  split; [exact Hx|].
  unfold Diskspace.analyze_disk_usage, analyze_disk_usage. f_equal.
  unfold Diskspace.results, results.
  rewrite (os_walk_ext (Diskspace.keep_dir exclusions false)
                       (keep_dir directories_only exclusions)).
  - apply flat_map_ext. intros [[dirpath dirnames] filenames].
    unfold visit, directory_entries, file_entries. simpl. rewrite app_nil_r.
    assert (Diskspace.current_size exclusions false dirpath filenames
            = dir_size directories_only exclusions dirpath filenames) as ->; [|done].
    apply fold_left_ext_all. intros acc [[name link] size].
    unfold counted. simpl. by rewrite Hx.
  - intros top d. unfold Diskspace.keep_dir, keep_dir. simpl. by rewrite Hx.
Qed.

Lemma diskspace_scan_agrees_witness :
  Diskspace.analyze_disk_usage {[ "cache"; "/proc" ]} (MiB 5) false "/r" small_tree
  = analyze_disk_usage directories_only {[ "cache"; "/proc" ]} (MiB 5) "/r" small_tree.
Proof.
  apply (diskspace_scan_agrees {[ "cache"; "/proc" ]} (MiB 5) "/r" small_tree).
  intros pattern Hp.
  apply elem_of_union in Hp as [Hp|Hp]; apply elem_of_singleton in Hp; by subst.
Defined.

(** ** Settings *)

(** X16.  [toggle_setting] changes no other setting; on a boolean setting
    it stores and returns the negated value, toggling again restores the
    settings and returns the old value, and [cmd_toggle_setting]
    announces the value stored; on a setting that is missing or not a
    boolean it changes nothing and returns [False], and
    [cmd_toggle_setting] reports that the setting is not toggleable. *)
Theorem toggle_setting_flips_one {other : Type} (none : other) (setting : string)
    (settings : gmap string (Config.value other)) :
  (forall other_setting default,
      other_setting <> setting ->
      Config.get_setting other_setting default (Config.toggle_setting setting settings).1
      = Config.get_setting other_setting default settings)
  /\ (forall b,
        settings !! setting = Some (Config.VBool b) ->
        (Config.toggle_setting setting settings).2 = negb b
        /\ (forall default,
              Config.get_setting setting default (Config.toggle_setting setting settings).1
              = Config.VBool (negb b))
        /\ Config.toggle_setting setting (Config.toggle_setting setting settings).1
           = (settings, b)
        /\ Cli.cmd_toggle_setting none setting settings
           = ((Config.toggle_setting setting settings).1, Some (negb b)))
  /\ ((forall b, settings !! setting <> Some (Config.VBool b)) ->
      Config.toggle_setting setting settings = (settings, false)
      /\ Cli.cmd_toggle_setting none setting settings = (settings, None)).
Proof.
  unfold Cli.cmd_toggle_setting, Config.toggle_setting, Config.get_setting.
  split; [|split].
  - intros k default Hne. destruct (settings !! setting) as [[b|o]|]; simpl.
    all: try done. rewrite lookup_insert_ne; [done|congruence].
  - intros b Hb. rewrite Hb. simpl. rewrite lookup_insert_eq. split; [done|]. split; [done|].
    rewrite insert_insert_eq, negb_involutive. split; [|done].
    f_equal. by apply insert_id.
  - intros Hnot. destruct (settings !! setting) as [[b|o]|]; simpl; [|done..].
    by destruct (Hnot b).
Qed.

Lemma toggle_setting_flips_one_witness :
  Config.toggle_setting "scan_files"
    (Config.toggle_setting "scan_files"
       ({[ "scan_files" := Config.VBool true; "min_size_mb" := Config.VOther 100 ]}
          : gmap string (Config.value Z))).1
  = ({[ "scan_files" := Config.VBool true; "min_size_mb" := Config.VOther 100 ]}, true).
Proof.
  by apply (toggle_setting_flips_one 0 "scan_files"
              ({[ "scan_files" := Config.VBool true; "min_size_mb" := Config.VOther 100 ]}
                 : gmap string (Config.value Z))).
Defined.

(** ** The paths of a removal *)

(** X17.  What [safe_remove_items] does, prints and reports depends on
    the paths of the items only, not on the sizes found by the scan. *)
Theorem removal_depends_on_paths_only {world : Type} {os : OS world} {rich : Console}
    (items1 items2 : list (string * Z)) (w : world) :
  items1.*1 = items2.*1 ->
  safe_remove_items items1 w = safe_remove_items items2 w.
Proof.
  intros Hpaths.
  rewrite (report_ignores_expected_size items1), (report_ignores_expected_size items2).
  assert (forall items : list (string * Z),
             map (fun item => (item.1, 0)) items = map (fun p => (p, 0)) items.*1) as Hmap.
  { intros items. induction items as [|item items IH]; simpl; [done|]. by rewrite IH. }
  by rewrite !Hmap, Hpaths.
Qed.

Lemma removal_depends_on_paths_only_witness :
  safe_remove_items [("/f", 5); ("/gone", 1)] SimOS.disk
  = safe_remove_items [("/f", 99); ("/gone", 0)] SimOS.disk.
Proof.
  by apply (removal_depends_on_paths_only [("/f", 5); ("/gone", 1)] [("/f", 99); ("/gone", 0)]).
Defined.

(** ** What a selection names *)

Lemma digit_val_no_dash c d : Py.digit_val c = Some d -> 0 <= d /\ c <> "-"%char.
Proof.
  destruct c as [[] [] [] [] [] [] [] []]; intros H; vm_compute in H;
    try discriminate H; injection H as <-; split; first [lia | discriminate].
Qed.

Lemma int_digits_no_dash s :
  forall acc prev n,
    0 <= acc -> Py.int_digits acc prev s = Some n ->
    0 <= n /\ Py.contains_char "-" s = false.
Proof.
  induction s as [|c s IH]; intros acc prev n Hacc; simpl.
  - destruct prev; [|discriminate]. intros [= <-]. done.
  - change (Py.contains_char "-" (String c s))
      with (Ascii.eqb c "-" || Py.contains_char "-" s)%bool.
    destruct (Py.digit_val c) as [d|] eqn:Hd.
    + apply digit_val_no_dash in Hd as [Hd Hc]. intros Hrun.
      destruct (IH (10 * acc + d) true n) as [Hn Hs]; [lia|done|]. split; [done|].
      rewrite Hs. by destruct (Ascii.eqb_spec c "-").
    + destruct (Ascii.eqb_spec c "_") as [->|]; simpl; [|discriminate].
      destruct prev; [|discriminate]. intros Hrun.
      destruct (IH _ _ _ Hacc Hrun) as [Hn Hs]. by rewrite Hs.
Qed.

Lemma int_literal_positive s n :
  Py.int_literal s = Some n -> 1 <= n -> Py.contains_char "-" s = false.
Proof.
  assert (Hplain : forall t, Py.int_digits 0 false t = Some n ->
                             Py.contains_char "-" t = false).
  { intros t Ht. by destruct (int_digits_no_dash t 0 false n). }
  destruct s as [|c s]; [discriminate|].
  destruct (Ascii.eqb_spec c "+") as [->|Hplus]; [|destruct (Ascii.eqb_spec c "-") as [->|Hminus]].
  - change (Py.int_literal (String "+" s)) with (Py.int_digits 0 false s).
    intros Hs _. apply Hplain in Hs.
    change (Py.contains_char "-" (String "+" s)) with (Py.contains_char "-" s). done.
  - change (Py.int_literal (String "-" s)) with (Z.opp <$> Py.int_digits 0 false s).
    destruct (Py.int_digits 0 false s) as [m|] eqn:Hm; [|discriminate].
    destruct (int_digits_no_dash s 0 false m) as [Hnn _]; [done..|].
    intros [= <-]. lia.
  - assert (Py.int_literal (String c s) = Py.int_digits 0 false (String c s)) as ->.
    { destruct c as [[] [] [] [] [] [] [] []]; try reflexivity; congruence. }
    intros Hs _. by apply Hplain.
Qed.

Lemma int_positive s n : Py.int s = Some n -> 1 <= n -> Py.contains_char "-" s = false.
Proof.
  unfold Py.int. destruct (Py.int_max_str_digits <? Py.count_digits s); [discriminate|].
  apply int_literal_positive.
Qed.

Lemma contains_char_app c s t :
  Py.contains_char c (s +:+ t) = (Py.contains_char c s || Py.contains_char c t)%bool.
Proof.
  induction s as [|x s IH]; [done|].
  rewrite append_String.
  change (Py.contains_char c (String x (s +:+ t)))
    with (Ascii.eqb x c || Py.contains_char c (s +:+ t))%bool.
  change (Py.contains_char c (String x s))
    with (Ascii.eqb x c || Py.contains_char c s)%bool.
  rewrite IH. by destruct (Ascii.eqb x c).
Qed.

Lemma split_first_app c s t :
  Py.contains_char c s = false -> Py.split_first c (s +:+ String c t) = (s, t).
Proof.
  induction s as [|x s IH].
  - intros _. change ("" +:+ String c t) with (String c t).
    change (Py.split_first c (String c t))
      with (if Ascii.eqb c c then ("", t)
            else let '(a, b) := Py.split_first c t in (String c a, b)).
    by rewrite Ascii.eqb_refl.
  - change (Py.contains_char c (String x s))
      with (Ascii.eqb x c || Py.contains_char c s)%bool.
    intros [Hx Hs]%orb_false_elim. rewrite append_String.
    change (Py.split_first c (String x (s +:+ String c t)))
      with (if Ascii.eqb x c then ("", s +:+ String c t)
            else let '(a, b) := Py.split_first c (s +:+ String c t) in (String x a, b)).
    by rewrite Hx, (IH Hs).
Qed.

Lemma parse_part_names max_items part :
  (forall more, parse_part max_items part = Some more ->
                forall i, i ∈ more <-> names max_items part i)
  /\ (is_Some (parse_part max_items part) <-> exists i, names max_items part i).
Proof.
  assert (Hrange : forall sa sb a b,
             part = sa +:+ "-" +:+ sb -> Py.int sa = Some a -> Py.int sb = Some b ->
             1 <= a -> a <= b -> b <= max_items ->
             parse_part max_items part = Some (Py.range_incl a b)).
  { intros sa sb a b -> Ha Hb H1 H2 H3. unfold parse_part.
    rewrite contains_char_app.
    change (Py.contains_char "-" ("-" +:+ sb)) with true. rewrite orb_true_r.
    change (sa +:+ "-" +:+ sb) with (sa +:+ String "-" sb).
    rewrite (split_first_app "-" sa sb) by by eapply int_positive.
    rewrite Ha, Hb.
    destruct (Z.leb_spec 1 a), (Z.leb_spec a max_items), (Z.leb_spec 1 b),
      (Z.leb_spec b max_items), (Z.leb_spec a b); simpl; (done || lia). }
  assert (Hplain : forall i,
             Py.int part = Some i -> 1 <= i <= max_items ->
             parse_part max_items part = Some [i]).
  { intros i Hi Hb. unfold parse_part.
    rewrite (int_positive part i Hi) by lia. rewrite Hi.
    destruct (Z.leb_spec 1 i), (Z.leb_spec i max_items); simpl; (done || lia). }
  assert (Hmore : forall more, parse_part max_items part = Some more ->
                               forall i, i ∈ more <-> names max_items part i).
  { intros more Hp i. split.
    - revert Hp. unfold parse_part. destruct (Py.contains_char "-" part) eqn:Hc.
      + destruct (Py.split_first "-" part) as [sa sb] eqn:Hs.
        destruct (Py.int sa) as [a|] eqn:Ha; [|discriminate].
        destruct (Py.int sb) as [b|] eqn:Hb; [|discriminate].
        destruct (_ && _)%bool eqn:Hr; [|discriminate]. intros [= <-] Hi%range_incl_elem.
        right. exists sa, sb, a, b.
        split; [by apply (split_first_join "-")|]. repeat split; auto; lia.
      + destruct (Py.int part) as [n|] eqn:Hn; [|discriminate].
        destruct (_ && _)%bool eqn:Hr; [|discriminate].
        intros [= <-] ->%list_elem_of_singleton. left. split; [done|lia].
    - intros [[Hi Hb]|(sa & sb & a & b & Hs & Ha & Hb & H1 & H2 & H3 & Hi)].
      + rewrite (Hplain i Hi Hb) in Hp. injection Hp as <-. apply list_elem_of_here.
      + rewrite (Hrange sa sb a b Hs Ha Hb H1 H2 H3) in Hp. injection Hp as <-.
        by apply range_incl_elem. }
  split; [exact Hmore|]. split.
  - intros [more Hp]. destruct more as [|i more].
    + exfalso. revert Hp. unfold parse_part.
      destruct (Py.contains_char "-" part).
      * destruct (Py.split_first "-" part) as [sa sb].
        destruct (Py.int sa) as [a|]; [|discriminate].
        destruct (Py.int sb) as [b|]; [|discriminate].
        destruct (_ && _)%bool eqn:Hr; [|discriminate]. intros [= Hnil].
        assert (a ∈ Py.range_incl a b) as Hin by (apply range_incl_elem; lia).
        rewrite Hnil in Hin. by apply elem_of_nil in Hin.
      * destruct (Py.int part); [|discriminate]. by destruct (_ && _)%bool.
    + exists i. apply (Hmore _ Hp). apply list_elem_of_here.
  - intros [i [[Hi Hb]|(sa & sb & a & b & Hs & Ha & Hb & H1 & H2 & H3 & Hi)]].
    + by rewrite (Hplain i Hi Hb).
    + by rewrite (Hrange sa sb a b Hs Ha Hb H1 H2 H3).
Qed.

Lemma parse_parts_collects max_items parts :
  forall indices,
    match parse_parts max_items indices parts with
    | Some result =>
        Forall (fun part => is_Some (parse_part max_items part)) parts
        /\ forall i, i ∈ result
                     <-> i ∈ indices
                         \/ exists part more, part ∈ parts
                              /\ parse_part max_items part = Some more /\ i ∈ more
    | None => Exists (fun part => parse_part max_items part = None) parts
    end.
Proof.
  induction parts as [|part parts IH]; intros indices; simpl.
  - split; [constructor|]. intros i. split; [by left|].
    intros [?|(part & more & Hin & _)]; [done|by apply elem_of_nil in Hin].
  - destruct (parse_part max_items part) as [more|] eqn:Hp; [|by left].
    specialize (IH (indices ++ more)).
    destruct (parse_parts max_items (indices ++ more) parts) as [result|]; [|by right].
    destruct IH as [Hall Hin]. split; [by constructor|].
    intros i. rewrite Hin, elem_of_app. split.
    + intros [[?|?]|(p & m & Hp' & Hm & Hi)]; [by left| |].
      * right. exists part, more. split; [apply list_elem_of_here|done].
      * right. exists p, m. split; [by apply list_elem_of_further|done].
    + intros [?|(p & m & [->|Hp']%elem_of_cons & Hm & Hi)]; [by left; left| |].
      * left; right. congruence.
      * right. by exists p, m.
Qed.

(** What [parse_selection] returns for an input other than [all], in
    terms of the turns of its loop. *)
Lemma elem_of_parse_selection selection max_items i :
  Py.lower selection <> "all" ->
  i ∈ parse_selection selection max_items
  <-> Forall (fun part => is_Some (parse_part max_items part)) (tokens selection)
      /\ exists part more, part ∈ tokens selection
            /\ parse_part max_items part = Some more /\ i ∈ more.
Proof.
  intros Hall. unfold parse_selection.
  destruct (String.eqb_spec (Py.lower selection) "all") as [|_]; [done|].
  fold (tokens selection).
  pose proof (parse_parts_collects max_items (tokens selection) []) as Hparts.
  destruct (parse_parts max_items [] (tokens selection)) as [result|].
  - destruct Hparts as [Hok Hin].
    rewrite sorted_Permutation, elem_of_elements, elem_of_list_to_set, Hin. split.
    + by intros [?%elem_of_nil|?].
    + intros [_ ?]. by right.
  - split; [by intros ?%elem_of_nil|]. intros [Hok _].
    apply Exists_exists in Hparts as (part & Hp & Hnone).
    rewrite Forall_forall in Hok. specialize (Hok part Hp).
    rewrite Hnone in Hok. by destruct Hok.
Qed.

(** X18.  For an input other than the word [all], an index is in the
    result of [parse_selection] exactly when every token of the input
    names some index and some token names that one: the result is the
    union of what the tokens name, and it is empty as soon as one token
    names nothing. *)
Theorem parse_selection_names_tokens selection max_items i :
  Py.lower selection <> "all" ->
  i ∈ parse_selection selection max_items
  <-> Forall (fun part => exists j, names max_items part j) (tokens selection)
      /\ Exists (fun part => names max_items part i) (tokens selection).
Proof.
  intros Hall. rewrite (elem_of_parse_selection selection max_items i Hall). split.
  - intros [Hok (part & more & Hp & Hm & Hi)]. split.
    + eapply Forall_impl; [exact Hok|]. intros p. apply parse_part_names.
    + apply Exists_exists. exists part. split; [done|].
      by apply (proj1 (parse_part_names max_items part) more).
  - intros [Hok (part & Hp & Hn)%Exists_exists]. split.
    + eapply Forall_impl; [exact Hok|]. intros p. apply parse_part_names.
    + destruct (proj2 (proj2 (parse_part_names max_items part))) as [more Hm]; [by exists i|].
      exists part, more. split; [done|]. split; [done|].
      by apply (proj1 (parse_part_names max_items part) more).
Qed.

(** [int] refuses a literal of more than 4300 digits, leading zeros
    included, so a token of that length makes the input rejected, while
    one of 4300 digits is read. *)
Lemma long_literal_is_refused :
  parse_selection (zeros 4300 +:+ "1") 5 = []
  /\ parse_selection (zeros 4299 +:+ "1") 5 = [1].
Proof. split; vm_compute; reflexivity. Qed.

Lemma lt_antisymm : AntiSymm (=) Z.lt.
Proof. intros x y ? ?. lia. Qed.

(** X19.  A selection is read as a set of tokens: two inputs, neither the
    word [all], with the same tokens in any order and with any
    repetition, separated by commas or by spaces, select the same
    indices. *)
Theorem selection_is_read_as_a_set selection1 selection2 max_items :
  Py.lower selection1 <> "all" ->
  Py.lower selection2 <> "all" ->
  (forall part, part ∈ tokens selection1 <-> part ∈ tokens selection2) ->
  parse_selection selection1 max_items = parse_selection selection2 max_items.
Proof.
  intros Hall1 Hall2 Hsame.
  apply (StronglySorted_unique Z.lt (AntiSymm0 := lt_antisymm));
    [apply parse_selection_strict..|].
  apply NoDup_Permutation;
    [apply StronglySorted_lt_NoDup, parse_selection_strict..|].
  intros i. rewrite !elem_of_parse_selection by done.
  rewrite !Forall_forall. split.
  - intros [Hok (part & more & Hp & Hm)]. split; [|exists part, more; split; [by apply Hsame|done]].
    intros p Hp'. by apply Hok, Hsame.
  - intros [Hok (part & more & Hp & Hm)]. split; [|exists part, more; split; [by apply Hsame|done]].
    intros p Hp'. by apply Hok, Hsame.
Qed.

Lemma selection_is_read_as_a_set_witness :
  parse_selection "3 1-2" 5 = parse_selection "1-2,3, 3" 5.
Proof.
  apply (selection_is_read_as_a_set "3 1-2" "1-2,3, 3" 5); [discriminate..|].
  intros part. change (tokens "3 1-2") with ["3"; "1-2"].
  change (tokens "1-2,3, 3") with ["1-2"; "3"; "3"]. set_solver.
Defined.

Lemma parse_selection_names_tokens_witness :
  4 ∈ parse_selection "1, 3-5" 5.
Proof.
  apply (parse_selection_names_tokens "1, 3-5" 5 4); [discriminate|].
  change (tokens "1, 3-5") with ["1"; "3-5"]. split.
  - repeat constructor.
    + exists 1. left. split; [reflexivity|lia].
    + exists 3. right. exists "3", "5", 3, 5. repeat split; (reflexivity || lia).
  - apply Exists_cons_tl, Exists_cons_hd. right.
    exists "3", "5", 3, 5. repeat split; (reflexivity || lia).
Defined.

(** ** The patterns file *)
Lemma lstrip_cons c s :
  Py.lstrip (String c s) = if Py.isspace c then Py.lstrip s else String c s.
Proof. reflexivity. Qed.

Lemma rstrip_cons c s :
  Py.rstrip (String c s)
  = match Py.rstrip s with
    | EmptyString => if Py.isspace c then EmptyString else String c EmptyString
    | r => String c r
    end.
Proof. reflexivity. Qed.

Lemma lstrip_head s :
  Py.lstrip s = "" \/ exists c t, Py.lstrip s = String c t /\ Py.isspace c = false.
Proof.
  induction s as [|c s IH]; [by left|]. rewrite lstrip_cons.
  destruct (Py.isspace c) eqn:Hc; [done|]. right. by exists c, s.
Qed.

Lemma rstrip_head c t :
  Py.isspace c = false -> exists r, Py.rstrip (String c t) = String c r.
Proof.
  intros Hc. rewrite rstrip_cons, Hc. destruct (Py.rstrip t); by eexists.
Qed.

Lemma rstrip_rstrip s : Py.rstrip (Py.rstrip s) = Py.rstrip s.
Proof.
  induction s as [|c s IH]; [done|]. rewrite rstrip_cons.
  destruct (Py.rstrip s) as [|d r] eqn:Hr.
  - destruct (Py.isspace c) eqn:Hc; [done|]. by rewrite rstrip_cons, Hc.
  - by rewrite rstrip_cons, IH.
Qed.

Lemma strip_strip s : Py.strip (Py.strip s) = Py.strip s.
Proof.
  unfold Py.strip. destruct (lstrip_head s) as [->|(c & t & -> & Hc)]; [done|].
  destruct (rstrip_head c t Hc) as [r Hr].
  rewrite Hr, lstrip_cons, Hc, <- Hr. apply rstrip_rstrip.
Qed.

(** X20.  Every pattern [load_patterns] returns is a line of the file with
    the surrounding whitespace stripped; it is not empty, is no comment
    and has no whitespace left around it.  The patterns come in the order
    of their lines, loading what was loaded changes nothing, and a file
    that does not exist gives no pattern. *)
Theorem load_patterns_keeps_stripped_patterns (patterns_file : option (list string)) :
  Forall (fun pattern =>
            pattern <> ""
            /\ Py.startswith "#" pattern = false
            /\ Py.strip pattern = pattern
            /\ exists lines line,
                 patterns_file = Some lines /\ line ∈ lines /\ pattern = Py.strip line)
         (DiskFace3.load_patterns patterns_file)
  /\ DiskFace3.load_patterns (Some (DiskFace3.load_patterns patterns_file))
     = DiskFace3.load_patterns patterns_file
  /\ (forall lines, patterns_file = Some lines ->
        DiskFace3.load_patterns patterns_file `sublist_of` map Py.strip lines).
Proof.
  destruct patterns_file as [lines|]; [|split; [constructor|split; [done|by intros ? [=]]]].
  unfold DiskFace3.load_patterns. split; [|split].
  - apply Forall_forall. intros pattern [line [Hline Hp]]%list_elem_of_In%in_flat_map.
    apply list_elem_of_In in Hline, Hp. cbv zeta in Hp.
    destruct (String.eqb_spec (Py.strip line) "") as [|Hne]; [by apply elem_of_nil in Hp|].
    destruct (Py.startswith "#" (Py.strip line)) eqn:Hc; [by apply elem_of_nil in Hp|].
    apply list_elem_of_singleton in Hp as ->.
    split; [done|]. split; [done|]. split; [apply strip_strip|]. by exists lines, line.
  - match goal with |- flat_map ?g _ = _ => set (f := g) end.
    assert (Hf : forall line, flat_map f (f line) = f line).
    { intros line. unfold f at 2 3.
      destruct (_ || _)%bool eqn:Hkeep; [done|].
      change (f (Py.strip line) ++ [] = [Py.strip line]).
      unfold f. by rewrite strip_strip, Hkeep. }
    induction lines as [|line lines IH]; [done|].
    change (flat_map f (f line ++ flat_map f lines) = f line ++ flat_map f lines).
    by rewrite flat_map_app, IH, Hf.
  - intros ? [= <-]. induction lines as [|line lines IH]; [done|]. simpl.
    destruct (_ || _)%bool; simpl; [by apply sublist_cons|by apply sublist_skip].
Qed.

(** ** Letter case *)

Lemma lower_cons c s : Py.lower (String c s) = String (Py.lower_char c) (Py.lower s).
Proof. reflexivity. Qed.

Lemma lower_char_lower c : Py.lower_char (Py.lower_char c) = Py.lower_char c.
Proof. by destruct c as [[] [] [] [] [] [] [] []]. Qed.

(** Lower-casing yields a character that is no letter exactly from that
    character. *)
Lemma lower_char_slash c : Ascii.eqb (Py.lower_char c) "/" = Ascii.eqb c "/".
Proof. by destruct c as [[] [] [] [] [] [] [] []]. Qed.

Lemma lower_char_dot c : Ascii.eqb (Py.lower_char c) "." = Ascii.eqb c ".".
Proof. by destruct c as [[] [] [] [] [] [] [] []]. Qed.

Lemma lower_char_star c : Ascii.eqb "*" (Py.lower_char c) = Ascii.eqb "*" c.
Proof. by destruct c as [[] [] [] [] [] [] [] []]. Qed.

Lemma lower_lower s : Py.lower (Py.lower s) = Py.lower s.
Proof. induction s as [|c s IH]; [done|]. by rewrite !lower_cons, lower_char_lower, IH. Qed.

Lemma lower_app s t : Py.lower (s +:+ t) = Py.lower s +:+ Py.lower t.
Proof.
  induction s as [|c s IH]; [done|]. by rewrite append_String, !lower_cons, append_String, IH.
Qed.

Lemma lower_split s : Py.split "/" (Py.lower s) = map Py.lower (Py.split "/" s).
Proof.
  induction s as [|c s IH]; [done|]. rewrite lower_cons.
  change (Py.split "/" (String (Py.lower_char c) (Py.lower s)))
    with (if Ascii.eqb (Py.lower_char c) "/" then "" :: Py.split "/" (Py.lower s)
          else match Py.split "/" (Py.lower s) with
               | h :: t => String (Py.lower_char c) h :: t
               | [] => [String (Py.lower_char c) ""]
               end).
  change (Py.split "/" (String c s))
    with (if Ascii.eqb c "/" then "" :: Py.split "/" s
          else match Py.split "/" s with
               | h :: t => String c h :: t
               | [] => [String c ""]
               end).
  rewrite lower_char_slash, IH. destruct (Ascii.eqb c "/"); [done|].
  by destruct (Py.split "/" s).
Qed.

Lemma lower_join l : Py.join "/" (map Py.lower l) = Py.lower (Py.join "/" l).
Proof.
  induction l as [|x l IH]; [done|]. destruct l as [|y l]; [done|].
  change (map Py.lower (x :: y :: l)) with (Py.lower x :: Py.lower y :: map Py.lower l).
  rewrite !join_cons.
  change (Py.lower y :: map Py.lower l) with (map Py.lower (y :: l)).
  by rewrite IH, lower_app.
Qed.

Lemma root_slashes s :
  PurePath.root s
  = if Py.startswith "///" s then "/"
    else if Py.startswith "//" s then "//"
    else if Py.startswith "/" s then "/" else "".
Proof.
  destruct s as [|c1 s]; [done|].
  destruct c1 as [[] [] [] [] [] [] [] []]; try reflexivity.
  destruct s as [|c2 s]; [done|].
  destruct c2 as [[] [] [] [] [] [] [] []]; try reflexivity.
  destruct s as [|c3 s]; [done|].
  destruct c3 as [[] [] [] [] [] [] [] []]; reflexivity.
Qed.

Lemma lower_startswith_slashes p s :
  p ∈ ["/"; "//"; "///"] -> Py.startswith p (Py.lower s) = Py.startswith p s.
Proof.
  assert (H1 : forall c t r, Py.startswith (String "/" r) (String c t)
                             = (Ascii.eqb c "/" && Py.startswith r t)%bool).
  { intros c t r. change (Py.startswith (String "/" r) (String c t))
      with (Ascii.eqb "/" c && Py.startswith r t)%bool. by rewrite Ascii.eqb_sym. }
  intros Hp. repeat (apply elem_of_cons in Hp as [->|Hp]); [..|by apply elem_of_nil in Hp].
  - destruct s as [|c1 s]; [done|]. by rewrite lower_cons, !H1, lower_char_slash.
  - destruct s as [|c1 [|c2 s]]; [done|by rewrite !lower_cons, !H1, lower_char_slash|].
    by rewrite !lower_cons, !H1, !lower_char_slash.
  - destruct s as [|c1 [|c2 [|c3 s]]]; [done|..];
      by rewrite !lower_cons, !H1, !lower_char_slash.
Qed.

Lemma lower_root s : PurePath.root (Py.lower s) = PurePath.root s.
Proof.
  rewrite !root_slashes, !lower_startswith_slashes; [done|set_solver..].
Qed.

Lemma root_lower s : Py.lower (PurePath.root s) = PurePath.root s.
Proof. rewrite root_slashes. by repeat destruct (Py.startswith _ _). Qed.

Lemma lower_is_empty s : Py.lower s = "" <-> s = "".
Proof. by destruct s. Qed.

Lemma lower_is_dot s : Py.lower s = "." <-> s = ".".
Proof.
  destruct s as [|c [|d s]]; try done. rewrite lower_cons.
  change (Py.lower "") with "". split.
  - intros [= H]. f_equal.
    pose proof (lower_char_dot c) as Hc. rewrite H in Hc.
    change (Ascii.eqb "." ".") with true in Hc. symmetry in Hc. by apply Ascii.eqb_eq in Hc.
  - by intros [= ->].
Qed.

Lemma lower_tail s : PurePath.tail (Py.lower s) = map Py.lower (PurePath.tail s).
Proof.
  unfold PurePath.tail. rewrite lower_split.
  induction (Py.split "/" s) as [|x l IH]; [done|].
  rewrite map_cons, !filter_cons, IH.
  repeat case_decide; try done; exfalso;
    rewrite ?lower_is_empty, ?lower_is_dot in *; tauto.
Qed.

Lemma lower_str s : PurePath.str (Py.lower s) = Py.lower (PurePath.str s).
Proof.
  unfold PurePath.str. rewrite lower_root, lower_tail, lower_join.
  rewrite <- (root_lower s) at 1. rewrite <- lower_app.
  by destruct (PurePath.root s +:+ Py.join "/" (PurePath.tail s)).
Qed.

Lemma lower_is_stars s : String.eqb "**" (Py.lower s) = String.eqb "**" s.
Proof.
  destruct s as [|c [|d [|e s]]]; try done.
  - rewrite !lower_cons. change (Py.lower "") with "".
    change (("**" =? String ?a "")%string) with (Ascii.eqb "*" a && false)%bool.
    by rewrite !lower_char_star.
  - rewrite !lower_cons. change (Py.lower "") with "".
    change (("**" =? String ?a (String ?b ""))%string)
      with (Ascii.eqb "*" a && (Ascii.eqb "*" b && true))%bool.
    by rewrite !lower_char_star.
  - rewrite !lower_cons.
    change (("**" =? String ?a (String ?b (String ?x ?y)))%string)
      with (Ascii.eqb "*" a && (Ascii.eqb "*" b && false))%bool.
    by rewrite !lower_char_star.
Qed.

Lemma lower_last l : List.last (map Py.lower l) "" = Py.lower (List.last l "").
Proof.
  induction l as [|x l IH]; [done|]. destruct l as [|y l]; [done|]. exact IH.
Qed.

(** X21.  Matching ignores letter case: lower-casing the path, or the
    pattern, changes the answer of [path_matches_pattern] for no path and
    no pattern, and so that of [should_exclude] for no path. *)
Theorem matching_ignores_letter_case path pattern (exclusions : gset string) :
  path_matches_pattern (Py.lower path) pattern = path_matches_pattern path pattern
  /\ path_matches_pattern path (Py.lower pattern) = path_matches_pattern path pattern
  /\ should_exclude (Py.lower path) exclusions = should_exclude path exclusions.
Proof.
  assert (Hpath : forall p, path_matches_pattern (Py.lower path) p
                            = path_matches_pattern path p); [|split; [apply Hpath|split]].
  3: { apply existsb_ext_elem. intros p _. apply Hpath. }
  all: try intros p; unfold path_matches_pattern.
  - rewrite !lower_str, !lower_lower, lower_split, length_map.
    destruct (PurePath.is_absolute p); [done|].
    destruct (existsb _ _); [done|].
    apply existsb_ext_elem. intros i _.
    by rewrite skipn_map, firstn_map, lower_join, lower_lower.
  - unfold PurePath.is_absolute.
    rewrite (lower_startswith_slashes "/") by set_solver.
    rewrite !lower_str, !lower_lower, lower_split, length_map, lower_last.
    destruct (Py.startswith "/" pattern); [done|].
    assert (existsb (String.eqb "**") (map Py.lower (Py.split "/" pattern))
            = existsb (String.eqb "**") (Py.split "/" pattern)) as ->.
    { induction (Py.split "/" pattern) as [|x l IH]; [done|].
      cbn [existsb map]. by rewrite IH, lower_is_stars. }
    destruct (existsb _ _); [|done].
    by rewrite !lower_app, lower_lower.
Qed.

(** ** The directories a scan visits *)

(** X22.  The walk of a scan visits a directory exactly when it is the
    root or is reached from the root through directories that are listed,
    are no symbolic links, match no exclusion and, when dot entries are
    ignored, neither start with a dot nor lie under a path component that
    does; the file names it finds there are those of the listing, and the
    directory names left are those the filter keeps. *)
Theorem visited_directories_are_the_scanned_ones
    cfg exclusions root fs path dirnames filenames :
  (path, dirnames, filenames) ∈ os_walk (keep_dir cfg exclusions) root fs
  <-> exists link es,
        scanned cfg exclusions root fs path (Dir link (Some es))
        /\ dirnames = filter (fun d => keep_dir cfg exclusions path d) (dirnames_of es)
        /\ filenames = filenames_of es.
Proof.
  split.
  - revert root. induction fs as [link size|link|link es IH] using node_induction;
      intros root Hy; [by apply elem_of_nil in Hy|by apply elem_of_nil in Hy|].
    rewrite os_walk_dir in Hy. apply elem_of_cons in Hy as [[= -> -> ->]|Hy].
    + exists link, es. split; [constructor|done].
    + apply elem_of_walk_children in Hy as (name & child & Hin & Hd & Hkeep & Hl & Hy).
      rewrite Forall_forall in IH. destruct (IH _ Hin _ Hy) as (l' & es' & Hpath & -> & ->).
      exists l', es'. split; [|done].
      apply keep_dir_spec in Hkeep as [Hdot Hx]. by eapply scanned_below.
  - intros (link & es & Hpath & -> & ->).
    remember (Dir link (Some es)) as n eqn:Hn.
    induction Hpath as [top n|top link' es' name child path n Hin Hd Hl Hdot Hx _ IH]; subst.
    + rewrite os_walk_dir. apply list_elem_of_here.
    + rewrite os_walk_dir. apply list_elem_of_further.
      apply elem_of_walk_children. exists name, child.
      repeat split; auto. by apply keep_dir_spec.
Qed.

(** ** The size of a tree *)

Lemma current_size_cons exclusions ignore_dotfolders dirpath name link size filenames :
  Diskspace.current_size exclusions ignore_dotfolders dirpath ((name, link, size) :: filenames)
  = (if (negb (ignore_dotfolders && Py.startswith "." name) && negb link
         && negb (Diskspace.should_exclude (OsPath.join dirpath name) exclusions))%bool
     then default 0 size else 0)
    + Diskspace.current_size exclusions ignore_dotfolders dirpath filenames.
Proof.
  unfold Diskspace.current_size.
  match goal with
  | |- fold_left ?f _ _ = _ =>
      assert (forall l acc, fold_left f l acc = acc + fold_left f l 0) as Hshift
  end.
  { intros l. induction l as [|[[n l'] sz] l IH]; intros acc; [simpl; lia|].
    cbn [fold_left]. rewrite IH. symmetry. rewrite IH.
    destruct (_ && _)%bool; destruct sz; lia. }
  cbn [fold_left]. rewrite Hshift.
  destruct (_ && _)%bool; destruct size; simpl; lia.
Qed.

(** X23.  [get_dir_size] of [diskspace.py] computes the size of the tree:
    the sum, over the entries of the directory, of the size of each file
    that is no symbolic link, matches no exclusion and can be read, and of
    the size of the tree of each subdirectory that is no symbolic link and
    matches no exclusion. *)
Theorem get_dir_size_is_the_tree_size exclusions path fs :
  Diskspace.get_dir_size exclusions path fs = tree_size exclusions path fs.
Proof.
  rewrite get_dir_size_sum. revert path.
  induction fs as [link size|link|link es IH] using node_induction; intros path;
    [done|done|].
  rewrite os_walk_dir, map_cons, sum_cons. cbn [fst snd].
  unfold walk_children. cbn [tree_size].
  induction IH as [|[name child] es Hchild _ IHes].
  - reflexivity.
  - cbn [flat_map]. rewrite map_app, sum_app.
    destruct child as [l size|l entries].
    + change (filenames_of ((name, File l size) :: es))
        with ((name, l, size) :: filenames_of es).
      rewrite current_size_cons. cbn [fst snd is_dir is_link andb negb map].
      change (Py.sum []) with 0. rewrite Z.add_0_l, <- Z.add_assoc.
      apply (f_equal2 Z.add); [|exact IHes].
      by destruct l, (Diskspace.should_exclude _ _).
    + change (filenames_of ((name, Dir l entries) :: es)) with (filenames_of es).
      cbn [fst snd is_dir is_link andb] in *.
      change (Diskspace.keep_unexcluded exclusions path name)
        with (negb (Diskspace.should_exclude (OsPath.join path name) exclusions)).
      rewrite Z.add_assoc, (Z.add_comm (Diskspace.current_size _ _ _ _)), <- Z.add_assoc.
      apply (f_equal2 Z.add); [|exact IHes].
      specialize (Hchild (OsPath.join path name)).
      by destruct l, (Diskspace.should_exclude _ _).
Qed.

(** ** Files and their directories *)

Lemma own_files_size_ge cfg exclusions dirpath filenames f :
  Forall (fun f : file_info => forall sz, f.2 = Some sz -> 0 <= sz) filenames ->
  f ∈ filenames -> counted cfg exclusions dirpath f = true ->
  default 0 f.2 <= own_files_size cfg exclusions dirpath filenames.
Proof.
  unfold own_files_size. intros Hall Hin Hc.
  induction Hall as [|g l Hg Hl IH]; [by apply elem_of_nil in Hin|].
  assert (0 <= foldr Z.add 0
                 (map (fun f : file_info => default 0 f.2)
                      (filter (fun f => counted cfg exclusions dirpath f = true) l))) as Hrest.
  { clear -Hl. induction Hl as [|h l Hh _ IH]; [done|].
    rewrite filter_cons. case_decide; [|done]. simpl.
    destruct (h.2) as [sz|] eqn:Hsz; simpl; [specialize (Hh sz eq_refl)|]; lia. }
  assert (0 <= default 0 g.2) by (destruct (g.2) as [sz|]; simpl; [by apply Hg|done]).
  rewrite filter_cons. apply elem_of_cons in Hin as [->|Hin].
  - rewrite decide_True by done. simpl. lia.
  - specialize (IH Hin). case_decide; simpl; lia.
Qed.

(** X24.  A scan in both modes returns the entries of the scan in
    directory mode and those of the scan in file mode.  In a tree whose
    file sizes are not negative every entry of the scan in file mode
    reaches the threshold and is a file listed by a directory of the tree
    which the scan in directory mode reports, with the sum of its own
    files, a size at least as large. *)
Theorem reported_files_lie_in_reported_directories
    (ignore_dot : bool) exclusions min_bytes root fs :
  (forall entry,
      entry ∈ analyze_disk_usage
                {| scan_files := true; scan_directories := true;
                   ignore_dotfolders := ignore_dot |} exclusions min_bytes root fs
      <-> entry ∈ analyze_disk_usage
                    {| scan_files := false; scan_directories := true;
                       ignore_dotfolders := ignore_dot |} exclusions min_bytes root fs
          \/ entry ∈ analyze_disk_usage
                       {| scan_files := true; scan_directories := false;
                          ignore_dotfolders := ignore_dot |} exclusions min_bytes root fs)
  /\ (sizes_nonneg fs ->
      forall path size,
        (path, size) ∈ analyze_disk_usage
                         {| scan_files := true; scan_directories := false;
                            ignore_dotfolders := ignore_dot |} exclusions min_bytes root fs ->
        exists dirpath link es name dir_size,
          scanned {| scan_files := false; scan_directories := true;
                     ignore_dotfolders := ignore_dot |}
                  exclusions root fs dirpath (Dir link (Some es))
          /\ (name, File false (Some size)) ∈ es
          /\ path = OsPath.join dirpath name
          /\ dir_size
             = direct_files_total {| scan_files := false; scan_directories := true;
                                     ignore_dotfolders := ignore_dot |}
                                  exclusions dirpath es
          /\ (dirpath, dir_size)
               ∈ analyze_disk_usage
                   {| scan_files := false; scan_directories := true;
                      ignore_dotfolders := ignore_dot |} exclusions min_bytes root fs
          /\ min_bytes <= size <= dir_size).
Proof.
  set (both := {| scan_files := true; scan_directories := true;
                  ignore_dotfolders := ignore_dot |}).
  set (dirs := {| scan_files := false; scan_directories := true;
                  ignore_dotfolders := ignore_dot |}).
  set (files := {| scan_files := true; scan_directories := false;
                   ignore_dotfolders := ignore_dot |}).
  assert (Hvisit : forall y, visit both exclusions min_bytes y
                             = if (ignore_dot && in_dot_dir y.1.1)%bool then []
                               else visit dirs exclusions min_bytes y
                                    ++ visit files exclusions min_bytes y).
  { intros [[dirpath dirnames] filenames]. unfold visit. simpl.
    destruct (ignore_dot && in_dot_dir dirpath)%bool; [done|].
    unfold directory_entries, file_entries. simpl. by rewrite app_nil_r. }
  split.
  - intros entry. rewrite !elem_of_analyze, !elem_of_results.
    change (keep_dir dirs exclusions) with (keep_dir both exclusions).
    change (keep_dir files exclusions) with (keep_dir both exclusions).
    split.
    + intros (y & Hy & He). rewrite Hvisit in He.
      destruct (_ && _)%bool; [by apply elem_of_nil in He|].
      apply elem_of_app in He as [He|He]; [left|right]; by exists y.
    + intros [(y & Hy & He)|(y & Hy & He)]; exists y; (split; [done|]);
        rewrite Hvisit; destruct y as [[dirpath dirnames] filenames];
        unfold visit in *; simpl in *;
        destruct (ignore_dot && in_dot_dir dirpath)%bool; try done;
        apply elem_of_app; [by left|by right].
  - intros Hnn path size (dirpath & link & es & Hs & Hdot & Hcase)%elem_of_scan.
    destruct Hcase as [([=] & _)|(_ & name & Hin & -> & Hn & Hx & Hmin)].
    apply (scanned_ext files dirs) in Hs; [|done].
    assert (Forall (fun f : file_info => forall sz, f.2 = Some sz -> 0 <= sz)
                   (filenames_of es)) as Hfiles.
    { apply filenames_nonneg.
      pose proof (found_at_nonneg _ _ _ _ (scanned_found _ _ _ _ _ _ Hs) Hnn) as Hd.
      by inversion Hd. }
    pose proof (own_files_size_ge dirs exclusions dirpath (filenames_of es)
                  (name, false, Some size) Hfiles) as Hge.
    rewrite own_files_total in Hge. cbn [snd default] in Hge.
    assert (size <= direct_files_total dirs exclusions dirpath es) as Hle.
    { apply Hge; [by apply elem_of_filenames_of|].
      unfold counted. cbn [negb andb] in *.
      change (ignore_dotfolders dirs) with (ignore_dotfolders files).
      by rewrite Hn, Hx. }
    exists dirpath, link, es, name, (direct_files_total dirs exclusions dirpath es).
    split; [done|]. split; [done|]. split; [done|]. split; [done|]. split; [|lia].
    apply elem_of_scan. exists dirpath, link, es. split; [done|]. split; [done|].
    left. split; [done|]. split; [done|]. split; [done|]. lia.
Qed.

Lemma reported_files_lie_in_reported_directories_witness :
  exists dirpath link es name dir_size,
    scanned directories_only ∅ "/r" small_tree dirpath (Dir link (Some es))
    /\ (name, File false (Some (MiB 200))) ∈ es
    /\ "/r/sub/big" = OsPath.join dirpath name
    /\ dir_size = direct_files_total directories_only ∅ dirpath es
    /\ (dirpath, dir_size) ∈ analyze_disk_usage directories_only ∅ (MiB 100) "/r" small_tree
    /\ MiB 100 <= MiB 200 <= dir_size.
Proof.
  destruct (reported_files_lie_in_reported_directories false ∅ (MiB 100) "/r" small_tree)
    as [_ H].
  apply (H small_tree_nonneg "/r/sub/big" (MiB 200)). in_list.
Defined.

(** ** The variants on absolute patterns *)

(** X25.  On an absolute pattern and a path as the scan builds it the
    three variants of [path_matches_pattern] give the same answer. *)
Theorem variants_agree_on_absolute_patterns path pattern :
  normal_path path ->
  PurePath.is_absolute pattern = true ->
  DiskFace3.path_matches_pattern path pattern = path_matches_pattern path pattern
  /\ Diskspace.path_matches_pattern path pattern = path_matches_pattern path pattern.
Proof.
  intros Hpath%purepath_str_normal Habs.
  unfold DiskFace3.path_matches_pattern, Diskspace.path_matches_pattern,
    path_matches_pattern.
  by rewrite Habs, Hpath.
Qed.

Lemma variants_agree_on_absolute_patterns_witness :
  DiskFace3.path_matches_pattern "/var/lib/docker" "/var/lib/*"
  = path_matches_pattern "/var/lib/docker" "/var/lib/*".
Proof.
  apply (variants_agree_on_absolute_patterns "/var/lib/docker" "/var/lib/*"); [|reflexivity].
  exists ["var"; "lib"; "docker"]. split; [|by left].
  repeat constructor; discriminate.
Defined.

(** ** The table of [diskspace.py] *)

Lemma sum_positive (l : list Z) : Forall (fun x => 0 < x) l -> l <> [] -> 0 < Py.sum l.
Proof.
  induction 1 as [|x l Hx Hl IH]; [done|]. intros _. rewrite sum_cons.
  destruct l as [|y l]; [change (Py.sum []) with 0; lia|].
  specialize (IH ltac:(done)). lia.
Qed.

Lemma display_results_fails results top_n :
  Diskspace.display_results results top_n = None
  <-> Py.sum (map snd results) = 0 /\ Py.slice_to top_n results <> [].
Proof.
  unfold Diskspace.display_results. cbv zeta.
  destruct (Z.eqb_spec (Py.sum (map snd results)) 0) as [Hz|Hnz].
  - destruct (Py.slice_to top_n results) as [|row rows]; simpl; [|done].
    split; [done|]. by intros [_ ?].
  - split; [|by intros [? _]]. intros Hfail. exfalso.
    induction (Py.slice_to top_n results) as [|row rows IH]; [done|].
    simpl in Hfail. destruct (mapM _ rows); [done|]. by apply IH.
Qed.

(** X26.  [display_results] of [diskspace.py] divides by the total size
    without testing it: it raises [ZeroDivisionError] exactly when the
    sizes add up to 0 and there is a row to print.  After a scan with a
    positive threshold it does not raise: every size reported reaches the
    threshold, so the total is positive as soon as there is a row. *)
Theorem display_results_divides_by_the_total
    results top_n exclusions min_size_bytes ignore_dotfolders root_path fs :
  (Diskspace.display_results results top_n = None
   <-> Py.sum (map snd results) = 0 /\ Py.slice_to top_n results <> [])
  /\ (0 < min_size_bytes ->
      is_Some (Diskspace.display_results
                 (Diskspace.analyze_disk_usage exclusions min_size_bytes ignore_dotfolders
                    root_path fs)
                 top_n)).
Proof.
  split; [apply display_results_fails|]. intros Hmin.
  set (found := Diskspace.analyze_disk_usage exclusions min_size_bytes ignore_dotfolders
                  root_path fs).
  destruct (Diskspace.display_results found top_n) eqn:Hd; [done|]. exfalso.
  apply display_results_fails in Hd as [Hzero Hrows].
  assert (found <> []) as Hne.
  { intros Hnil. apply Hrows. rewrite Hnil. unfold Py.slice_to.
    destruct (0 <=? top_n); [by rewrite take_nil|done]. }
  assert (Forall (fun x => 0 < x) (map snd found)) as Hpos.
  { apply Forall_fmap, Forall_forall. intros [path size] Hin. simpl.
    unfold found, Diskspace.analyze_disk_usage in Hin.
    rewrite sorted_Permutation in Hin. unfold Diskspace.results in Hin.
    apply list_elem_of_In, in_flat_map in Hin as ([[dirpath dirnames] filenames] & _ & Hin).
    destruct (Z.leb_spec min_size_bytes
                (Diskspace.current_size exclusions ignore_dotfolders dirpath filenames));
      [|done].
    destruct Hin as [[= <- <-]|[]]. lia. }
  pose proof (sum_positive _ Hpos) as Hsum.
  destruct found; [done|]. specialize (Hsum ltac:(done)). lia.
Qed.

Lemma display_results_divides_by_the_total_witness :
  Diskspace.display_results [("/empty", 0); ("/r", 0)] 20 = None.
Proof.
  apply (display_results_divides_by_the_total [("/empty", 0); ("/r", 0)] 20 ∅ 1 false "/" small_tree).
  split; [reflexivity|discriminate].
Defined.
